(** * Notion MCP server and terminal chat client: protocol layer

    A shallow embedding of [src/mcp-server.ts] (class [NotionMCPServer]) and
    [src/chat-client.ts] (class [TerminalChatClient]).

    - [JS]      the fragment of JavaScript values and builtins the two
                programs rely on (truthiness, property reads, the
                conversions to string and to number, [Math.min],
                [String.prototype.trim], [split]);
    - [JSON]    [JSON.parse] and [JSON.stringify];
    - [Server]  the tool handlers and the [tools/call] dispatcher;
    - [Client]  the correlation state of the chat client: id counter,
                pending map, timers, promises, the stdout and exit handlers;
    - [Lifecycle], [Listing], [Registry], [ToolCall], [EndToEnd]
                the invariants of a request in flight, the records the
                list handlers return, the tool catalogue of both sides,
                and the decoding of a result by [callMCPTool] and
                [processUserMessage];
    - [Scenario], [Samples] concrete sessions, responses and providers;
    - [JSFacts], [ClientSpec], [ServerSpec] the properties, and [Checks]
                their instances on the concrete inputs;
    - [ClientLaws], [ServerLaws], [JSONLaws], [RegistryLaws],
                [EndToEndLaws] further properties of the same code, and
                [Instances] theirs on the concrete inputs. *)

From Stdlib Require Import QArith Ascii String Sorted.
From stdpp Require Import gmap strings list pretty.

Local Open Scope string_scope.
Set Warnings "-register-all".


(* ===================================================================== *)
(** * JavaScript values                                                   *)
(* ===================================================================== *)
Module JS.

(** A JavaScript number.  Every finite double is a rational, so [Fin] holds
    the exact value; the program only compares numbers and tests them for
    zero, both of which are exact.  The sign of zero is not tracked. *)
Inductive JSNumber :=
  | NaN
  | PosInf
  | NegInf
  | Fin (q : Q).

Definition num_of_Z (z : Z) : JSNumber := Fin (inject_Z z).

(** [Math.min(a, b)] on numbers: NaN is contagious, otherwise the smaller. *)
Definition Math_min (a b : JSNumber) : JSNumber :=
  match a, b with
  | NaN, _ | _, NaN => NaN
  | NegInf, _ | _, NegInf => NegInf
  | PosInf, x | x, PosInf => x
  | Fin p, Fin q => if Qle_bool p q then a else b
  end.

(** Numeric order, false as soon as a NaN is involved (as [<=] in JS). *)
Definition num_le (a b : JSNumber) : bool :=
  match a, b with
  | NaN, _ | _, NaN => false
  | NegInf, _ | _, PosInf => true
  | PosInf, _ | _, NegInf => false
  | Fin p, Fin q => Qle_bool p q
  end.

(** The functions every plain object inherits from [Object.prototype]. *)
Inductive Native :=
  | Object_constructor
  | defineGetter
  | defineSetter
  | hasOwnProperty
  | lookupGetter
  | lookupSetter
  | isPrototypeOf
  | propertyIsEnumerable
  | Object_toString
  | Object_valueOf
  | toLocaleString.

(** Structural data as the programs see it: what [JSON.parse] and the
    provider SDK hand over, plus [undefined] (the value of an absent
    property) and [JNative], a builtin reached through [Object.prototype]
    (for instance [o["toString"]]). An object is the sequence of its own
    properties in enumeration order. *)
Inductive JSValue :=
  | JUndefined
  | JNull
  | JBool (b : bool)
  | JNum (n : JSNumber)
  | JStr (s : string)
  | JArr (elems : list JSValue)
  | JObj (props : list (string * JSValue))
  | JNative (f : Native).

(** ToBoolean. *)
Definition truthy (v : JSValue) : bool :=
  match v with
  | JUndefined | JNull => false
  | JBool b => b
  | JNum NaN => false
  | JNum (Fin q) => negb (Qeq_bool q 0)
  | JNum _ => true
  | JStr s => negb (String.eqb s "")
  | JArr _ | JObj _ | JNative _ => true
  end.

(** [a || b]. *)
Definition or_else (a b : JSValue) : JSValue := if truthy a then a else b.

(** [v === s] for a string literal [s]. *)
Definition is_str (v : JSValue) (s : string) : bool :=
  match v with JStr t => String.eqb t s | _ => false end.

(** [typeof v === 'object']. *)
Definition typeof_object (v : JSValue) : bool :=
  match v with JNull | JArr _ | JObj _ => true | _ => false end.

Definition Array_isArray (v : JSValue) : bool :=
  match v with JArr _ => true | _ => false end.

(** ** Exceptions *)

(** A thrown value: an [Error] instance (of any subclass) with its message,
    or anything else. *)
Inductive Exn :=
  | JSError (message : string)
  | JSThrown (v : JSValue).

Inductive outcome (A : Type) :=
  | Ok (a : A)
  | Throw (e : Exn).
Arguments Ok {A} a.
Arguments Throw {A} e.

Definition bind {A B} (m : outcome A) (f : A -> outcome B) : outcome B :=
  match m with Ok a => f a | Throw e => Throw e end.

#[global] Instance outcome_ret : MRet outcome := @Ok.
#[global] Instance outcome_bind : MBind outcome := fun A B f m => bind m f.

(** [try { m } catch (e) { h e }] around a computation that yields a value. *)
Definition try_catch {A} (m : outcome A) (h : Exn -> A) : A :=
  match m with Ok a => a | Throw e => h e end.

(** ** Strings: UTF-8 text

    A string is its UTF-8 byte sequence.  [length] counts UTF-16 code
    units, as the [length] property does. *)

Definition byte (c : ascii) : N := N_of_ascii c.

Definition is_continuation (c : ascii) : bool :=
  (128 <=? byte c)%N && (byte c <? 192)%N.

Fixpoint utf16_length (s : string) : nat :=
  match s with
  | EmptyString => 0
  | String c r =>
      (if is_continuation c then 0
       else if (240 <=? byte c)%N then 2 else 1) + utf16_length r
  end.

(** The string iterator: one string per code point. *)
Fixpoint take_continuation (s : string) : string * string :=
  match s with
  | String c r =>
      if is_continuation c
      then let (h, t) := take_continuation r in (String c h, t)
      else (EmptyString, s)
  | EmptyString => (EmptyString, EmptyString)
  end.

Fixpoint code_points_aux (fuel : nat) (s : string) : list string :=
  match fuel, s with
  | S f, String c r =>
      let (h, t) := take_continuation r in String c h :: code_points_aux f t
  | _, _ => []
  end.

Definition code_points (s : string) : list string :=
  code_points_aux (String.length s) s.

(** White space and line terminators recognised by [trim], as UTF-8. *)
Definition ch (n : nat) : ascii := ascii_of_nat n.
Definition bytes (l : list nat) : string := string_of_list_ascii (map ch l).

Definition white_space : list string :=
  map bytes
    [ [9]; [10]; [11]; [12]; [13]; [32]; [194; 160]; [225; 154; 128];
      [226; 128; 128]; [226; 128; 129]; [226; 128; 130]; [226; 128; 131];
      [226; 128; 132]; [226; 128; 133]; [226; 128; 134]; [226; 128; 135];
      [226; 128; 136]; [226; 128; 137]; [226; 128; 138]; [226; 128; 168];
      [226; 128; 169]; [226; 128; 175]; [226; 129; 159]; [227; 128; 128];
      [239; 187; 191] ].

Fixpoint strip_prefix (p s : string) : option string :=
  match p, s with
  | EmptyString, _ => Some s
  | String a p', String b s' => if Ascii.eqb a b then strip_prefix p' s' else None
  | _, _ => None
  end.

Fixpoint strip_any (ps : list string) (s : string) : option string :=
  match ps with
  | [] => None
  | p :: ps' =>
      match strip_prefix p s with
      | Some r => Some r
      | None => strip_any ps' s
      end
  end.

Fixpoint drop_space (ws : list string) (fuel : nat) (s : string) : string :=
  match fuel with
  | O => s
  | S f =>
      match strip_any ws s with
      | Some r => drop_space ws f r
      | None => s
      end
  end.

Definition string_rev (s : string) : string :=
  string_of_list_ascii (rev (list_ascii_of_string s)).

Definition trimStart (s : string) : string :=
  drop_space white_space (String.length s) s.

Definition trimEnd (s : string) : string :=
  string_rev (drop_space (map string_rev white_space) (String.length s) (string_rev s)).

Definition trim (s : string) : string := trimEnd (trimStart s).

(** [s.split(sep)] for a one-character separator. *)
Fixpoint split (sep : ascii) (s : string) : list string :=
  match s with
  | EmptyString => [EmptyString]
  | String c r =>
      if Ascii.eqb c sep then EmptyString :: split sep r
      else match split sep r with
           | h :: t => String c h :: t
           | [] => [String c EmptyString]
           end
  end.

Definition newline : ascii := ch 10.

(** ** Property reads *)

Fixpoint own (props : list (string * JSValue)) (k : string) : option JSValue :=
  match props with
  | [] => None
  | (k', v) :: r => if String.eqb k' k then Some v else own r k
  end.

(** The members every plain object inherits from [Object.prototype],
    by key. *)
Definition Object_prototype : list (string * Native) :=
  [ ("constructor", Object_constructor); ("__defineGetter__", defineGetter);
    ("__defineSetter__", defineSetter); ("hasOwnProperty", hasOwnProperty);
    ("__lookupGetter__", lookupGetter); ("__lookupSetter__", lookupSetter);
    ("isPrototypeOf", isPrototypeOf);
    ("propertyIsEnumerable", propertyIsEnumerable);
    ("toString", Object_toString); ("valueOf", Object_valueOf);
    ("toLocaleString", toLocaleString) ].

Fixpoint method (table : list (string * Native)) (k : string) : option Native :=
  match table with
  | [] => None
  | (k', f) :: r => if String.eqb k' k then Some f else method r k
  end.

(** The [name] of a builtin. *)
Definition Native_name (f : Native) : string :=
  match f with
  | Object_constructor => "Object"
  | defineGetter => "__defineGetter__"
  | defineSetter => "__defineSetter__"
  | hasOwnProperty => "hasOwnProperty"
  | lookupGetter => "__lookupGetter__"
  | lookupSetter => "__lookupSetter__"
  | isPrototypeOf => "isPrototypeOf"
  | propertyIsEnumerable => "propertyIsEnumerable"
  | Object_toString => "toString"
  | Object_valueOf => "valueOf"
  | toLocaleString => "toLocaleString"
  end.

Definition inherited (k : string) : JSValue :=
  match method Object_prototype k with
  | Some f => JNative f
  | None => if String.eqb k "__proto__" then JObj [] else JUndefined
  end.

(** A canonical array index: decimal digits, no leading zero, below
    2^32 - 1. *)
Definition digit (c : ascii) : option N :=
  let n := byte c in
  if (48 <=? n)%N && (n <=? 57)%N then Some (n - 48)%N else None.

Fixpoint digits_value (acc : N) (s : string) : option N :=
  match s with
  | EmptyString => Some acc
  | String c r =>
      match digit c with
      | Some d => digits_value (10 * acc + d)%N r
      | None => None
      end
  end.

Definition index_of_key (k : string) : option N :=
  match k with
  | EmptyString => None
  | String c EmptyString => digit c
  | String c _ =>
      if Ascii.eqb c "0" then None
      else match digits_value 0 k with
           | Some i => if (i <? 4294967295)%N then Some i else None
           | None => None
           end
  end.

Definition TypeError_read (what k : string) : Exn :=
  JSError ("Cannot read properties of " +:+ what +:+ " (reading '" +:+ k +:+ "')").

(** [v.k] and [v[k]].  Reading a property of [null] or [undefined] throws.
    Computed keys are only ever applied to plain objects by the programs,
    so prototype members are modelled for those alone. *)
Definition Get (v : JSValue) (k : string) : outcome JSValue :=
  match v with
  | JUndefined => Throw (TypeError_read "undefined" k)
  | JNull => Throw (TypeError_read "null" k)
  | JObj props =>
      match own props k with
      | Some x => Ok x
      | None => Ok (inherited k)
      end
  | JArr l =>
      if String.eqb k "length" then Ok (JNum (num_of_Z (Z.of_nat (length l))))
      else match index_of_key k with
           | Some i => Ok (nth (N.to_nat i) l JUndefined)
           | None => Ok JUndefined
           end
  | JStr s =>
      if String.eqb k "length" then Ok (JNum (num_of_Z (Z.of_nat (utf16_length s))))
      else Ok JUndefined
  | JBool _ | JNum _ | JNative _ => Ok JUndefined
  end.

(** [k in v]: a TypeError on anything that is not an object. *)
Definition has_property (k : string) (v : JSValue) : outcome bool :=
  match v with
  | JObj props =>
      Ok (match own props k with
          | Some _ => true
          | None =>
              match method Object_prototype k with
              | Some _ => true
              | None => String.eqb k "__proto__"
              end
          end)
  | JArr l =>
      Ok (String.eqb k "length" ||
          match index_of_key k with
          | Some i => (i <? N.of_nat (length l))%N
          | None => false
          end)
  | JNative _ => Ok false
  | _ => Throw (JSError ("Cannot use 'in' operator to search for '" +:+ k +:+ "'"))
  end.

(** The values of [Object.entries(v)], in order ([v] not null/undefined). *)
Definition Object_values (v : JSValue) : outcome (list JSValue) :=
  match v with
  | JUndefined | JNull =>
      Throw (JSError "Cannot convert undefined or null to object")
  | JObj props => Ok (map snd props)
  | JArr l => Ok l
  | JStr s => Ok (map JStr (code_points s))
  | _ => Ok []
  end.

(** [for (const x of v)]: arrays and strings are iterable. *)
Definition iterate (v : JSValue) : outcome (list JSValue) :=
  match v with
  | JArr l => Ok l
  | JStr s => Ok (map JStr (code_points s))
  | _ => Throw (JSError "value is not iterable")
  end.

(** ** Conversions to string and to number *)

Definition TypeError_primitive : Exn :=
  JSError "Cannot convert object to primitive value".

Definition is_primitive (v : JSValue) : bool :=
  match v with
  | JArr _ | JObj _ | JNative _ => false
  | _ => true
  end.

(** A member of [Object.prototype] other than [toLocaleString], called on
    the plain object with own properties [props] and no argument:
    [hasOwnProperty()] and [propertyIsEnumerable()] look for the key
    ["undefined"], [Object()] makes a new object, [__defineGetter__()]
    refuses a getter that is no function. *)
Definition call_simple (f : Native) (props : list (string * JSValue))
  : outcome JSValue :=
  match f with
  | Object_constructor => Ok (JObj [])
  | defineGetter | defineSetter =>
      Throw (JSError "Object.prototype.__defineGetter__: Expecting function")
  | hasOwnProperty | propertyIsEnumerable =>
      Ok (JBool (match own props "undefined" with Some _ => true | None => false end))
  | lookupGetter | lookupSetter => Ok JUndefined
  | isPrototypeOf => Ok (JBool false)
  | Object_toString => Ok (JStr "[object Object]")
  | Object_valueOf => Ok (JObj props)
  | toLocaleString => Throw (JSError "Maximum call stack size exceeded")
  end.

(** Any of them: [toLocaleString()] calls [this.toString()], whatever that
    is, and never returns if that is [toLocaleString] again. *)
Definition call_native (f : Native) (props : list (string * JSValue))
  : outcome JSValue :=
  match f with
  | toLocaleString =>
      match Get (JObj props) "toString" with
      | Ok (JNative g) => call_simple g props
      | Ok _ => Throw (JSError "this.toString is not a function")
      | Throw e => Throw e
      end
  | _ => call_simple f props
  end.

(** One step of OrdinaryToPrimitive: the method [k] of the object, if it
    is a function, is called; its result counts if it is no object. *)
Definition primitive_by (k : string) (props : list (string * JSValue))
  : outcome (option JSValue) :=
  match Get (JObj props) k with
  | Ok (JNative f) =>
      r ← call_native f props;
      Ok (if is_primitive r then Some r else None)
  | Ok _ => Ok None
  | Throw e => Throw e
  end.

(** OrdinaryToPrimitive of a plain object, trying the methods [first] and
    [second] in this order. *)
Definition ToPrimitive (first second : string) (props : list (string * JSValue))
  : outcome JSValue :=
  a ← primitive_by first props;
  match a with
  | Some p => Ok p
  | None =>
      b ← primitive_by second props;
      match b with
      | Some p => Ok p
      | None => Throw TypeError_primitive
      end
  end.

Section ToString.
(** [Number.prototype.toString], the shortest round-trip rendering of a
    double, is a builtin taken as given. *)
Variable Number_toString : JSNumber -> string.

Fixpoint join (sep : string) (l : list string) : string :=
  match l with
  | [] => ""
  | [x] => x
  | x :: r => x +:+ sep +:+ join sep r
  end.

(** ToString of a value that is no object. *)
Definition primitive_ToString (v : JSValue) : string :=
  match v with
  | JUndefined => "undefined"
  | JNull => "null"
  | JBool true => "true"
  | JBool false => "false"
  | JNum n => Number_toString n
  | JStr s => s
  | _ => ""
  end.

(** ToString.  An array converts through [join], which converts each
    element but [null] and [undefined]; a plain object through its
    [toString] or else its [valueOf], and the conversion throws a TypeError
    when neither is a function that returns a primitive, as for every
    object with an own [toString] member that is data. *)
Fixpoint ToString (v : JSValue) : outcome string :=
  match v with
  | JArr l =>
      parts ← (fix each (l : list JSValue) : outcome (list string) :=
                 match l with
                 | [] => Ok []
                 | x :: r =>
                     s ← match x with
                         | JUndefined | JNull => Ok ""
                         | _ => ToString x
                         end;
                     rest ← each r;
                     Ok (s :: rest)
                 end) l;
      Ok (join "," parts)
  | JObj props =>
      p ← ToPrimitive "toString" "valueOf" props;
      Ok (primitive_ToString p)
  | JNative f => Ok ("function " +:+ Native_name f +:+ "() { [native code] }")
  | _ => Ok (primitive_ToString v)
  end.

(** The strings [join] puts together. *)
Fixpoint element_strings (l : list JSValue) : outcome (list string) :=
  match l with
  | [] => Ok []
  | x :: r =>
      s ← match x with
          | JUndefined | JNull => Ok ""
          | _ => ToString x
          end;
      rest ← element_strings r;
      Ok (s :: rest)
  end.

(** [arr.join('')]. *)
Definition Array_join (l : list JSValue) : outcome string :=
  parts ← element_strings l;
  Ok (join "" parts).

(** A template literal with the substitutions [vs]: each is converted in
    turn; the text itself only goes to the console. *)
Fixpoint interpolate (vs : list JSValue) : outcome unit :=
  match vs with
  | [] => Ok tt
  | v :: rest => _ ← ToString v; interpolate rest
  end.

(** The numeric value of a string ([Number(s)]), a builtin taken as
    given. *)
Variable String_toNumber : string -> JSNumber.

(** ToNumber of a value that is no object. *)
Definition primitive_ToNumber (v : JSValue) : JSNumber :=
  match v with
  | JNull => num_of_Z 0
  | JBool true => num_of_Z 1
  | JBool false => num_of_Z 0
  | JNum n => n
  | JStr s => String_toNumber s
  | _ => NaN
  end.

(** ToNumber, applied by [Math.min] to its arguments.  An object is first
    made a primitive, [valueOf] before [toString]; the [valueOf] of an
    array or a function returns the object itself, so that its string
    decides. *)
Definition ToNumber (v : JSValue) : outcome JSNumber :=
  match v with
  | JArr _ | JNative _ =>
      s ← ToString v;
      Ok (String_toNumber s)
  | JObj props =>
      p ← ToPrimitive "valueOf" "toString" props;
      Ok (primitive_ToNumber p)
  | _ => Ok (primitive_ToNumber v)
  end.
End ToString.

End JS.

(* ===================================================================== *)
(** * JSON                                                                *)
(* ===================================================================== *)
Module JSON.
Import JS.

(** ** [JSON.parse]

    The builtin, written out as a recursive-descent reader of the JSON
    grammar.  [None] stands for the SyntaxError it throws.  A number
    literal denotes the double nearest to it, and two escaped surrogates
    in a row denote one character. *)

Definition is_ws (c : ascii) : bool :=
  let n := byte c in ((n =? 32) || (n =? 9) || (n =? 10) || (n =? 13))%N.

Fixpoint skip_ws (s : string) : string :=
  match s with
  | String c r => if is_ws c then skip_ws r else s
  | EmptyString => s
  end.

Definition hex_digit (c : ascii) : option N :=
  let n := byte c in
  if (48 <=? n)%N && (n <=? 57)%N then Some (n - 48)%N
  else if (97 <=? n)%N && (n <=? 102)%N then Some (n - 87)%N
  else if (65 <=? n)%N && (n <=? 70)%N then Some (n - 55)%N
  else None.

Definition chN (n : N) : ascii := ascii_of_N n.

(** The UTF-8 sequence of one UTF-16 code unit. *)
Definition utf8_of_unit (n : N) : string :=
  if (n <? 128)%N then String (chN n) ""
  else if (n <? 2048)%N then
    String (chN (192 + n / 64)) (String (chN (128 + n mod 64)) "")
  else
    String (chN (224 + n / 4096))
      (String (chN (128 + (n / 64) mod 64)) (String (chN (128 + n mod 64)) "")).

(** The UTF-8 sequence of a code point beyond the basic plane. *)
Definition utf8_of_astral (cp : N) : string :=
  String (chN (240 + cp / 262144))
    (String (chN (128 + (cp / 4096) mod 64))
       (String (chN (128 + (cp / 64) mod 64)) (String (chN (128 + cp mod 64)) ""))).

(** The code unit [n] put before the text [t]: a high surrogate joins the
    low surrogate that [t] starts with into one character. *)
Definition cons_unit (n : N) (t : string) : string :=
  if (55296 <=? n)%N && (n <? 56320)%N then
    match t with
    | String a (String b (String c r)) =>
        if (byte a =? 237)%N && (176 <=? byte b)%N && (byte b <? 192)%N &&
           (128 <=? byte c)%N && (byte c <? 192)%N
        then utf8_of_astral (65536 + (n - 55296) * 1024 +
                             ((byte b - 176) * 64 + (byte c - 128))) +:+ r
        else utf8_of_unit n +:+ t
    | _ => utf8_of_unit n +:+ t
    end
  else utf8_of_unit n +:+ t.

Definition unescape (e : ascii) : option ascii :=
  let n := byte e in
  if (n =? 34)%N || (n =? 92)%N || (n =? 47)%N then Some e
  else if (n =? 98)%N then Some (chN 8)
  else if (n =? 102)%N then Some (chN 12)
  else if (n =? 110)%N then Some (chN 10)
  else if (n =? 114)%N then Some (chN 13)
  else if (n =? 116)%N then Some (chN 9)
  else None.

(** The characters of a string literal, after its opening quote. *)
Fixpoint parse_chars (s : string) : option (string * string) :=
  match s with
  | EmptyString => None
  | String c r =>
      if (byte c =? 34)%N then Some ("", r)
      else if (byte c =? 92)%N then
        match r with
        | String e r1 =>
            if (byte e =? 117)%N then
              match r1 with
              | String a (String b (String c' (String d r2))) =>
                  match hex_digit a, hex_digit b, hex_digit c', hex_digit d with
                  | Some x, Some y, Some z, Some w =>
                      match parse_chars r2 with
                      | Some (t, rest) =>
                          Some (cons_unit (4096 * x + 256 * y + 16 * z + w)%N t,
                                rest)
                      | None => None
                      end
                  | _, _, _, _ => None
                  end
              | _ => None
              end
            else
              match unescape e with
              | Some u =>
                  match parse_chars r1 with
                  | Some (t, rest) => Some (String u t, rest)
                  | None => None
                  end
              | None => None
              end
        | EmptyString => None
        end
      else if (byte c <? 32)%N then None
      else
        match parse_chars r with
        | Some (t, rest) => Some (String c t, rest)
        | None => None
        end
  end.

(** A run of decimal digits: its value, its length, and what follows. *)
Fixpoint read_digits (acc : Z) (n : Z) (s : string) : Z * Z * string :=
  match s with
  | String c r =>
      match digit c with
      | Some d => read_digits (10 * acc + Z.of_N d) (n + 1) r
      | None => (acc, n, s)
      end
  | EmptyString => (acc, n, s)
  end.

(** [m * 10^e] as a rational. *)
Definition scale10 (m e : Z) : Q :=
  if (0 <=? e)%Z then inject_Z (m * 10 ^ e)
  else Qred (Qmake m (Z.to_pos (10 ^ (- e)))).

(** The integer nearest to [n / d], the even one of two equally near. *)
Definition round_half_even (n d : Z) : Z :=
  let q := (n / d)%Z in
  match (2 * (n mod d) ?= d)%Z with
  | Lt => q
  | Gt => (q + 1)%Z
  | Eq => if Z.even q then q else (q + 1)%Z
  end.

(** Whether [2^k <= n / d]. *)
Definition at_least_pow2 (n d k : Z) : bool :=
  if (0 <=? k)%Z then (d * 2 ^ k <=? n)%Z else (d <=? n * 2 ^ (- k))%Z.

(** The double nearest to a rational: 53 significant bits, exponents down
    to that of the subnormals, [Infinity] from 2^1024 on. *)
Definition double_of (q : Q) : JSNumber :=
  let n := Z.abs (Qnum q) in
  let d := Z.pos (Qden q) in
  if (n =? 0)%Z then Fin 0
  else
    let l := (Z.log2 n - Z.log2 d)%Z in
    let l := if at_least_pow2 n d l then l else (l - 1)%Z in
    let e := Z.max (l - 52) (-1074) in
    let m := if (0 <=? e)%Z then round_half_even n (d * 2 ^ e)
             else round_half_even (n * 2 ^ (- e)) d in
    if (971 <? e)%Z || ((e =? 971)%Z && (m =? 2 ^ 53)%Z) then
      if (Qnum q <? 0)%Z then NegInf else PosInf
    else
      let v := (Z.sgn (Qnum q) * m)%Z in
      if (0 <=? e)%Z then Fin (inject_Z (v * 2 ^ e))
      else Fin (Qred (Qmake v (Z.to_pos (2 ^ (- e))))).

Definition parse_int (s : string) : option (Z * string) :=
  match s with
  | String c r =>
      match digit c with
      | Some 0%N => Some (0%Z, r)
      | Some _ => let '(v, _, rest) := read_digits 0 0 s in Some (v, rest)
      | None => None
      end
  | EmptyString => None
  end.

Definition parse_frac (s : string) : option (Z * Z * string) :=
  match s with
  | String c r =>
      if (byte c =? 46)%N then
        let '(v, n, rest) := read_digits 0 0 r in
        if (n =? 0)%Z then None else Some (v, n, rest)
      else Some (0%Z, 0%Z, s)
  | EmptyString => Some (0%Z, 0%Z, s)
  end.

Definition parse_exp (s : string) : option (Z * string) :=
  match s with
  | String c r =>
      if (byte c =? 101)%N || (byte c =? 69)%N then
        let '(sg, r1) :=
          match r with
          | String d r' =>
              if (byte d =? 45)%N then ((-1)%Z, r')
              else if (byte d =? 43)%N then (1%Z, r')
              else (1%Z, r)
          | EmptyString => (1%Z, r)
          end in
        let '(v, n, rest) := read_digits 0 0 r1 in
        if (n =? 0)%Z then None else Some ((sg * v)%Z, rest)
      else Some (0%Z, s)
  | EmptyString => Some (0%Z, s)
  end.

Definition parse_number (s : string) : option (JSNumber * string) :=
  let '(sg, r0) :=
    match s with
    | String c r => if (byte c =? 45)%N then ((-1)%Z, r) else (1%Z, s)
    | EmptyString => (1%Z, s)
    end in
  match parse_int r0 with
  | Some (i, r1) =>
      match parse_frac r1 with
      | Some (f, n, r2) =>
          match parse_exp r2 with
          | Some (e, r3) =>
              Some (double_of (scale10 (sg * (i * 10 ^ n + f)) (e - n)), r3)
          | None => None
          end
      | None => None
      end
  | None => None
  end.

(** Defining a property: an existing key keeps its place, integer keys
    enumerate first in ascending order, other keys in insertion order. *)
Fixpoint replace_own (props : list (string * JSValue)) (k : string) (v : JSValue)
  : option (list (string * JSValue)) :=
  match props with
  | [] => None
  | (k', x) :: r =>
      if String.eqb k' k then Some ((k', v) :: r)
      else match replace_own r k v with
           | Some r' => Some ((k', x) :: r')
           | None => None
           end
  end.

Fixpoint insert_index (props : list (string * JSValue)) (i : N) (k : string)
    (v : JSValue) : list (string * JSValue) :=
  match props with
  | (k', x) :: r =>
      match index_of_key k' with
      | Some j => if (j <? i)%N then (k', x) :: insert_index r i k v
                  else (k, v) :: props
      | None => (k, v) :: props
      end
  | [] => [(k, v)]
  end.

Definition define (props : list (string * JSValue)) (k : string) (v : JSValue)
  : list (string * JSValue) :=
  match replace_own props k v with
  | Some p => p
  | None =>
      match index_of_key k with
      | Some i => insert_index props i k v
      | None => props ++ [(k, v)]
      end
  end.

Definition literal (word : string) (v : JSValue) (s : string)
  : option (JSValue * string) :=
  match strip_prefix word s with
  | Some r => Some (v, r)
  | None => None
  end.

Fixpoint parse_value (fuel : nat) (s : string) : option (JSValue * string) :=
  match fuel with
  | O => None
  | S f =>
      match skip_ws s with
      | EmptyString => None
      | String c r as s' =>
          if (byte c =? 123)%N then
            match skip_ws r with
            | String d r' =>
                if (byte d =? 125)%N then Some (JObj [], r')
                else parse_members f [] r
            | EmptyString => None
            end
          else if (byte c =? 91)%N then
            match skip_ws r with
            | String d r' =>
                if (byte d =? 93)%N then Some (JArr [], r')
                else parse_elements f [] r
            | EmptyString => None
            end
          else if (byte c =? 34)%N then
            match parse_chars r with
            | Some (t, rest) => Some (JStr t, rest)
            | None => None
            end
          else if (byte c =? 116)%N then literal "true" (JBool true) s'
          else if (byte c =? 102)%N then literal "false" (JBool false) s'
          else if (byte c =? 110)%N then literal "null" JNull s'
          else
            match parse_number s' with
            | Some (n, rest) => Some (JNum n, rest)
            | None => None
            end
      end
  end
with parse_elements (fuel : nat) (acc : list JSValue) (s : string)
  : option (JSValue * string) :=
  match fuel with
  | O => None
  | S f =>
      match parse_value f s with
      | Some (v, r) =>
          match skip_ws r with
          | String d r' =>
              if (byte d =? 44)%N then parse_elements f (acc ++ [v]) r'
              else if (byte d =? 93)%N then Some (JArr (acc ++ [v]), r')
              else None
          | EmptyString => None
          end
      | None => None
      end
  end
with parse_members (fuel : nat) (acc : list (string * JSValue)) (s : string)
  : option (JSValue * string) :=
  match fuel with
  | O => None
  | S f =>
      match skip_ws s with
      | String q r =>
          if (byte q =? 34)%N then
            match parse_chars r with
            | Some (k, r1) =>
                match skip_ws r1 with
                | String c r2 =>
                    if (byte c =? 58)%N then
                      match parse_value f r2 with
                      | Some (v, r3) =>
                          match skip_ws r3 with
                          | String d r4 =>
                              if (byte d =? 44)%N then parse_members f (define acc k v) r4
                              else if (byte d =? 125)%N then Some (JObj (define acc k v), r4)
                              else None
                          | EmptyString => None
                          end
                      | None => None
                      end
                    else None
                | EmptyString => None
                end
            | None => None
            end
          else None
      | EmptyString => None
      end
  end.

(** [JSON.parse(text)]: one value, then nothing but white space. *)
Definition parse (text : string) : option JSValue :=
  match parse_value (2 * String.length text + 2) text with
  | Some (v, rest) =>
      match skip_ws rest with
      | EmptyString => Some v
      | _ => None
      end
  | None => None
  end.

(** JSON text written with apostrophes in place of double quotes. *)
Fixpoint json (s : string) : string :=
  match s with
  | EmptyString => EmptyString
  | String c r => String (if (byte c =? 39)%N then chN 34 else c) (json r)
  end.

(** ** [JSON.stringify] *)

Definition hex_char (n : N) : ascii :=
  if (n <? 10)%N then chN (48 + n) else chN (87 + n).

Definition esc (s : string) : string := String (chN 92) s.
Definition dquote : string := String (chN 34) "".

Definition escape_char (c : ascii) : string :=
  let n := byte c in
  if (n =? 34)%N then esc dquote
  else if (n =? 92)%N then esc (esc "")
  else if (n =? 8)%N then esc "b"
  else if (n =? 12)%N then esc "f"
  else if (n =? 10)%N then esc "n"
  else if (n =? 13)%N then esc "r"
  else if (n =? 9)%N then esc "t"
  else if (n <? 32)%N then
    esc ("u00" +:+ String (hex_char (n / 16)) (String (hex_char (n mod 16)) ""))
  else String c "".

(** The four lower-case hexadecimal digits of a code unit. *)
Definition hex4 (n : N) : string :=
  String (hex_char (n / 4096))
    (String (hex_char ((n / 256) mod 16))
       (String (hex_char ((n / 16) mod 16)) (String (hex_char (n mod 16)) ""))).

Definition escape_unit (n : N) : string :=
  String (chN 92) (String "u"%char (hex4 n)).

(** The surrogate that the three bytes [a b c] stand for, if they do:
    one that is not part of a pair, a pair being one character of four
    bytes. *)
Definition lone_surrogate (a b c : ascii) : option N :=
  if (byte a =? 237)%N && (160 <=? byte b)%N && (byte b <? 192)%N &&
     (128 <=? byte c)%N && (byte c <? 192)%N
  then Some (53248 + (byte b - 128) * 64 + (byte c - 128))%N
  else None.

(** A lone surrogate is written as an escape, every other character as
    [escape_char] has it. *)
Fixpoint escape (s : string) : string :=
  match s with
  | EmptyString => ""
  | String a r =>
      match r with
      | String b (String c r') =>
          match lone_surrogate a b c with
          | Some n => escape_unit n +:+ escape r'
          | None => escape_char a +:+ escape r
          end
      | _ => escape_char a +:+ escape r
      end
  end.

(** QuoteJSONString. *)
Definition quote (s : string) : string := dquote +:+ escape s +:+ dquote.

Section Stringify.
Variable Number_toString : JSNumber -> string.

(** [None] is the [undefined] that [JSON.stringify] returns for a value
    with no JSON form; such members are left out of objects and become
    [null] in arrays. *)
Fixpoint stringify (v : JSValue) : option string :=
  match v with
  | JUndefined | JNative _ => None
  | JNull => Some "null"
  | JBool true => Some "true"
  | JBool false => Some "false"
  | JNum (Fin q) => Some (Number_toString (Fin q))
  | JNum _ => Some "null"
  | JStr s => Some (quote s)
  | JArr l =>
      Some ("[" +:+ join ","
               (map (fun x => match stringify x with
                              | Some t => t
                              | None => "null"
                              end) l) +:+ "]")
  | JObj props =>
      Some ("{" +:+ join ","
               ((fix members (ps : list (string * JSValue)) : list string :=
                   match ps with
                   | [] => []
                   | (k, x) :: r =>
                       match stringify x with
                       | Some t => (quote k +:+ ":" +:+ t) :: members r
                       | None => members r
                       end
                   end) props) +:+ "}")
  end.

(** The value of the expression [JSON.stringify(v)]. *)
Definition JSON_stringify (v : JSValue) : JSValue :=
  match stringify v with
  | Some t => JStr t
  | None => JUndefined
  end.
End Stringify.

End JSON.

(* ===================================================================== *)
(** * The chat client: [TerminalChatClient]                               *)
(* ===================================================================== *)
Module Client.
Import JS.

(** How the promise returned by [sendMCPRequest] settles: [resolve(result)]
    or [reject(error)], [message] being the [message] of that [Error]. *)
Inductive Settlement :=
  | Resolved (result : JSValue)
  | Rejected (message : JSValue).

(** The two closures stored in [pendingRequests]: both capture the timer
    handle [timeout] and the promise they settle. *)
Record Pending := { p_timeout : nat; p_promise : nat }.

(** An armed [setTimeout]: when it is due, and what its callback captured. *)
Record Timer := { t_due : Z; t_request : Z; t_promise : nat }.

Record Request := { r_id : Z; r_method : string; r_params : JSValue }.

(** What the client does, in the order it does it. *)
Inductive Effect :=
  | MapSet (id : Z)
  | MapDelete (id : Z)
  | SetTimeout (h : nat) (ms : Z)
  | ClearTimeout (h : nat)
  | Settle (p : nat) (s : Settlement)
  | Write (r : Request)
  | ProcessExit (code : Z).

Record State := {
  requestId : Z;                      (* private requestId = 0 *)
  pendingRequests : gmap Z Pending;   (* private pendingRequests = new Map() *)
  mcpProcess : bool;                  (* mcpProcess !== null *)
  timers : gmap nat Timer;            (* timeouts armed and not yet run *)
  settled : gmap nat Settlement;      (* promises already settled *)
  fresh : nat;                        (* next timer handle / promise *)
  now : Z;                            (* clock, in milliseconds *)
  exited : option Z;                  (* process.exit(code) was called *)
  log : list Effect
}.

Definition init : State :=
  {| requestId := 0; pendingRequests := ∅; mcpProcess := false; timers := ∅;
     settled := ∅; fresh := 0; now := 0; exited := None; log := [] |}.

Definition set_requestId (v : Z) (st : State) : State :=
  {| requestId := v; pendingRequests := pendingRequests st;
     mcpProcess := mcpProcess st; timers := timers st; settled := settled st;
     fresh := fresh st; now := now st; exited := exited st; log := log st |}.

Definition set_pending (m : gmap Z Pending) (e : Effect) (st : State) : State :=
  {| requestId := requestId st; pendingRequests := m;
     mcpProcess := mcpProcess st; timers := timers st; settled := settled st;
     fresh := fresh st; now := now st; exited := exited st;
     log := log st ++ [e] |}.

Definition set_timers (m : gmap nat Timer) (es : list Effect) (st : State) : State :=
  {| requestId := requestId st; pendingRequests := pendingRequests st;
     mcpProcess := mcpProcess st; timers := m; settled := settled st;
     fresh := fresh st; now := now st; exited := exited st;
     log := log st ++ es |}.

Definition set_settled (m : gmap nat Settlement) (e : Effect) (st : State) : State :=
  {| requestId := requestId st; pendingRequests := pendingRequests st;
     mcpProcess := mcpProcess st; timers := timers st; settled := m;
     fresh := fresh st; now := now st; exited := exited st;
     log := log st ++ [e] |}.

Definition set_fresh (n : nat) (st : State) : State :=
  {| requestId := requestId st; pendingRequests := pendingRequests st;
     mcpProcess := mcpProcess st; timers := timers st; settled := settled st;
     fresh := n; now := now st; exited := exited st; log := log st |}.

Definition set_now (t : Z) (st : State) : State :=
  {| requestId := requestId st; pendingRequests := pendingRequests st;
     mcpProcess := mcpProcess st; timers := timers st; settled := settled st;
     fresh := fresh st; now := t; exited := exited st; log := log st |}.

Definition set_mcpProcess (b : bool) (st : State) : State :=
  {| requestId := requestId st; pendingRequests := pendingRequests st;
     mcpProcess := b; timers := timers st; settled := settled st;
     fresh := fresh st; now := now st; exited := exited st; log := log st |}.

Definition emit (e : Effect) (st : State) : State :=
  set_timers (timers st) [e] st.

(** [process.exit(code)]: the client stops there. *)
Definition process_exit (code : Z) (st : State) : State :=
  {| requestId := requestId st; pendingRequests := pendingRequests st;
     mcpProcess := mcpProcess st; timers := timers st; settled := settled st;
     fresh := fresh st; now := now st; exited := Some code;
     log := log st ++ [ProcessExit code] |}.

(** ** [getNextId]

    [++this.requestId] on a double that holds an integer between 0 and
    2^53: the sum is exact below 2^53, and at 2^53 it rounds back to 2^53.
    The counter starts at 0 and moves only through this function. *)
Definition increment (n : Z) : Z := if (n <? 2 ^ 53)%Z then (n + 1)%Z else n.

Definition getNextId (st : State) : Z * State :=
  let n := increment (requestId st) in (n, set_requestId n st).

(** ** [sendMCPRequest] *)

Definition timeout_ms : Z := 20000.
Definition timeout_message : string := "MCP 응답 타임아웃".
Definition not_running_message : string := "MCP 프로세스가 실행되지 않았습니다".

(** Settling a promise takes effect once; later calls change nothing. *)
Definition settle (p : nat) (s : Settlement) (st : State) : State :=
  match settled st !! p with
  | Some _ => emit (Settle p s) st
  | None => set_settled (<[p := s]> (settled st)) (Settle p s) st
  end.

Definition clearTimeout (h : nat) (st : State) : State :=
  set_timers (delete h (timers st)) [ClearTimeout h] st.

(** The stored [resolve] and [reject] closures. *)
Definition resolve_cb (pd : Pending) (result : JSValue) (st : State) : State :=
  settle (p_promise pd) (Resolved result) (clearTimeout (p_timeout pd) st).

Definition reject_cb (pd : Pending) (message : JSValue) (st : State) : State :=
  settle (p_promise pd) (Rejected message) (clearTimeout (p_timeout pd) st).

(** Returns the promise handed to the caller.  Being an [async] function,
    the guard's [throw] comes out as a promise rejected on the spot. *)
Definition sendMCPRequest (request : Request) (st : State) : nat * State :=
  let p := fresh st in
  let st0 := set_fresh (S p) st in
  if negb (mcpProcess st) then
    (p, settle p (Rejected (JStr not_running_message)) st0)
  else
    let h := p in
    let t := {| t_due := (now st + timeout_ms)%Z; t_request := r_id request;
                t_promise := p |} in
    let st1 := set_timers (<[h := t]> (timers st0)) [SetTimeout h timeout_ms] st0 in
    let st2 := set_pending
                 (<[r_id request := {| p_timeout := h; p_promise := p |}]>
                    (pendingRequests st1))
                 (MapSet (r_id request)) st1 in
    (p, emit (Write request) st2).

(** The [setTimeout] callback of handle [h], run by the event loop once the
    timer is due. A cleared or already run timer never fires. *)
Definition fire_timeout (h : nat) (st : State) : State :=
  match timers st !! h with
  | Some t =>
      if (t_due t <=? now st)%Z then
        let st1 := set_timers (delete h (timers st)) [] st in
        let st2 := set_pending (delete (t_request t) (pendingRequests st1))
                     (MapDelete (t_request t)) st1 in
        settle (t_promise t) (Rejected (JStr timeout_message)) st2
      else st
  | None => st
  end.

(** ** [handleMCPResponse] *)

(** [this.pendingRequests.get(v)]: keys are the ids issued by [getNextId];
    a value finds one only if it is a number equal to it. *)
Definition key_of (v : JSValue) : option Z :=
  match v with
  | JNum (Fin q) =>
      if (Z.rem (Qnum q) (Z.pos (Qden q)) =? 0)%Z
      then Some (Qnum q / Z.pos (Qden q))%Z else None
  | _ => None
  end.

Definition Map_get (st : State) (v : JSValue) : option (Z * Pending) :=
  match key_of v with
  | Some i =>
      match pendingRequests st !! i with
      | Some pd => Some (i, pd)
      | None => None
      end
  | None => None
  end.

Definition SyntaxError : Exn := JSError "Unexpected token in JSON".

Fixpoint no_newline (s : string) : bool :=
  match s with
  | EmptyString => true
  | String c r => negb (Ascii.eqb c newline) && no_newline r
  end.

Definition nl : string := String newline "".

(** [this.pendingRequests.delete(id)]. *)
Definition discard (i : Z) (st : State) : State :=
  set_pending (delete i (pendingRequests st)) (MapDelete i) st.

(** What becomes of the state when the entry of id [i] is fulfilled with
    [s]: deleted from the map, its timer cleared, its promise settled. *)
Definition fulfil (i : Z) (pd : Pending) (s : Settlement) (st : State) : State :=
  settle (p_promise pd) s (clearTimeout (p_timeout pd) (discard i st)).

Section Stream.
(** The builtin [JSON.parse]; [None] when it throws. *)
Variable JSON_parse : string -> option JSValue.
Variable Number_toString : JSNumber -> string.

(** The [message] of [new Error(m)]: the argument made a string, the
    empty string when there is none.  The conversion can throw. *)
Definition Error_message (m : JSValue) : outcome string :=
  match m with
  | JUndefined => Ok ""
  | _ => ToString Number_toString m
  end.

(** How a response settles its request: [reject(new Error(error.message))]
    when [response.error] is truthy, [resolve(response.result)] otherwise;
    [None] when the statement throws instead, which it does when the
    message cannot be made a string. *)
Definition outcome_of (response : JSValue) : option Settlement :=
  match Get response "error" with
  | Ok error =>
      if truthy error then
        match Get error "message" with
        | Ok m =>
            match Error_message m with
            | Ok text => Some (Rejected (JStr text))
            | Throw _ => None
            end
        | Throw _ => None
        end
      else
        match Get response "result" with
        | Ok r => Some (Resolved r)
        | Throw _ => None
        end
  | Throw _ => None
  end.

(** The body of the [try] block for one line: the state it leaves, and
    the exception it ended with, if any. *)
Definition try_line (st : State) (line : string) : State * option Exn :=
  match JSON_parse line with
  | None => (st, Some SyntaxError)
  | Some response =>
      match Get response "id" with
      | Throw e => (st, Some e)
      | Ok id =>
          match Map_get st id with
          | None => (st, None)
          | Some (i, pending) =>
              let st1 := discard i st in
              match Get response "error" with
              | Throw e => (st1, Some e)
              | Ok error =>
                  if truthy error then
                    match Get error "message" with
                    | Throw e => (st1, Some e)
                    | Ok m =>
                        match Error_message m with
                        | Throw e => (st1, Some e)
                        | Ok text => (reject_cb pending (JStr text) st1, None)
                        end
                    end
                  else
                    match Get response "result" with
                    | Throw e => (st1, Some e)
                    | Ok r => (resolve_cb pending r st1, None)
                    end
              end
          end
      end
  end.

(** [try { ... } catch (parseError) { }]. *)
Definition handle_line (st : State) (line : string) : State :=
  fst (try_line st line).

Definition lines_of (data : string) : list string :=
  filter (fun line => truthy (JStr (trim line)) = true) (split newline data).

Definition handleMCPResponse (data : string) (st : State) : State :=
  foldl handle_line st (lines_of data).

(** ** The handlers wired in [initializeMCP] and the calls made through
    [callMCPTool], as events of one session *)

(** [mcpProcess.on('exit', code => ...)]; [None] is a [null] code. *)
Definition on_exit (code : option Z) (st : State) : State :=
  match code with
  | Some 0%Z => st
  | _ => process_exit 1 st
  end.

Inductive Event :=
  | Spawn
  | Call (method : string) (params : JSValue)
  | Data (chunk : string)
  | Timeout (h : nat)
  | Exit (code : option Z)
  | Elapse (ms : Z).

(** [{ jsonrpc, id: this.getNextId(), method, params }] then
    [sendMCPRequest]. *)
Definition call (method : string) (params : JSValue) (st : State)
  : Z * nat * State :=
  let (id, st1) := getNextId st in
  let (p, st2) :=
    sendMCPRequest {| r_id := id; r_method := method; r_params := params |} st1 in
  (id, p, st2).

Definition step (ev : Event) (st : State) : State :=
  match exited st with
  | Some _ => st
  | None =>
      match ev with
      | Spawn => set_mcpProcess true st
      | Call method params => snd (call method params st)
      | Data chunk => handleMCPResponse chunk st
      | Timeout h => fire_timeout h st
      | Exit code => on_exit code st
      | Elapse ms => set_now (now st + Z.max 0 ms)%Z st
      end
  end.

Definition run (evs : list Event) (st : State) : State :=
  foldl (fun s ev => step ev s) st evs.

(** The ids handed out by the [Call]s of a run, in order. *)
Fixpoint issued (evs : list Event) (st : State) : list Z :=
  match evs with
  | [] => []
  | ev :: rest =>
      match ev, exited st with
      | Call _ _, None => fst (getNextId st) :: issued rest (step ev st)
      | _, _ => issued rest (step ev st)
      end
  end.
End Stream.

(** Timer handles and promises go in pairs, an armed timer belongs to an
    unsettled promise, and every handle in use is below [fresh]. *)
Definition wf (st : State) : Prop :=
  (forall i pd, pendingRequests st !! i = Some pd ->
     p_promise pd = p_timeout pd /\ p_timeout pd < fresh st) /\
  (forall h t, timers st !! h = Some t ->
     t_promise t = h /\ settled st !! h = None /\ h < fresh st) /\
  (forall p s, settled st !! p = Some s -> p < fresh st).

(** The request of promise [p] is still waiting on its timer [t], or has
    been settled. *)
Definition tracked (p : nat) (t : Timer) (st : State) : Prop :=
  wf st /\ p < fresh st /\
  (timers st !! p = Some t \/ is_Some (settled st !! p)).

Definition is_call (ev : Event) : bool :=
  match ev with Call _ _ => true | _ => false end.

(** How many [Call]s a sequence of events holds. *)
Fixpoint calls (evs : list Event) : nat :=
  match evs with
  | [] => 0
  | ev :: rest => (if is_call ev then 1 else 0) + calls rest
  end.

End Client.

(* ===================================================================== *)
(** * The tool server: [NotionMCPServer]                                  *)
(* ===================================================================== *)
Module Server.
Import JS JSON.

(** A request to the content provider (the Notion SDK client). *)
Inductive ProviderCall :=
  | Search (params : JSValue)               (* this.notion.search(params) *)
  | BlocksChildrenList (params : JSValue).  (* this.notion.blocks.children.list(params) *)

(** An [async] computation of the server: it sees the provider requests
    made so far, adds its own, and ends with a value or a rejection. *)
Definition M (A : Type) : Type :=
  list ProviderCall -> outcome A * list ProviderCall.

#[global] Instance M_ret : MRet M := fun A a hist => (Ok a, hist).
#[global] Instance M_bind : MBind M := fun A B f m hist =>
  match m hist with
  | (Ok a, hist') => f a hist'
  | (Throw e, hist') => (Throw e, hist')
  end.

Definition lift {A} (o : outcome A) : M A := fun hist => (o, hist).

(** [try { m } catch (error) { return h error }]. *)
Definition catch {A} (m : M A) (h : Exn -> A) : M A := fun hist =>
  match m hist with
  | (Ok a, hist') => (Ok a, hist')
  | (Throw e, hist') => (Ok (h e), hist')
  end.

(** The result of [tools/call]; the record carries [isError: true] or no
    such field. *)
Record TextContent := { type_ : string; text : JSValue }.
Record CallToolResult := { content : list TextContent; isError : bool }.

Definition page_filter : JSValue :=
  JObj [("value", JStr "page"); ("property", JStr "object")].

Definition descending_by_edit : JSValue :=
  JObj [("direction", JStr "descending"); ("timestamp", JStr "last_edited_time")].

Definition hundred : JSValue := JNum (num_of_Z 100).

Section Handlers.
Variable Number_toString : JSNumber -> string.
Variable String_toNumber : string -> JSNumber.

(** The provider: what it answers to a request, given the earlier ones. *)
Variable provider : list ProviderCall -> ProviderCall -> outcome JSValue.

(** [results.sort((a, b) => new Date(b.created_time).getTime() - ...)]:
    the builtin sort under the date comparator, taken as given; the
    comparator throws where [new Date] cannot convert a [created_time]. *)
Variable sort_by_created_time : list JSValue -> outcome (list JSValue).

Definition await (c : ProviderCall) : M JSValue := fun hist =>
  (provider hist c, (hist ++ [c])%list).

(** [Math.min(limit, 100)]: both arguments are made numbers. *)
Definition page_size_of (limit : JSValue) : outcome JSValue :=
  n ← ToNumber Number_toString String_toNumber limit;
  h ← ToNumber Number_toString String_toNumber hundred;
  Ok (JNum (Math_min n h)).

(** The first statement of a handler: a line for the console, whose
    template converts each of the values [vs] to a string. *)
Definition console_error (vs : list JSValue) : M unit :=
  lift (interpolate Number_toString vs).

(** The requests the handlers send, [size] being the page size. *)
Definition search_request (query size : JSValue) : ProviderCall :=
  Search (JObj [("query", query); ("page_size", size);
                ("filter", page_filter)]).

Definition recent_request (size : JSValue) : ProviderCall :=
  Search (JObj [("filter", page_filter); ("sort", descending_by_edit);
                ("page_size", size)]).

Definition titles_request (query size : JSValue) : ProviderCall :=
  Search (JObj ([("filter", page_filter); ("page_size", size)] ++
                (if truthy query then [("query", query)] else []))%list).

Definition all_request (size : JSValue) : ProviderCall :=
  Search (JObj [("filter", page_filter); ("page_size", size);
                ("sort", descending_by_edit)]).

Definition content_request (pageId : JSValue) : ProviderCall :=
  BlocksChildrenList (JObj [("block_id", pageId); ("page_size", hundred)]).

Definition preview_request (pageId : JSValue) : ProviderCall :=
  BlocksChildrenList (JObj [("block_id", pageId);
                            ("page_size", JNum (num_of_Z 3))]).

(** ** Text extraction *)

(** The [for] loop of [extractTitle] over the property values. *)
Fixpoint title_loop (values : list JSValue) : outcome JSValue :=
  match values with
  | [] => Ok (JStr "Untitled")
  | value :: rest =>
      if truthy value && typeof_object value then
        has ← has_property "type" value;
        if (has : bool) then
          ty ← Get value "type";
          if is_str ty "title" then
            title ← Get value "title";
            match title with
            | JArr (first :: _) =>
                plain_text ← Get first "plain_text";
                Ok (or_else plain_text (JStr "Untitled"))
            | _ => title_loop rest
            end
          else title_loop rest
        else title_loop rest
      else title_loop rest
  end.

Definition extractTitle_try (page : JSValue) : outcome JSValue :=
  properties ← Get page "properties";
  if negb (truthy properties) then Ok (JStr "Untitled")
  else
    values ← Object_values properties;
    title_loop values.

Definition extractTitle (page : JSValue) : JSValue :=
  try_catch (extractTitle_try page) (fun _ => JStr "Untitled").

(** [arr.map((text: any) => text.plain_text || '')]. *)
Fixpoint plain_texts (l : list JSValue) : outcome (list JSValue) :=
  match l with
  | [] => Ok []
  | t :: rest =>
      plain_text ← Get t "plain_text";
      others ← plain_texts rest;
      Ok (or_else plain_text (JStr "") :: others)
  end.

Definition extractBlockText_try (block : JSValue) : outcome string :=
  if negb (truthy block) then Ok ""
  else
    blockType ← Get block "type";
    if negb (truthy blockType) then Ok ""
    else
      key ← ToString Number_toString blockType;
      blockData ← Get block key;
      if negb (truthy blockData) then Ok ""
      else
        rich_text ← Get blockData "rich_text";
        match rich_text with
        | JArr l =>
            parts ← plain_texts l;
            Array_join Number_toString parts
        | _ =>
            text ← Get blockData "text";
            match text with
            | JArr l =>
                parts ← plain_texts l;
                Array_join Number_toString parts
            | _ => Ok ""
            end
        end.

Definition extractBlockText (block : JSValue) : string :=
  try_catch (extractBlockText_try block) (fun _ => "").

(** ** Page content and preview *)

Definition nonblank (s : string) : bool := negb (String.eqb (trim s) "").

(** [s || fallback] on strings. *)
Definition str_or (s fallback : string) : string :=
  if String.eqb s "" then fallback else s.

Fixpoint content_loop (blocks : list JSValue) (content : string) : string :=
  match blocks with
  | [] => content
  | block :: rest =>
      let blockText := extractBlockText block in
      if nonblank blockText
      then content_loop rest (content +:+ blockText +:+ String newline "")
      else content_loop rest content
  end.

Definition getPageContent (pageId : JSValue) : M string :=
  catch
    (_ ← console_error [pageId];
     blocks ← await (content_request pageId);
     results ← lift (Get blocks "results");
     items ← lift (iterate results);
     mret (str_or (trim (content_loop items "")) "No content found"))
    (fun _ => "Error retrieving content").

Fixpoint preview_loop (blocks : list JSValue) (preview : string) : string :=
  match blocks with
  | [] => preview
  | block :: rest =>
      let blockText := extractBlockText block in
      if nonblank blockText then
        let preview' := preview +:+ blockText +:+ " " in
        if (200 <? utf16_length preview')%nat then preview'
        else preview_loop rest preview'
      else preview_loop rest preview
  end.

Definition getPagePreview (pageId : JSValue) : M string :=
  catch
    (blocks ← await (preview_request pageId);
     results ← lift (Get blocks "results");
     items ← lift (iterate results);
     mret (str_or (trim (preview_loop items "")) "No preview available"))
    (fun _ => "Preview unavailable").

(** ** The list-style tools *)

(** [item.object === 'page' && 'properties' in item]. *)
Definition is_page (item : JSValue) : outcome bool :=
  object ← Get item "object";
  if is_str object "page" then has_property "properties" item else Ok false.

Fixpoint search_loop (items results : list JSValue) : M (list JSValue) :=
  match items with
  | [] => mret results
  | item :: rest =>
      page ← lift (is_page item);
      if (page : bool) then
        let title := extractTitle item in
        id ← lift (Get item "id");
        content ← getPagePreview id;
        url ← lift (Get item "url");
        search_loop rest
          (results ++ [JObj [("id", id); ("title", title);
                             ("content", JStr content);
                             ("url", or_else url (JStr ""));
                             ("type", JStr "page")]])
      else search_loop rest results
  end.

Definition searchNotion (query limit : JSValue) : M (list JSValue) :=
  catch
    (_ ← console_error [query; limit];
     size ← lift (page_size_of limit);
     response ← await (search_request query size);
     results ← lift (Get response "results");
     found ← lift (Get results "length");
     _ ← console_error [found];
     items ← lift (iterate results);
     search_loop items [])
    (fun _ => []).

(** The entry pushed by [listRecentPages] and [listAllPages]. *)
Definition page_entry (item : JSValue) : outcome JSValue :=
  id ← Get item "id";
  created_time ← Get item "created_time";
  last_edited_time ← Get item "last_edited_time";
  url ← Get item "url";
  Ok (JObj [("id", id); ("title", extractTitle item);
            ("created_time", created_time);
            ("last_edited_time", last_edited_time);
            ("url", or_else url (JStr ""))]).

Fixpoint pages_loop (items results : list JSValue) : outcome (list JSValue) :=
  match items with
  | [] => Ok results
  | item :: rest =>
      page ← is_page item;
      if (page : bool) then
        entry ← page_entry item;
        pages_loop rest (results ++ [entry])
      else pages_loop rest results
  end.

Definition listRecentPages (limit sortBy : JSValue) : M (list JSValue) :=
  catch
    (_ ← console_error [limit; sortBy];
     size ← lift (page_size_of limit);
     response ← await (recent_request size);
     results ← lift (Get response "results");
     items ← lift (iterate results);
     pages ← lift (pages_loop items []);
     if is_str sortBy "created_time" then lift (sort_by_created_time pages)
     else mret pages)
    (fun _ => []).

(** [response.results.filter(...).map(...)]. *)
Fixpoint titles_filter (items : list JSValue) : outcome (list JSValue) :=
  match items with
  | [] => Ok []
  | item :: rest =>
      page ← is_page item;
      kept ← titles_filter rest;
      Ok (if (page : bool) then item :: kept else kept)
  end.

Fixpoint titles_map (items : list JSValue) : outcome (list JSValue) :=
  match items with
  | [] => Ok []
  | item :: rest =>
      id ← Get item "id";
      url ← Get item "url";
      others ← titles_map rest;
      Ok (JObj [("id", id); ("title", extractTitle item);
                ("url", or_else url (JStr ""))] :: others)
  end.

(** [limit: number = 10]: the default applies to [undefined] only. *)
Definition getPageTitlesOnly (query limit : JSValue) : M (list JSValue) :=
  let limit := match limit with JUndefined => JNum (num_of_Z 10) | _ => limit end in
  catch
    (_ ← console_error [or_else query (JStr "all"); limit];
     size ← lift (page_size_of limit);
     response ← await (titles_request query size);
     results ← lift (Get response "results");
     match results with
     | JArr items =>
         kept ← lift (titles_filter items);
         lift (titles_map kept)
     | _ => lift (Throw (JSError "response.results.filter is not a function"))
     end)
    (fun _ => []).

Definition listAllPages (limit : JSValue) : M (list JSValue) :=
  catch
    (_ ← console_error [limit];
     size ← lift (page_size_of limit);
     response ← await (all_request size);
     results ← lift (Get response "results");
     items ← lift (iterate results);
     lift (pages_loop items []))
    (fun _ => []).

(** The shape the four list-style handlers share inside their [try]: the
    log line, the page size, the request, and what follows it. *)
Definition guarded {A} (vs : list JSValue) (limit : JSValue)
    (req : JSValue -> ProviderCall) (k : JSValue -> M A) : M A :=
  _ ← console_error vs;
  size ← lift (page_size_of limit);
  response ← await (req size);
  k response.

(** ** The [tools/call] handler *)

Definition text_result (t : JSValue) : CallToolResult :=
  {| content := [ {| type_ := "text"; text := t |} ]; isError := false |}.

Definition ten : JSValue := JNum (num_of_Z 10).
Definition twenty : JSValue := JNum (num_of_Z 20).

(** The [switch (name)] inside the [try]. *)
Definition dispatch (name : string) (args : JSValue) : M CallToolResult :=
  if String.eqb name "search_notion" then
    query ← lift (Get args "query");
    l ← lift (Get args "limit");
    let limit := or_else l ten in
    results ← searchNotion query limit;
    mret (text_result (JSON_stringify Number_toString (JArr results)))
  else if String.eqb name "list_recent_pages" then
    l ← lift (Get args "limit");
    let limit := or_else l ten in
    s ← lift (Get args "sort");
    let sort := or_else s (JStr "last_edited_time") in
    results ← listRecentPages limit sort;
    mret (text_result (JSON_stringify Number_toString (JArr results)))
  else if String.eqb name "get_page_titles_only" then
    query ← lift (Get args "query");
    l ← lift (Get args "limit");
    let limit := or_else l ten in
    results ← getPageTitlesOnly query limit;
    mret (text_result (JSON_stringify Number_toString (JArr results)))
  else if String.eqb name "list_all_pages" then
    l ← lift (Get args "limit");
    let limit := or_else l twenty in
    results ← listAllPages limit;
    mret (text_result (JSON_stringify Number_toString (JArr results)))
  else if String.eqb name "get_page_content" then
    pageId ← lift (Get args "pageId");
    content ← getPageContent pageId;
    mret (text_result (JStr content))
  else
    lift (Throw (JSError ("Unknown tool: " +:+ name))).

(** [error instanceof Error ? error.message : 'Unknown error']. *)
Definition errorMessage (error : Exn) : string :=
  match error with
  | JSError message => message
  | JSThrown _ => "Unknown error"
  end.

Definition error_result (error : Exn) : CallToolResult :=
  {| content :=
       [ {| type_ := "text";
            text := JSON_stringify Number_toString
                      (JObj [("error", JStr (errorMessage error))]) |} ];
     isError := true |}.

(** The handler registered for [CallToolRequestSchema]; [name] and [args]
    are [request.params.name] and [request.params.arguments]. *)
Definition CallTool (name : string) (args : JSValue) : M CallToolResult :=
  catch (dispatch name args) error_result.

End Handlers.

(** A title property as [extractTitle] accepts it: an object whose [type]
    is ['title'] and whose [title] is a non-empty array, the first element
    of which carries a truthy [plain_text]. *)
Definition well_formed_title (value : JSValue) : bool :=
  match value with
  | JObj props =>
      match own props "type", own props "title" with
      | Some ty, Some (JArr (first :: _)) =>
          is_str ty "title" &&
          match Get first "plain_text" with
          | Ok t => truthy t
          | Throw _ => false
          end
      | _, _ => false
      end
  | _ => false
  end.

Definition has_title (page : JSValue) : bool :=
  match Get page "properties" with
  | Ok properties =>
      match Object_values properties with
      | Ok values => existsb well_formed_title values
      | Throw _ => false
      end
  | Throw _ => false
  end.

(** A computation that only adds requests to those already made. *)
Definition appends {A} (m : M A) : Prop :=
  forall hist, exists rest, snd (m hist) = (hist ++ rest)%list.

(** The [page_size] of a request. *)
Definition page_size (c : ProviderCall) : outcome JSValue :=
  match c with
  | Search params | BlocksChildrenList params => Get params "page_size"
  end.

(** The names of the switch cases. *)
Definition tool_names : list string :=
  [ "search_notion"; "list_recent_pages"; "get_page_titles_only";
    "list_all_pages"; "get_page_content" ].

End Server.

(* ===================================================================== *)
(** * The life of a request                                               *)
(* ===================================================================== *)
Module Lifecycle.
Import JS Client.

(** Every entry of the pending map has its own armed timer, set for the
    entry's id and promise, and that promise is still unsettled. *)
Definition entries_armed (st : State) : Prop :=
  forall i pd, pendingRequests st !! i = Some pd ->
    exists t, timers st !! p_timeout pd = Some t /\ t_request t = i /\
              t_promise t = p_promise pd /\
              settled st !! p_promise pd = None.

(** No armed timer is due later than 20 seconds from now. *)
Definition timers_due_soon (st : State) : Prop :=
  forall h t, timers st !! h = Some t -> (t_due t <= now st + timeout_ms)%Z.

Definition healthy (st : State) : Prop :=
  wf st /\ entries_armed st /\ timers_due_soon st.

(** An armed timer stands for no entry but its own: the entry under the
    id it was set for, if there is one, is the entry that holds it; and no
    id in use exceeds the counter. *)
Definition timers_owned (st : State) : Prop :=
  (forall h t pd, timers st !! h = Some t ->
     pendingRequests st !! t_request t = Some pd ->
     pd = {| p_timeout := h; p_promise := t_promise t |}) /\
  (forall h t, timers st !! h = Some t -> (t_request t <= requestId st)%Z) /\
  (forall i pd, pendingRequests st !! i = Some pd -> (i <= requestId st)%Z) /\
  (0 <= requestId st)%Z.

(** How many times the effects [es] call [resolve] or [reject] on the
    promise [p]. *)
Fixpoint settlements (p : nat) (es : list Effect) : nat :=
  match es with
  | [] => 0
  | Settle q _ :: rest => (if Nat.eqb q p then 1 else 0) + settlements p rest
  | _ :: rest => settlements p rest
  end.

(** The log settles a promise once if it is settled, and never
    otherwise. *)
Definition settled_once (st : State) : Prop :=
  forall p, settlements p (log st)
            = match settled st !! p with Some _ => 1 | None => 0 end.

(** The state after a line for the entry [pd] of id [i]: fulfilled with
    what the response carries, or only out of the map where the statement
    that settles it threw. *)
Definition handled (i : Z) (pd : Pending) (o : option Settlement) (st : State)
  : State :=
  match o with
  | Some s => fulfil i pd s st
  | None => discard i st
  end.

End Lifecycle.

(* ===================================================================== *)
(** * What the list handlers return, item by item                         *)
(* ===================================================================== *)
Module Listing.
Import JS JSON Server.

(** The item is neither [null] nor [undefined], so reading a property of
    it does not throw. *)
Definition readable (item : JSValue) : bool :=
  match item with JUndefined | JNull => false | _ => true end.

(** [item.object === 'page' && 'properties' in item], where it is false
    for an item on which it would throw. *)
Definition page_item (item : JSValue) : bool :=
  match is_page item with Ok b => b | Throw _ => false end.

(** The entries [listRecentPages] and [listAllPages] push, one for each
    page among the items. *)
Definition page_entries (items : list JSValue) : list JSValue :=
  flat_map (fun item =>
              if page_item item then
                match page_entry item with Ok entry => [entry] | Throw _ => [] end
              else []) items.

(** The records [getPageTitlesOnly] maps the pages to. *)
Definition title_record (item : JSValue) : JSValue :=
  match Get item "id", Get item "url" with
  | Ok id, Ok url =>
      JObj [("id", id); ("title", extractTitle item); ("url", or_else url (JStr ""))]
  | _, _ => JUndefined
  end.

(** The previews [searchNotion] asks for: one for each page, by its id. *)
Definition preview_requests (items : list JSValue) : list ProviderCall :=
  flat_map (fun item =>
              if page_item item then
                match Get item "id" with
                | Ok id => [preview_request id]
                | Throw _ => []
                end
              else []) items.

(** A property value [extractTitle] stops at: an object of type ['title']
    whose [title] is a non-empty array. *)
Definition title_candidate (value : JSValue) : bool :=
  match value with
  | JObj props =>
      match own props "type", own props "title" with
      | Some ty, Some (JArr (_ :: _)) => is_str ty "title"
      | _, _ => false
      end
  | _ => false
  end.

(** The title a candidate yields: the [plain_text] of the first element of
    its [title] if truthy, ['Untitled'] otherwise. *)
Definition candidate_title (value : JSValue) : JSValue :=
  match Get value "title" with
  | Ok (JArr (first :: _)) =>
      match Get first "plain_text" with
      | Ok t => or_else t (JStr "Untitled")
      | Throw _ => JStr "Untitled"
      end
  | _ => JStr "Untitled"
  end.

Fixpoint first_candidate (values : list JSValue) : option JSValue :=
  match values with
  | [] => None
  | v :: rest => if title_candidate v then Some v else first_candidate rest
  end.

(** The texts of the blocks that are not blank, each followed by [sep]. *)
Fixpoint joined_texts (sep : string) (texts : list string) : string :=
  match texts with
  | [] => ""
  | t :: rest =>
      if nonblank t then t +:+ sep +:+ joined_texts sep rest
      else joined_texts sep rest
  end.

(** The result object of the [tools/call] handler, as the object literal
    it returns. *)
Definition to_value (r : CallToolResult) : JSValue :=
  JObj ([("content",
          JArr (map (fun c => JObj [("type", JStr (type_ c)); ("text", text c)])
                    (content r)))] ++
        (if isError r then [("isError", JBool true)] else []))%list.

End Listing.

(* ===================================================================== *)
(** * The tool catalogue, on both sides                                   *)
(* ===================================================================== *)
Module Registry.
Import JS.

Definition num (z : Z) : JSValue := JNum (num_of_Z z).

(** The value the [ListToolsRequestSchema] handler returns. *)
Definition listTools : JSValue :=
  JObj [("tools", JArr [
    JObj [("name", JStr "search_notion");
          ("description", JStr "Search through Notion workspace using keywords");
          ("inputSchema", JObj [
             ("type", JStr "object");
             ("properties", JObj [
                ("query", JObj [("type", JStr "string");
                                ("description", JStr "Search query or keywords")]);
                ("limit", JObj [("type", JStr "number");
                                ("description", JStr "Number of results to return");
                                ("default", num 10)])]);
             ("required", JArr [JStr "query"])])];
    JObj [("name", JStr "list_recent_pages");
          ("description", JStr "List recently created or updated pages");
          ("inputSchema", JObj [
             ("type", JStr "object");
             ("properties", JObj [
                ("limit", JObj [("type", JStr "number");
                                ("description", JStr "Number of pages to return");
                                ("default", num 10)]);
                ("sort", JObj [("type", JStr "string");
                               ("enum", JArr [JStr "created_time"; JStr "last_edited_time"]);
                               ("description", JStr "Sort by created time or last edited time");
                               ("default", JStr "last_edited_time")])])])];
    JObj [("name", JStr "get_page_titles_only");
          ("description", JStr "Get only titles of pages (useful for listing)");
          ("inputSchema", JObj [
             ("type", JStr "object");
             ("properties", JObj [
                ("query", JObj [("type", JStr "string");
                                ("description", JStr "Optional search query to filter pages")]);
                ("limit", JObj [("type", JStr "number");
                                ("description", JStr "Number of titles to return");
                                ("default", num 10)])])])];
    JObj [("name", JStr "get_page_content");
          ("description", JStr "Get full content of a specific Notion page");
          ("inputSchema", JObj [
             ("type", JStr "object");
             ("properties", JObj [
                ("pageId", JObj [("type", JStr "string");
                                 ("description", JStr "Notion page ID")])]);
             ("required", JArr [JStr "pageId"])])];
    JObj [("name", JStr "list_all_pages");
          ("description", JStr "List all pages in the workspace");
          ("inputSchema", JObj [
             ("type", JStr "object");
             ("properties", JObj [
                ("limit", JObj [("type", JStr "number");
                                ("description", JStr "Number of pages to return");
                                ("default", num 20)])])])]])].

(** The [tools] array [processUserMessage] hands to the language model. *)
Definition client_tools : list JSValue :=
  [ JObj [("type", JStr "function");
          ("function", JObj [
             ("name", JStr "search_notion");
             ("description", JStr "Search through Notion workspace using keywords");
             ("parameters", JObj [
                ("type", JStr "object");
                ("properties", JObj [
                   ("query", JObj [("type", JStr "string");
                                   ("description", JStr "Search query or keywords")]);
                   ("limit", JObj [("type", JStr "number");
                                   ("description", JStr "Number of results to return");
                                   ("default", num 10)])]);
                ("required", JArr [JStr "query"])])])];
    JObj [("type", JStr "function");
          ("function", JObj [
             ("name", JStr "list_recent_pages");
             ("description", JStr "List recently created or updated pages");
             ("parameters", JObj [
                ("type", JStr "object");
                ("properties", JObj [
                   ("limit", JObj [("type", JStr "number");
                                   ("description", JStr "Number of pages to return");
                                   ("default", num 10)]);
                   ("sort", JObj [("type", JStr "string");
                                  ("enum", JArr [JStr "created_time"; JStr "last_edited_time"]);
                                  ("description", JStr "Sort by created time or last edited time");
                                  ("default", JStr "last_edited_time")])])])])];
    JObj [("type", JStr "function");
          ("function", JObj [
             ("name", JStr "get_page_titles_only");
             ("description", JStr "Get only titles of pages (useful for listing)");
             ("parameters", JObj [
                ("type", JStr "object");
                ("properties", JObj [
                   ("query", JObj [("type", JStr "string");
                                   ("description", JStr "Optional search query to filter pages")]);
                   ("limit", JObj [("type", JStr "number");
                                   ("description", JStr "Number of titles to return");
                                   ("default", num 10)])])])])];
    JObj [("type", JStr "function");
          ("function", JObj [
             ("name", JStr "list_all_pages");
             ("description", JStr "List all pages in the workspace");
             ("parameters", JObj [
                ("type", JStr "object");
                ("properties", JObj [
                   ("limit", JObj [("type", JStr "number");
                                   ("description", JStr "Number of pages to return");
                                   ("default", num 20)])])])])];
    JObj [("type", JStr "function");
          ("function", JObj [
             ("name", JStr "get_page_content");
             ("description", JStr "Get full content of a specific Notion page");
             ("parameters", JObj [
                ("type", JStr "object");
                ("properties", JObj [
                   ("pageId", JObj [("type", JStr "string");
                                    ("description", JStr "Notion page ID")])]);
                ("required", JArr [JStr "pageId"])])])] ].

(** The tools of a listing. *)
Definition tools_of (listing : JSValue) : list JSValue :=
  match Get listing "tools" with
  | Ok (JArr tools) => tools
  | _ => []
  end.

Definition field (k : string) (v : JSValue) : JSValue :=
  match Get v k with Ok x => x | Throw _ => JUndefined end.

Definition name_of (tool : JSValue) : string :=
  match field "name" tool with JStr s => s | _ => "" end.

(** Name, description and schema, as the server lists a tool and as the
    client advertises one. *)
Definition listed (tool : JSValue) : JSValue * JSValue * JSValue :=
  (field "name" tool, field "description" tool, field "inputSchema" tool).

Definition advertised (tool : JSValue) : JSValue * JSValue * JSValue :=
  let f := field "function" tool in
  (field "name" f, field "description" f, field "parameters" f).

(** [inputSchema.properties.<property>.default]; [undefined] when the tool
    declares no such property or no default for it. *)
Definition declared_default (property : string) (tool : JSValue) : JSValue :=
  field "default" (field property (field "properties" (field "inputSchema" tool))).

End Registry.

(* ===================================================================== *)
(** * What [callMCPTool] hands back                                       *)
(* ===================================================================== *)
Module ToolCall.
Import JS Client.

Section Decode.
Variable JSON_parse : string -> option JSValue.
Variable Number_toString : JSNumber -> string.

(** [content[0]]; on a string it is the first character. *)
Definition element0 (content : JSValue) : outcome JSValue :=
  match content with
  | JStr s =>
      Ok (match code_points s with c :: _ => JStr c | [] => JUndefined end)
  | _ => Get content "0"
  end.

(** The lines of [callMCPTool] after the [await]: the text of the first
    content item, parsed as JSON if it parses; the result itself when there
    is no such text. [JSON.parse] converts its argument to a string. *)
Definition decode (result : JSValue) : outcome JSValue :=
  content ← Get result "content";
  if truthy content then
    first ← element0 content;
    if truthy first then
      text ← Get first "text";
      if truthy text then
        match ToString Number_toString text with
        | Ok s =>
            match JSON_parse s with
            | Some v => Ok v
            | None => Ok text
            end
        | Throw _ => Ok text
        end
      else Ok result
    else Ok result
  else Ok result.

(** One turn of the loop over the tool calls in [processUserMessage]:
    an array is spread into [notionResults], any other truthy value without
    a truthy [error] is pushed, a rejection is only logged. *)
Definition collect (notionResults : list JSValue) (o : outcome JSValue)
  : list JSValue :=
  match o with
  | Throw _ => notionResults
  | Ok (JArr items) => (notionResults ++ items)%list
  | Ok result =>
      if truthy result then
        match Get result "error" with
        | Ok error =>
            if truthy error then notionResults
            else (notionResults ++ [result])%list
        | Throw _ => notionResults
        end
      else notionResults
  end.
End Decode.

End ToolCall.

(* ===================================================================== *)
(** * A tool call followed from the handler to the result list           *)
(* ===================================================================== *)
Module EndToEnd.
Import JS JSON Server Listing ToolCall.

Section Call.
(** The builtin [JSON.parse] of the client; [None] when it throws. *)
Variable JSON_parse : string -> option JSValue.
Variable Number_toString : JSNumber -> string.
Variable String_toNumber : string -> JSNumber.
Variable provider : list ProviderCall -> ProviderCall -> outcome JSValue.
Variable sort_by_created_time : list JSValue -> outcome (list JSValue).

(** What [callMCPTool] returns when the promise of its request resolves
    with the object the [tools/call] handler returned for [name] and
    [args], the provider having served [hist] so far. *)
Definition answered_with (name : string) (args : JSValue)
    (hist : list ProviderCall) : outcome JSValue :=
  match fst (CallTool Number_toString String_toNumber provider
               sort_by_created_time name args hist) with
  | Ok r => decode JSON_parse Number_toString (to_value r)
  | Throw e => Throw e
  end.

(** [notionResults] after the turn of the loop that makes this call. *)
Definition gathered_with (notionResults : list JSValue) (name : string)
    (args : JSValue) (hist : list ProviderCall) : list JSValue :=
  collect notionResults (answered_with name args hist).
End Call.

(** The same with [JSON.parse] as written out above. *)
Definition answered := answered_with JSON.parse.
Definition gathered := gathered_with JSON.parse.

End EndToEnd.

(* ===================================================================== *)
(** * Concrete sessions and inputs                                        *)
(* ===================================================================== *)
Module Scenario.
Import JS JSON Client Server.

(** Renders integers in decimal, as the builtin does below 10^21; enough
    for the inputs used here, which hold no other number. *)
Definition Number_toString_int (n : JSNumber) : string :=
  match n with
  | NaN => "NaN"
  | PosInf => "Infinity"
  | NegInf => "-Infinity"
  | Fin q => pretty (Qnum q / Z.pos (Qden q))%Z
  end.

(** No input used here converts a string to a number. *)
Definition String_toNumber_none (s : string) : JSNumber := NaN.

(** A client that has spawned the server and issued one request: id 1 is
    pending on promise 0, with timer 0 due at 20000. *)
Definition one_pending : State :=
  run JSON.parse Number_toString_int [Spawn; Call "tools/call" (JObj [])] init.

(** The response to request 1, and the same bytes cut after the 11th. *)
Definition record_1 : string := json "{'id':1,'result':{'ok':true}}".
Definition head_1 : string := json "{'id':1,'re".
Definition tail_1 : string := json "sult':{'ok':true}}".
Definition response_1 : JSValue :=
  JObj [("id", JNum (Fin 1)); ("result", JObj [("ok", JBool true)])].

Definition session : list Event :=
  [Spawn; Call "initialize" (JObj []); Data (record_1 +:+ nl);
   Call "tools/call" (JObj []); Elapse 5; Call "tools/call" (JObj [])].

(** A provider that rejects every request, and one that finds nothing. *)
Definition failing_provider (hist : list ProviderCall) (c : ProviderCall)
  : outcome JSValue := Throw (JSError "fetch failed").

Definition empty_provider (hist : list ProviderCall) (c : ProviderCall)
  : outcome JSValue := Ok (JObj [("results", JArr [])]).

Definition keep_order (l : list JSValue) : outcome (list JSValue) := Ok l.

(** A page whose title property has an empty [title] array, and a block
    whose rich text holds a [null]. *)
Definition untitled_page : JSValue :=
  JObj [("object", JStr "page");
        ("properties",
         JObj [("Name", JObj [("type", JStr "title"); ("title", JArr [])])])].

Definition broken_block : JSValue :=
  JObj [("type", JStr "paragraph");
        ("paragraph", JObj [("rich_text", JArr [JNull])])].

(** An object with an own [toString] member that is no function, which
    no conversion can make a string, and an error response to request 1
    with such a message. *)
Definition unprintable : JSValue := JObj [("toString", JNum (num_of_Z 1))].

Definition record_unprintable : string :=
  json "{'id':1,'error':{'message':{'toString':1}}}".

Definition zero_limit_args : JSValue :=
  JObj [("query", JStr "notes"); ("limit", JNum (num_of_Z 0))].

Definition no_limit_args : JSValue := JObj [("query", JStr "notes")].

(** The two pieces of [s] cut after [k] bytes. *)
Definition cut (k : nat) (s : string) : string * string :=
  (substring 0 k s, substring k (String.length s - k) s).

(** Request 1 is still in the map and its promise unsettled. *)
Definition still_waiting (st : State) : bool :=
  match pendingRequests st !! 1%Z, settled st !! 0 with
  | Some _, None => true
  | _, _ => false
  end.

(** A titled page, and a provider that finds it next to the untitled one. *)
Definition page_1 : JSValue :=
  JObj [("object", JStr "page"); ("id", JStr "p1"); ("url", JStr "https://n/p1");
        ("properties",
         JObj [("Name",
                JObj [("type", JStr "title");
                      ("title", JArr [JObj [("plain_text", JStr "Doc A")]])])])].

Definition titles_provider (hist : list ProviderCall) (c : ProviderCall)
  : outcome JSValue := Ok (JObj [("results", JArr [page_1; untitled_page])]).

End Scenario.

(* ===================================================================== *)
(** * Further sessions, pages and providers                               *)
(* ===================================================================== *)
Module Samples.
Import JS JSON Client Server Scenario.

(** Two requests in flight: ids 1 and 2, on promises 0 and 1. *)
Definition two_calls : list Event :=
  [Spawn; Call "tools/call" (JObj []); Call "tools/call" (JObj [])].

Definition two_pending : State := run JSON.parse Number_toString_int two_calls init.

(** An error response to request 2. *)
Definition record_2 : string := json "{'id':2,'error':{'message':'boom'}}".
Definition response_2 : JSValue :=
  JObj [("id", JNum (Fin 2)); ("error", JObj [("message", JStr "boom")])].

(** A page with two title properties, the first of which has no text. *)
Definition two_titles_page : JSValue :=
  JObj [("object", JStr "page");
        ("properties",
         JObj [("A", JObj [("type", JStr "title");
                           ("title", JArr [JObj [("plain_text", JStr "")]])]);
               ("B", JObj [("type", JStr "title");
                           ("title", JArr [JObj [("plain_text", JStr "Real")]])])])].

Definition paragraph (parts : list string) : JSValue :=
  JObj [("type", JStr "paragraph");
        ("paragraph",
         JObj [("rich_text",
                JArr (map (fun s => JObj [("plain_text", JStr s)]) parts))])].

Definition hello_block : JSValue := paragraph ["Hello, "; "world"].
Definition blank_block : JSValue := paragraph ["  "].
Definition second_block : JSValue := paragraph ["Second"].
Definition long_block : JSValue :=
  paragraph [string_of_list_ascii (repeat "a"%char 201)].
Definition null_block : JSValue := paragraph ["null"].

(** A provider that answers every request with three blocks, one with a
    single block that reads [null], and one whose results hold a [null]. *)
Definition blocks_provider (hist : list ProviderCall) (c : ProviderCall)
  : outcome JSValue :=
  Ok (JObj [("results", JArr [hello_block; blank_block; second_block])]).

Definition null_text_provider (hist : list ProviderCall) (c : ProviderCall)
  : outcome JSValue := Ok (JObj [("results", JArr [null_block])]).

Definition holed_provider (hist : list ProviderCall) (c : ProviderCall)
  : outcome JSValue := Ok (JObj [("results", JArr [page_1; JNull])]).

Definition page_args : JSValue := JObj [("pageId", JStr "p1")].

End Samples.

(* ===================================================================== *)
(** * Property reads that cannot fail                                     *)
(* ===================================================================== *)
Module JSFacts.
Import JS.

Lemma Get_again v k x k' : Get v k = Ok x -> exists y, Get v k' = Ok y.
Proof.
  destruct v; simpl; intros H; try discriminate; eauto.
  - destruct (String.eqb k' "length"); eauto.
  - destruct (String.eqb k' "length"); eauto. destruct (index_of_key k'); eauto.
  - destruct (own props k'); eauto.
Qed.

Lemma Get_truthy v k : truthy v = true -> exists y, Get v k = Ok y.
Proof.
  destruct v; simpl; intros H; try discriminate; eauto.
  - destruct (String.eqb k "length"); eauto.
  - destruct (String.eqb k "length"); eauto. destruct (index_of_key k); eauto.
  - destruct (own props k); eauto.
Qed.

End JSFacts.

(* ===================================================================== *)
(** * Properties of the chat client                                       *)
(* ===================================================================== *)
Module ClientSpec.
Import JS JSFacts Client.

Section Frames.
Variable JSON_parse : string -> option JSValue.
Variable Number_toString : JSNumber -> string.

(** One line leaves the state alone, or takes one pending entry out of
    the map and, unless the statement that settles it throws, fulfils it. *)
Lemma try_line_cases st line :
  try_line JSON_parse Number_toString st line = (st, None)
  \/ (exists e, try_line JSON_parse Number_toString st line = (st, Some e))
  \/ exists response id i pd,
       JSON_parse line = Some response /\ Get response "id" = Ok id /\
       key_of id = Some i /\ pendingRequests st !! i = Some pd /\
       match outcome_of Number_toString response with
       | Some s =>
           try_line JSON_parse Number_toString st line = (fulfil i pd s st, None)
       | None =>
           exists e,
             try_line JSON_parse Number_toString st line = (discard i st, Some e)
       end.
Proof.
  unfold try_line.
  destruct (JSON_parse line) as [response|] eqn:Hp; [|right; left; eauto].
  destruct (Get response "id") as [id|e] eqn:Hid; [|right; left; eauto].
  unfold Map_get.
  destruct (key_of id) as [i|] eqn:Hk; [|by left].
  destruct (pendingRequests st !! i) as [pd|] eqn:Hl; [|by left].
  right; right. exists response, id, i, pd. unfold outcome_of.
  split_and!; [done..|].
  destruct (Get response "error") as [err|e]; [|eauto].
  destruct (truthy err).
  - destruct (Get err "message") as [m|e]; [|eauto].
    destruct (Error_message Number_toString m); eauto.
  - destruct (Get response "result"); eauto.
Qed.

Lemma handle_line_cases st line :
  handle_line JSON_parse Number_toString st line = st
  \/ exists i pd, pendingRequests st !! i = Some pd /\
       (handle_line JSON_parse Number_toString st line = discard i st \/
        exists s, handle_line JSON_parse Number_toString st line = fulfil i pd s st).
Proof.
  unfold handle_line.
  destruct (try_line_cases st line) as [-> | [[e ->] | H]]; [by left ..|].
  destruct H as (r & ? & i & pd & _ & _ & _ & Hl & H). right. exists i, pd.
  split; [done|]. destruct (outcome_of Number_toString r) as [s|].
  - right. exists s. by rewrite H.
  - left. destruct H as [e ->]. done.
Qed.

(** A property of states kept when an entry leaves the map, and when one
    is fulfilled, is kept by a chunk. *)
Lemma handleMCPResponse_ind (P : State -> Prop) data st :
  (forall st i pd, P st -> pendingRequests st !! i = Some pd ->
                   P (discard i st)) ->
  (forall st i pd s, P st -> pendingRequests st !! i = Some pd ->
                     P (fulfil i pd s st)) ->
  P st -> P (handleMCPResponse JSON_parse Number_toString data st).
Proof.
  intros Hd Hf. unfold handleMCPResponse.
  generalize (lines_of data) as ls. intros ls. revert st.
  induction ls as [|l ls IH]; intros st HP; simpl; [done|].
  apply IH.
  destruct (handle_line_cases st l) as [-> | (i & pd & Hl & [-> | [s ->]])]; eauto.
Qed.

Lemma fulfil_frame i pd s st :
  requestId (fulfil i pd s st) = requestId st /\
  exited (fulfil i pd s st) = exited st /\
  fresh (fulfil i pd s st) = fresh st /\
  now (fulfil i pd s st) = now st /\
  mcpProcess (fulfil i pd s st) = mcpProcess st.
Proof. unfold fulfil, settle. by case_match. Qed.

Lemma settle_frame p s st :
  requestId (settle p s st) = requestId st /\
  exited (settle p s st) = exited st /\
  fresh (settle p s st) = fresh st /\
  now (settle p s st) = now st /\
  mcpProcess (settle p s st) = mcpProcess st /\
  pendingRequests (settle p s st) = pendingRequests st /\
  timers (settle p s st) = timers st.
Proof. unfold settle. by case_match. Qed.

Lemma handleMCPResponse_requestId data st :
  requestId (handleMCPResponse JSON_parse Number_toString data st) = requestId st.
Proof.
  apply (handleMCPResponse_ind (fun s => requestId s = requestId st)); [done| |done].
  intros s i pd x H _. by rewrite (proj1 (fulfil_frame i pd x s)).
Qed.

Lemma fire_timeout_requestId h st : requestId (fire_timeout h st) = requestId st.
Proof.
  unfold fire_timeout. repeat case_match; try done.
  by rewrite (proj1 (settle_frame _ _ _)).
Qed.

Lemma sendMCPRequest_requestId r st :
  requestId (snd (sendMCPRequest r st)) = requestId st.
Proof.
  unfold sendMCPRequest. case_match; simpl; [|done].
  by rewrite (proj1 (settle_frame _ _ _)).
Qed.

(** Only a [Call] moves the counter, and it moves it by [increment]. *)
Lemma step_requestId ev st :
  requestId (step JSON_parse Number_toString ev st) =
  if is_call ev && bool_decide (exited st = None)
  then increment (requestId st) else requestId st.
Proof.
  unfold step. destruct (exited st) eqn:He.
  { rewrite bool_decide_eq_false_2; [|done]. by rewrite andb_false_r. }
  rewrite bool_decide_eq_true_2; [|done]. rewrite andb_true_r.
  destruct ev; simpl; try done.
  - unfold call. simpl. destruct (sendMCPRequest _ _) as [p st2] eqn:Hs. simpl.
    change st2 with (snd (p, st2)). rewrite <- Hs.
    by rewrite sendMCPRequest_requestId.
  - apply handleMCPResponse_requestId.
  - apply fire_timeout_requestId.
  - unfold on_exit. by repeat case_match.
Qed.

Lemma issued_cons ev rest st :
  issued JSON_parse Number_toString (ev :: rest) st =
  if is_call ev && bool_decide (exited st = None)
  then increment (requestId st) :: issued JSON_parse Number_toString rest (step JSON_parse Number_toString ev st)
  else issued JSON_parse Number_toString rest (step JSON_parse Number_toString ev st).
Proof.
  simpl. destruct ev; simpl; by destruct (exited st).
Qed.

Lemma run_cons ev rest st :
  run JSON_parse Number_toString (ev :: rest) st = run JSON_parse Number_toString rest (step JSON_parse Number_toString ev st).
Proof. done. Qed.

Lemma increment_exact n : (n < 2 ^ 53)%Z -> increment n = (n + 1)%Z.
Proof. intros H. unfold increment. destruct (Z.ltb_spec n (2 ^ 53)); lia. Qed.

(** The ids of a run lie above the counter it starts from, in increasing
    order, and the counter ends at or above the last of them. *)
Lemma issued_bounds evs : forall st,
  (0 <= requestId st)%Z ->
  (requestId st + Z.of_nat (calls evs) <= 2 ^ 53)%Z ->
  StronglySorted Z.lt (issued JSON_parse Number_toString evs st) /\
  Forall (fun i => (requestId st < i <= requestId (run JSON_parse Number_toString evs st))%Z)
         (issued JSON_parse Number_toString evs st) /\
  (requestId st <= requestId (run JSON_parse Number_toString evs st))%Z.
Proof.
  induction evs as [|ev rest IH]; intros st H0 Hb.
  { simpl. split_and!; [constructor | constructor | unfold run; simpl; lia]. }
  rewrite issued_cons, run_cons. simpl in Hb.
  pose proof (step_requestId ev st) as Hs.
  destruct (is_call ev && bool_decide (exited st = None)) eqn:Hc.
  - apply andb_true_iff in Hc as [Hc _]. rewrite Hc in Hb.
    rewrite increment_exact in * by lia.
    destruct (IH (step JSON_parse Number_toString ev st)) as (Hsort & Hall & Hle); [lia | lia |].
    rewrite Hs in Hall, Hle. split_and!.
    + constructor; [done|]. eapply Forall_impl; [exact Hall|]. simpl. lia.
    + constructor; [lia|]. eapply Forall_impl; [exact Hall|]. simpl. lia.
    + lia.
  - destruct (IH (step JSON_parse Number_toString ev st)) as (Hsort & Hall & Hle); [lia | |].
    { rewrite Hs. destruct (is_call ev); lia. }
    rewrite Hs in Hall, Hle. done.
Qed.

Lemma sorted_NoDup (l : list Z) : StronglySorted Z.lt l -> NoDup l.
Proof.
  induction 1 as [|x l Hs IH Hall]; constructor; [|done].
  intros Hin. rewrite Forall_forall in Hall. specialize (Hall x Hin). lia.
Qed.
End Frames.

(** C3. Within a session the ids handed out by [getNextId] are pairwise
    distinct, strictly increasing in issuance order and positive, whatever
    other events are interleaved with the calls; each lies above the value
    the counter had before the run and at or below its value after it, so
    no id is handed out again and the counter is never reset.  The bound is
    the range in which a JavaScript number counts exactly (2^53 ids). *)
Theorem ids_distinct_increasing
    (JSON_parse : string -> option JSValue)
    (Number_toString : JSNumber -> string) (evs : list Event) (st : State) :
  (0 <= requestId st)%Z ->
  (requestId st + Z.of_nat (calls evs) <= 2 ^ 53)%Z ->
  NoDup (issued JSON_parse Number_toString evs st) /\
  StronglySorted Z.lt (issued JSON_parse Number_toString evs st) /\
  Forall (fun i => (0 < i)%Z) (issued JSON_parse Number_toString evs st) /\
  Forall (fun i => (requestId st < i <= requestId (run JSON_parse Number_toString evs st))%Z)
         (issued JSON_parse Number_toString evs st).
Proof.
  intros H0 Hb.
  destruct (issued_bounds JSON_parse Number_toString evs st H0 Hb) as (Hsort & Hall & _).
  split_and!; [by apply sorted_NoDup | done | | done].
  eapply Forall_impl; [exact Hall|]. simpl. lia.
Qed.


(** ** Lines of a chunk *)

Lemma split_no_newline s : no_newline s = true -> split newline s = [s].
Proof.
  induction s as [|c s IH]; simpl; intros H; [done|].
  apply andb_true_iff in H as [Hc Hs].
  destruct (Ascii.eqb c newline); [done|]. by rewrite IH.
Qed.

Lemma split_app_nl s :
  no_newline s = true -> split newline (s +:+ nl) = [s; ""].
Proof.
  induction s as [|c s IH]; intros H; [done|].
  simpl in H. apply andb_true_iff in H as [Hc Hs].
  change (String c s +:+ nl) with (String c (s +:+ nl)).
  cbn [split].
  destruct (Ascii.eqb c newline); [done|]. by rewrite IH.
Qed.

Lemma keep_line_iff s :
  truthy (JStr (trim s)) = true <-> trim s <> "".
Proof.
  unfold truthy. rewrite negb_true_iff. split.
  - intros H E. rewrite E in H. discriminate.
  - intros H. by apply String.eqb_neq.
Qed.

Lemma lines_of_whole s :
  no_newline s = true -> trim s <> "" -> lines_of (s +:+ nl) = [s].
Proof.
  intros Hn Ht. unfold lines_of. rewrite split_app_nl by done.
  rewrite filter_cons_True by by apply keep_line_iff.
  by rewrite filter_cons_False.
Qed.

Lemma lines_of_fragment s :
  no_newline s = true -> lines_of s = [s] \/ lines_of s = [].
Proof.
  intros Hn. unfold lines_of. rewrite split_no_newline by done.
  rewrite filter_cons. case_decide; auto.
Qed.

Lemma lines_of_fragment_nl s :
  no_newline s = true -> lines_of (s +:+ nl) = [s] \/ lines_of (s +:+ nl) = [].
Proof.
  intros Hn. unfold lines_of. rewrite split_app_nl by done.
  rewrite filter_cons. rewrite filter_cons_False by done.
  case_decide; auto.
Qed.

Lemma handle_line_unparsed JSON_parse Number_toString st line :
  JSON_parse line = None -> handle_line JSON_parse Number_toString st line = st.
Proof. intros H. unfold handle_line, try_line. by rewrite H. Qed.

Lemma handle_line_fulfils JSON_parse Number_toString st line response id i pd s :
  JSON_parse line = Some response -> Get response "id" = Ok id ->
  key_of id = Some i -> pendingRequests st !! i = Some pd ->
  outcome_of Number_toString response = Some s ->
  try_line JSON_parse Number_toString st line = (fulfil i pd s st, None).
Proof.
  intros Hp Hid Hk Hl Ho.
  unfold try_line, Map_get. rewrite Hp, Hid, Hk, Hl.
  unfold outcome_of in Ho.
  destruct (Get response "error") as [err|]; [|done].
  destruct (truthy err).
  - destruct (Get err "message") as [m|]; [|done].
    destruct (Error_message Number_toString m); by simplify_eq.
  - destruct (Get response "result"); by simplify_eq.
Qed.

(** Where the statement that settles the entry throws, the entry has left
    the map and nothing else has happened. *)
Lemma handle_line_throws JSON_parse Number_toString st line response id i pd :
  JSON_parse line = Some response -> Get response "id" = Ok id ->
  key_of id = Some i -> pendingRequests st !! i = Some pd ->
  outcome_of Number_toString response = None ->
  exists e, try_line JSON_parse Number_toString st line = (discard i st, Some e).
Proof.
  intros Hp Hid Hk Hl Ho.
  unfold try_line, Map_get. rewrite Hp, Hid, Hk, Hl.
  unfold outcome_of in Ho.
  destruct (Get response "error") as [err|]; [|eauto].
  destruct (truthy err).
  - destruct (Get err "message") as [m|]; [|eauto].
    destruct (Error_message Number_toString m); [done | eauto].
  - destruct (Get response "result"); [done | eauto].
Qed.

Lemma fulfil_pending i pd s st :
  pendingRequests (fulfil i pd s st) = delete i (pendingRequests st).
Proof. unfold fulfil, settle. by case_match. Qed.

Lemma fulfil_timers i pd s st :
  timers (fulfil i pd s st) = delete (p_timeout pd) (timers st).
Proof. unfold fulfil, settle. by case_match. Qed.

Lemma fulfil_settled i pd s st :
  settled st !! p_promise pd = None ->
  settled (fulfil i pd s st) = <[p_promise pd := s]> (settled st).
Proof. intros H. unfold fulfil, settle. simpl. by rewrite H. Qed.

Lemma fulfil_log i pd s st :
  log (fulfil i pd s st) =
  (log st ++ [MapDelete i; ClearTimeout (p_timeout pd); Settle (p_promise pd) s])%list.
Proof.
  unfold fulfil, settle. case_match; simpl; by rewrite <- !app_assoc.
Qed.

(** A line that does not carry the id of a pending entry changes nothing,
    whether it fails to parse, has no readable id, or names an id that is
    not in the map. *)
Lemma handle_line_discards JSON_parse Number_toString st line :
  (forall response id, JSON_parse line = Some response ->
     Get response "id" = Ok id -> Map_get st id = None) ->
  handle_line JSON_parse Number_toString st line = st.
Proof.
  intros H. unfold handle_line.
  destruct (try_line_cases JSON_parse Number_toString st line) as [-> | [[e ->] | Hc]]; [done..|].
  destruct Hc as (r & id & i & pd & Hp & Hid & Hk & Hl & _).
  specialize (H r id Hp Hid). unfold Map_get in H. by rewrite Hk, Hl in H.
Qed.

(** C4. When a line carries the id of a pending entry, the entry leaves
    the map first; then its timer is cleared and its promise settled,
    unless the error message of the response cannot be made a string, in
    which case the exception ends the [try] block there.  Either way, from
    then on a line with the same id, like any line whose id has no entry,
    runs to the end of the [try] block without an exception and leaves the
    whole client state as it was. *)
Theorem fulfilled_once_then_discarded
    (JSON_parse : string -> option JSValue)
    (Number_toString : JSNumber -> string) (st : State) (line : string)
    (response id : JSValue) (i : Z) (pd : Pending) :
  JSON_parse line = Some response ->
  Get response "id" = Ok id ->
  key_of id = Some i ->
  pendingRequests st !! i = Some pd ->
  exists st' thrown,
    try_line JSON_parse Number_toString st line = (st', thrown) /\
    pendingRequests st' = delete i (pendingRequests st) /\
    match outcome_of Number_toString response with
    | Some s =>
        thrown = None /\
        log st' = (log st ++ [MapDelete i; ClearTimeout (p_timeout pd);
                              Settle (p_promise pd) s])%list
    | None =>
        is_Some thrown /\
        log st' = (log st ++ [MapDelete i])%list /\
        timers st' = timers st /\ settled st' = settled st
    end /\
    (forall line2 response2 id2,
       JSON_parse line2 = Some response2 -> Get response2 "id" = Ok id2 ->
       key_of id2 = Some i ->
       try_line JSON_parse Number_toString st' line2 = (st', None)) /\
    (forall st2 line2 response2 id2,
       JSON_parse line2 = Some response2 -> Get response2 "id" = Ok id2 ->
       Map_get st2 id2 = None ->
       try_line JSON_parse Number_toString st2 line2 = (st2, None)) /\
    (forall st2 line2,
       (forall response2 id2, JSON_parse line2 = Some response2 ->
          Get response2 "id" = Ok id2 -> Map_get st2 id2 = None) ->
       handle_line JSON_parse Number_toString st2 line2 = st2).
Proof.
  intros Hp Hid Hk Hl.
  assert (Hunknown : forall st2 line2 response2 id2,
    JSON_parse line2 = Some response2 -> Get response2 "id" = Ok id2 ->
    Map_get st2 id2 = None ->
    try_line JSON_parse Number_toString st2 line2 = (st2, None)).
  { intros st2 line2 r2 id2 H1 H2 H3. unfold try_line. by rewrite H1, H2, H3. }
  assert (Hgone : forall st', pendingRequests st' = delete i (pendingRequests st) ->
    forall line2 response2 id2,
      JSON_parse line2 = Some response2 -> Get response2 "id" = Ok id2 ->
      key_of id2 = Some i ->
      try_line JSON_parse Number_toString st' line2 = (st', None)).
  { intros st' E line2 r2 id2 H1 H2 H3. apply (Hunknown _ _ r2 id2); [done..|].
    unfold Map_get. rewrite H3, E. by rewrite lookup_delete_eq. }
  destruct (outcome_of Number_toString response) as [s|] eqn:Ho.
  - exists (fulfil i pd s st), None.
    pose proof (handle_line_fulfils JSON_parse Number_toString st line
                  _ _ _ _ _ Hp Hid Hk Hl Ho) as Ht.
    split_and!; [done | apply fulfil_pending | done | apply fulfil_log | | done |].
    + apply Hgone, fulfil_pending.
    + intros st2 line2. apply handle_line_discards.
  - destruct (handle_line_throws JSON_parse Number_toString st line
                _ _ _ _ Hp Hid Hk Hl Ho) as [e Ht].
    exists (discard i st), (Some e).
    split_and!; [done | done | by eexists | done | done | done | | done |].
    + by apply Hgone.
    + intros st2 line2. apply handle_line_discards.
Qed.

(** C1, as the code has it. [handleMCPResponse] keeps nothing from one
    chunk to the next: each chunk is split on line breaks and every
    non-blank piece is parsed on its own.  A record that arrives whole in
    one chunk fulfils exactly the entry of its id (or, where its error
    message cannot be made a string, only takes that entry out of the
    map).  A record cut in two, so that neither piece parses, is dropped:
    after both chunks the client state is what it was, with no entry
    fulfilled. *)
Theorem chunks_parsed_independently
    (JSON_parse : string -> option JSValue)
    (Number_toString : JSNumber -> string) (st : State) :
  (forall record response id i pd,
     no_newline record = true -> trim record <> "" ->
     JSON_parse record = Some response -> Get response "id" = Ok id ->
     key_of id = Some i -> pendingRequests st !! i = Some pd ->
     (forall s, outcome_of Number_toString response = Some s ->
        handleMCPResponse JSON_parse Number_toString (record +:+ nl) st
          = fulfil i pd s st /\
        pendingRequests (fulfil i pd s st) = delete i (pendingRequests st) /\
        (settled st !! p_promise pd = None ->
         settled (fulfil i pd s st) = <[p_promise pd := s]> (settled st))) /\
     (outcome_of Number_toString response = None ->
        handleMCPResponse JSON_parse Number_toString (record +:+ nl) st
          = discard i st)) /\
  (forall a b,
     no_newline a = true -> no_newline b = true ->
     JSON_parse a = None -> JSON_parse b = None ->
     handleMCPResponse JSON_parse Number_toString (b +:+ nl)
       (handleMCPResponse JSON_parse Number_toString a st) = st).
Proof.
  split.
  - intros record response id i pd Hn Ht Hp Hid Hk Hl. split.
    + intros s Ho. split_and!.
      * unfold handleMCPResponse. rewrite lines_of_whole by done. simpl.
        unfold handle_line. by erewrite handle_line_fulfils.
      * apply fulfil_pending.
      * apply fulfil_settled.
    + intros Ho. unfold handleMCPResponse. rewrite lines_of_whole by done. simpl.
      unfold handle_line.
      destruct (handle_line_throws JSON_parse Number_toString st record
                  _ _ _ _ Hp Hid Hk Hl Ho) as [e ->]. done.
  - intros a b Ha Hb Hpa Hpb.
    assert (E1 : handleMCPResponse JSON_parse Number_toString a st = st).
    { unfold handleMCPResponse.
      destruct (lines_of_fragment a Ha) as [-> | ->]; simpl; [|done].
      by apply handle_line_unparsed. }
    rewrite E1. unfold handleMCPResponse.
    destruct (lines_of_fragment_nl b Hb) as [-> | ->]; simpl; [|done].
    by apply handle_line_unparsed.
Qed.

(** C2, as the code has it. The exit handler rejects nothing: whatever the
    exit code, the pending map, the timers and the promises are as they
    were.  With exit code 0 the handler does nothing at all: the state is
    the same, and every later event is handled as if the server had not
    exited; with any other code, or none, the client itself exits with
    status 1 and handles no further event. *)
Theorem exit_rejects_no_entry
    (JSON_parse : string -> option JSValue)
    (Number_toString : JSNumber -> string) (code : option Z) (st : State) :
  exited st = None ->
  pendingRequests (step JSON_parse Number_toString (Exit code) st) = pendingRequests st /\
  settled (step JSON_parse Number_toString (Exit code) st) = settled st /\
  timers (step JSON_parse Number_toString (Exit code) st) = timers st /\
  (code = Some 0%Z ->
     step JSON_parse Number_toString (Exit code) st = st /\
     forall evs, run JSON_parse Number_toString (Exit code :: evs) st
                 = run JSON_parse Number_toString evs st) /\
  (code <> Some 0%Z ->
     exited (step JSON_parse Number_toString (Exit code) st) = Some 1%Z /\
     forall ev, step JSON_parse Number_toString ev
                  (step JSON_parse Number_toString (Exit code) st)
                = step JSON_parse Number_toString (Exit code) st).
Proof.
  intros He.
  assert (H0 : step JSON_parse Number_toString (Exit (Some 0%Z)) st = st).
  { unfold step. by rewrite He. }
  split_and!.
  - unfold step. rewrite He. unfold on_exit. by destruct code as [[| |]|].
  - unfold step. rewrite He. unfold on_exit. by destruct code as [[| |]|].
  - unfold step. rewrite He. unfold on_exit. by destruct code as [[| |]|].
  - intros ->. split; [exact H0|]. intros evs. rewrite run_cons. by rewrite H0.
  - intros Hc.
    assert (E : step JSON_parse Number_toString (Exit code) st = process_exit 1 st).
    { unfold step. rewrite He. unfold on_exit. by destruct code as [[| |]|]. }
    rewrite E. split; [done|]. intros ev. unfold step. done.
Qed.

(** ** Timers *)

Lemma wf_init : wf init.
Proof. unfold wf, init. simpl. split_and!; intros; simplify_map_eq. Qed.

Lemma fulfil_settled_cases i pd s st :
  settled (fulfil i pd s st) =
  match settled st !! p_promise pd with
  | Some _ => settled st
  | None => <[p_promise pd := s]> (settled st)
  end.
Proof. unfold fulfil, settle. simpl. by case_match. Qed.

Lemma fulfil_fresh i pd s st : fresh (fulfil i pd s st) = fresh st.
Proof. apply fulfil_frame. Qed.

Lemma fulfil_wf i pd s st :
  pendingRequests st !! i = Some pd -> wf st -> wf (fulfil i pd s st).
Proof.
  intros Hl (Hp & Ht & Hs). destruct (Hp i pd Hl) as [Epd Hfr].
  unfold wf.
  rewrite fulfil_pending, fulfil_timers, fulfil_settled_cases, fulfil_fresh.
  rewrite Epd. split_and!.
  - intros j pd' H. apply lookup_delete_Some in H as [_ H]. eauto.
  - intros h t' H. apply lookup_delete_Some in H as [Hne H].
    destruct (Ht h t' H) as (? & ? & ?). split_and!; [done| |done].
    case_match; [done|]. by rewrite lookup_insert_ne.
  - intros q s' H. case_match; [eauto|].
    destruct (decide (q = p_timeout pd)) as [->|Hne]; [done|].
    rewrite lookup_insert_ne in H by done. eauto.
Qed.

Lemma discard_wf i st : wf st -> wf (discard i st).
Proof.
  intros (Hp & Ht & Hs). unfold wf, discard. simpl. split_and!; [|done|done].
  intros j pd' H. apply lookup_delete_Some in H as [_ H]. eauto.
Qed.

Lemma fire_timeout_wf h st : wf st -> wf (fire_timeout h st).
Proof.
  intros (Hp & Ht & Hs). unfold fire_timeout.
  destruct (timers st !! h) as [t'|] eqn:Hh; [|done].
  destruct (t_due t' <=? now st)%Z; [|done].
  destruct (Ht h t' Hh) as (Et & Hnone & Hfr).
  unfold settle. simpl. rewrite Et, Hnone. unfold wf. simpl.
  split_and!.
  - intros j pd' H. apply lookup_delete_Some in H as [_ H]. eauto.
  - intros h' t'' H. apply lookup_delete_Some in H as [Hne H].
    destruct (Ht h' t'' H) as (? & ? & ?). split_and!; [done| |done].
    by rewrite lookup_insert_ne.
  - intros q s' H. destruct (decide (q = h)) as [->|Hne]; [done|].
    rewrite lookup_insert_ne in H by done. eauto.
Qed.

Lemma fresh_unused st :
  wf st -> settled st !! fresh st = None /\ timers st !! fresh st = None.
Proof.
  intros (Hp & Ht & Hs). split.
  - destruct (settled st !! fresh st) eqn:E; [|done]. apply Hs in E. lia.
  - destruct (timers st !! fresh st) eqn:E; [|done].
    apply Ht in E as (_ & _ & E). lia.
Qed.

Lemma sendMCPRequest_wf r st : wf st -> wf (snd (sendMCPRequest r st)).
Proof.
  intros Hw. destruct (fresh_unused st Hw) as [Hfresh Htfresh].
  destruct Hw as (Hp & Ht & Hs). unfold sendMCPRequest.
  destruct (mcpProcess st); simpl.
  - unfold wf. simpl. split_and!.
    + intros j pd' H. apply lookup_insert_Some in H as [[_ <-] | [_ H]]; simpl.
      * split; [done|lia].
      * destruct (Hp j pd' H). split; [done|lia].
    + intros h t' H. apply lookup_insert_Some in H as [[<- <-] | [_ H]]; simpl.
      * split_and!; [done | done | lia].
      * destruct (Ht h t' H) as (? & ? & ?). split_and!; [done | done | lia].
    + intros q s' H. apply Hs in H. lia.
  - unfold settle. simpl. rewrite Hfresh. unfold wf. simpl. split_and!.
    + intros j pd' H. destruct (Hp j pd' H). split; [done|lia].
    + intros h t' H. destruct (Ht h t' H) as (? & ? & ?).
      split_and!; [done | | lia]. rewrite lookup_insert_ne by lia. done.
    + intros q s' H. apply lookup_insert_Some in H as [[<- _] | [_ H]]; [lia|].
      apply Hs in H. lia.
Qed.

Lemma call_snd method params st :
  snd (call method params st) =
  snd (sendMCPRequest
         {| r_id := increment (requestId st); r_method := method;
            r_params := params |}
         (set_requestId (increment (requestId st)) st)).
Proof. unfold call. simpl. by destruct (sendMCPRequest _ _). Qed.

Lemma step_wf JSON_parse Number_toString ev st : wf st -> wf (step JSON_parse Number_toString ev st).
Proof.
  intros H. unfold step. destruct (exited st); [done|].
  destruct ev; try done.
  - rewrite call_snd. by apply sendMCPRequest_wf.
  - apply (handleMCPResponse_ind JSON_parse Number_toString wf); [| |done].
    + intros s i pd Hs Hl. by apply discard_wf.
    + intros s i pd x Hs Hl. by apply fulfil_wf.
  - by apply fire_timeout_wf.
  - unfold on_exit. by repeat case_match.
Qed.

Lemma run_wf JSON_parse Number_toString evs : forall st, wf st -> wf (run JSON_parse Number_toString evs st).
Proof.
  induction evs as [|ev rest IH]; intros st H; [done|].
  rewrite run_cons. apply IH. by apply step_wf.
Qed.

Lemma fulfil_tracked p t i pd s st :
  pendingRequests st !! i = Some pd ->
  tracked p t st -> tracked p t (fulfil i pd s st).
Proof.
  intros Hl (Hw & Hlt & Hq). split_and!; [by apply fulfil_wf | by rewrite fulfil_fresh |].
  destruct Hw as (Hp & _ & _). destruct (Hp i pd Hl) as [Epd _].
  rewrite fulfil_timers, fulfil_settled_cases, Epd.
  destruct (decide (p = p_timeout pd)) as [->|Hne].
  - right. case_match; [eauto|]. rewrite lookup_insert_eq. eauto.
  - destruct Hq as [Hq | Hq].
    + left. by rewrite lookup_delete_ne.
    + right. case_match; [done|]. by rewrite lookup_insert_ne.
Qed.

Lemma discard_tracked p t i st : tracked p t st -> tracked p t (discard i st).
Proof. intros (Hw & Hlt & Hq). split_and!; [by apply discard_wf | done | done]. Qed.

Lemma fire_timeout_tracked p t h st :
  tracked p t st -> tracked p t (fire_timeout h st).
Proof.
  intros (Hw & Hlt & Hq). split; [by apply fire_timeout_wf|].
  destruct Hw as (Hp & Ht & Hs). unfold fire_timeout.
  destruct (timers st !! h) as [t'|] eqn:Hh; [|done].
  destruct (t_due t' <=? now st)%Z; [|done].
  destruct (Ht h t' Hh) as (Et & Hnone & Hfr).
  unfold settle. simpl. rewrite Et, Hnone. simpl. split; [done|].
  destruct (decide (p = h)) as [->|Hne].
  - right. rewrite lookup_insert_eq. eauto.
  - destruct Hq as [Hq | Hq].
    + left. by rewrite lookup_delete_ne.
    + right. by rewrite lookup_insert_ne.
Qed.

Lemma sendMCPRequest_tracked p t r st :
  tracked p t st -> tracked p t (snd (sendMCPRequest r st)).
Proof.
  intros (Hw & Hlt & Hq). split; [by apply sendMCPRequest_wf|].
  destruct (fresh_unused st Hw) as [Hfresh Htfresh].
  unfold sendMCPRequest. destruct (mcpProcess st); simpl.
  - split; [lia|]. destruct Hq as [Hq | Hq]; [left | by right].
    rewrite lookup_insert_ne by lia. done.
  - unfold settle. simpl. rewrite Hfresh. simpl. split; [lia|].
    destruct Hq as [Hq | Hq]; [by left | right].
    rewrite lookup_insert_ne by lia. done.
Qed.

Lemma step_tracked JSON_parse Number_toString p t ev st :
  tracked p t st -> tracked p t (step JSON_parse Number_toString ev st).
Proof.
  intros H. unfold step. destruct (exited st); [done|].
  destruct ev; try done.
  - rewrite call_snd. by apply sendMCPRequest_tracked.
  - apply (handleMCPResponse_ind JSON_parse Number_toString (tracked p t)); [| |done].
    + intros s i pd Hs Hl. by apply discard_tracked.
    + intros s i pd x Hs Hl. by apply fulfil_tracked.
  - by apply fire_timeout_tracked.
  - unfold on_exit. by repeat case_match.
Qed.

Lemma run_tracked JSON_parse Number_toString p t evs : forall st,
  tracked p t st -> tracked p t (run JSON_parse Number_toString evs st).
Proof.
  induction evs as [|ev rest IH]; intros st H; [done|].
  rewrite run_cons. apply IH. by apply step_tracked.
Qed.

(** C5. Every request that is sent arms a timer of 20000 ms. As long as
    no response has settled the request, the timer stays armed; it does
    nothing before it is due, and once due its callback removes the id from
    the pending map and rejects the caller with the timeout message. *)
Theorem timeout_rejects_caller
    (JSON_parse : string -> option JSValue)
    (Number_toString : JSNumber -> string) (history : list Event)
    (method : string) (params : JSValue) (id : Z) (p : nat) (st1 : State) :
  let st := run JSON_parse Number_toString history init in
  let timer := {| t_due := (now st + 20000)%Z; t_request := id; t_promise := p |} in
  exited st = None ->
  mcpProcess st = true ->
  call method params st = (id, p, st1) ->
  timers st1 !! p = Some timer /\
  pendingRequests st1 !! id = Some {| p_timeout := p; p_promise := p |} /\
  settled st1 !! p = None /\
  forall evs,
    let st2 := run JSON_parse Number_toString evs st1 in
    settled st2 !! p = None ->
    exited st2 = None ->
    timers st2 !! p = Some timer /\
    ((now st2 < now st + 20000)%Z -> step JSON_parse Number_toString (Timeout p) st2 = st2) /\
    ((now st + 20000 <= now st2)%Z ->
       pendingRequests (step JSON_parse Number_toString (Timeout p) st2) !! id = None /\
       timers (step JSON_parse Number_toString (Timeout p) st2) !! p = None /\
       settled (step JSON_parse Number_toString (Timeout p) st2) !! p
         = Some (Rejected (JStr timeout_message))).
Proof.
  intros st timer Halive Hproc Hcall.
  assert (Hw : wf st) by (apply run_wf, wf_init).
  destruct (fresh_unused st Hw) as [Hfresh Htfresh].
  unfold call, sendMCPRequest in Hcall. simpl in Hcall.
  rewrite Hproc in Hcall. simpl in Hcall. injection Hcall as <- <- <-.
  assert (Hw1 : wf (snd (call method params st))).
  { rewrite call_snd. by apply sendMCPRequest_wf. }
  unfold call, sendMCPRequest in Hw1. simpl in Hw1.
  rewrite Hproc in Hw1. simpl in Hw1.
  match type of Hw1 with wf ?s => set (st1 := s) in * end.
  assert (Ht1 : timers st1 !! fresh st = Some timer) by (simpl; by rewrite lookup_insert_eq).
  split_and!; [done | simpl; by rewrite lookup_insert_eq | done |].
  intros evs st2 Hunsettled Halive2.
  assert (Htr : tracked (fresh st) timer st2).
  { apply run_tracked. split_and!; [done | simpl; lia | by left]. }
  destruct Htr as (Hw2 & _ & [Harmed | Hsome]);
    [| rewrite Hunsettled in Hsome; by destruct Hsome].
  split_and!; [done | |].
  - intros Hearly. unfold step. rewrite Halive2. unfold fire_timeout.
    rewrite Harmed. simpl.
    destruct (Z.leb_spec (now st + 20000) (now st2)); [lia | done].
  - intros Hdue. unfold step. rewrite Halive2. unfold fire_timeout.
    rewrite Harmed. simpl.
    destruct (Z.leb_spec (now st + 20000) (now st2)); [| lia].
    unfold settle. simpl. rewrite Hunsettled. simpl.
    by rewrite !lookup_delete_eq, lookup_insert_eq.
Qed.

End ClientSpec.

(* ===================================================================== *)
(** * Properties of the tool server                                       *)
(* ===================================================================== *)
Module ServerSpec.
Import JS JSFacts JSON Server.

(** ** Histories only grow *)

Lemma bind_run {A B} (m : M A) (f : A -> M B) hist :
  (m ≫= f) hist =
  match m hist with
  | (Ok a, hist') => f a hist'
  | (Throw e, hist') => (Throw e, hist')
  end.
Proof. done. Qed.

Lemma appends_ret {A} (a : A) : appends (mret a : M A).
Proof. intros hist. exists []. simpl. by rewrite app_nil_r. Qed.

Lemma appends_lift {A} (o : outcome A) : appends (lift o).
Proof. intros hist. exists []. simpl. by rewrite app_nil_r. Qed.

Lemma appends_bind {A B} (m : M A) (f : A -> M B) :
  appends m -> (forall a, appends (f a)) -> appends (m ≫= f).
Proof.
  intros Hm Hf hist. rewrite bind_run. destruct (Hm hist) as [r1 E1].
  destruct (m hist) as [[a|e] h1]; simpl in *; subst h1.
  - destruct (Hf a (hist ++ r1)%list) as [r2 E2]. exists (r1 ++ r2)%list.
    by rewrite E2, app_assoc.
  - eauto.
Qed.

Lemma appends_catch {A} (m : M A) (h : Exn -> A) : appends m -> appends (catch m h).
Proof.
  intros Hm hist. unfold catch. destruct (Hm hist) as [r E].
  destruct (m hist) as [[a|e] h1]; simpl in *; eauto.
Qed.

Section Handlers.
Variable Number_toString : JSNumber -> string.
Variable String_toNumber : string -> JSNumber.
Variable provider : list ProviderCall -> ProviderCall -> outcome JSValue.
Variable sort_by_created_time : list JSValue -> outcome (list JSValue).

Local Abbreviation await := (await provider).
Local Abbreviation getPagePreview := (getPagePreview Number_toString provider).
Local Abbreviation getPageContent := (getPageContent Number_toString provider).
Local Abbreviation searchNotion := (searchNotion Number_toString String_toNumber provider).
Local Abbreviation listRecentPages :=
  (listRecentPages Number_toString String_toNumber provider sort_by_created_time).
Local Abbreviation getPageTitlesOnly :=
  (getPageTitlesOnly Number_toString String_toNumber provider).
Local Abbreviation listAllPages := (listAllPages Number_toString String_toNumber provider).
Local Abbreviation page_size_of := (page_size_of Number_toString String_toNumber).
Local Abbreviation guarded := (guarded Number_toString String_toNumber provider).
Local Abbreviation CallTool :=
  (CallTool Number_toString String_toNumber provider sort_by_created_time).

Lemma appends_await c : appends (await c).
Proof. intros hist. by exists [c]. Qed.

Lemma appends_getPagePreview id : appends (getPagePreview id).
Proof.
  apply appends_catch, appends_bind; [apply appends_await|]. intros blocks.
  apply appends_bind; [apply appends_lift|]. intros results.
  apply appends_bind; [apply appends_lift|]. intros items. apply appends_ret.
Qed.

Lemma appends_search_loop items : forall results,
  appends (search_loop Number_toString provider items results).
Proof.
  induction items as [|item rest IH]; intros results; simpl; [apply appends_ret|].
  apply appends_bind; [apply appends_lift|]. intros [|]; [|apply IH].
  apply appends_bind; [apply appends_lift|]. intros id.
  apply appends_bind; [apply appends_getPagePreview|]. intros content.
  apply appends_bind; [apply appends_lift|]. intros url. apply IH.
Qed.

(** A handler that starts by awaiting request [c] leaves a history that
    goes on with [c]. *)
Lemma first_request {A} c (k : JSValue -> M A) (h : Exn -> A) hist :
  (forall a, appends (k a)) ->
  exists rest, snd (catch (await c ≫= k) h hist) = (hist ++ c :: rest)%list.
Proof.
  intros Hk. unfold catch. rewrite bind_run. unfold Server.await.
  destruct (provider hist c) as [a|e]; simpl.
  - destruct (Hk a (hist ++ [c])%list) as [r E].
    destruct (k a (hist ++ [c])%list) as [[x|e] h1]; simpl in *; subst h1;
      exists r; by rewrite <- app_assoc.
  - by exists [].
Qed.

(** A handler whose provider request fails returns the fallback. *)
Lemma failed_request {A} c (k : JSValue -> M A) (h : Exn -> A) hist e :
  provider hist c = Throw e ->
  catch (await c ≫= k) h hist = (Ok (h e), (hist ++ [c])%list).
Proof. intros H. unfold catch. rewrite bind_run. unfold Server.await. by rewrite H. Qed.

(** A [try]/[catch] handler always ends with a value. *)
Lemma catch_total {A} (m : M A) (h : Exn -> A) hist :
  exists a hist', catch m h hist = (Ok a, hist').
Proof. unfold catch. destruct (m hist) as [[a|e] h1]; eauto. Qed.

Lemma Math_min_is_min n m :
  n <> NaN -> m <> NaN ->
  num_le (Math_min n m) n = true /\ num_le (Math_min n m) m = true /\
  (Math_min n m = n \/ Math_min n m = m).
Proof.
  intros Hn Hm. destruct n as [| | |p], m as [| | |q]; simpl; try done; auto.
  - split_and!; auto. apply Qle_bool_iff, Qle_refl.
  - split_and!; auto. apply Qle_bool_iff, Qle_refl.
  - destruct (Qle_bool p q) eqn:E; simpl; rewrite ?E; split_and!; auto;
      try (apply Qle_bool_iff, Qle_refl).
    apply Qle_bool_iff. apply Qlt_le_weak, Qnot_le_lt. intros H.
    apply Qle_bool_iff in H. congruence.
Qed.

Lemma CallTool_search_notion args q l hist :
  Get args "query" = Ok q -> Get args "limit" = Ok l ->
  CallTool "search_notion" args hist =
  match searchNotion q (or_else l ten) hist with
  | (Ok results, h) =>
      (Ok (text_result (JSON_stringify Number_toString (JArr results))), h)
  | (Throw e, h) => (Ok (error_result Number_toString e), h)
  end.
Proof.
  intros Hq Hl. unfold Server.CallTool, dispatch, catch.
  simpl (String.eqb _ _). cbv iota. unfold lift.
  repeat (rewrite bind_run; rewrite ?Hq, ?Hl).
  by destruct (searchNotion _ _ _) as [[?|?] ?].
Qed.

Lemma CallTool_list_recent_pages args l s hist :
  Get args "limit" = Ok l -> Get args "sort" = Ok s ->
  CallTool "list_recent_pages" args hist =
  match listRecentPages (or_else l ten) (or_else s (JStr "last_edited_time")) hist with
  | (Ok results, h) =>
      (Ok (text_result (JSON_stringify Number_toString (JArr results))), h)
  | (Throw e, h) => (Ok (error_result Number_toString e), h)
  end.
Proof.
  intros Hl Hs. unfold Server.CallTool, dispatch, catch.
  simpl (String.eqb _ _). cbv iota. unfold lift.
  repeat (rewrite bind_run; rewrite ?Hl, ?Hs).
  by destruct (listRecentPages _ _ _) as [[?|?] ?].
Qed.

Lemma CallTool_get_page_titles_only args q l hist :
  Get args "query" = Ok q -> Get args "limit" = Ok l ->
  CallTool "get_page_titles_only" args hist =
  match getPageTitlesOnly q (or_else l ten) hist with
  | (Ok results, h) =>
      (Ok (text_result (JSON_stringify Number_toString (JArr results))), h)
  | (Throw e, h) => (Ok (error_result Number_toString e), h)
  end.
Proof.
  intros Hq Hl. unfold Server.CallTool, dispatch, catch.
  simpl (String.eqb _ _). cbv iota. unfold lift.
  repeat (rewrite bind_run; rewrite ?Hq, ?Hl).
  by destruct (getPageTitlesOnly _ _ _) as [[?|?] ?].
Qed.

Lemma CallTool_list_all_pages args l hist :
  Get args "limit" = Ok l ->
  CallTool "list_all_pages" args hist =
  match listAllPages (or_else l twenty) hist with
  | (Ok results, h) =>
      (Ok (text_result (JSON_stringify Number_toString (JArr results))), h)
  | (Throw e, h) => (Ok (error_result Number_toString e), h)
  end.
Proof.
  intros Hl. unfold Server.CallTool, dispatch, catch.
  simpl (String.eqb _ _). cbv iota. unfold lift.
  repeat (rewrite bind_run; rewrite ?Hl).
  by destruct (listAllPages _ _) as [[?|?] ?].
Qed.

Lemma snd_match {A B} (x : outcome A * list ProviderCall) (f : A -> B) (g : Exn -> B) :
  snd (match x with
       | (Ok a, h) => (Ok (f a), h)
       | (Throw e, h) => (Ok (g e), h)
       end) = snd x.
Proof. by destruct x as [[?|?] ?]. Qed.

Lemma or_else_falsy l d : truthy l = false -> or_else l d = d.
Proof. intros H. unfold or_else. by rewrite H. Qed.

Lemma or_else_truthy l d : truthy l = true -> or_else l d = l.
Proof. intros H. unfold or_else. by rewrite H. Qed.

(** ** The statements before the request *)

Lemma bind_Ok {A B} (a : A) (f : A -> outcome B) : (Ok a ≫= f) = f a.
Proof. done. Qed.

Lemma bind_Throw {A B} (e : Exn) (f : A -> outcome B) : (Throw e ≫= f) = Throw e.
Proof. done. Qed.

Lemma catch_lift_Ok {A B} (o : outcome A) a (f : A -> M B) (h : Exn -> B) hist :
  o = Ok a -> catch (lift o ≫= f) h hist = catch (f a) h hist.
Proof. intros ->. done. Qed.

Lemma catch_lift_Throw {A B} (o : outcome A) e (f : A -> M B) (h : Exn -> B) hist :
  o = Throw e -> catch (lift o ≫= f) h hist = (Ok (h e), hist).
Proof. intros ->. done. Qed.

Lemma interpolate_cons v text vs :
  ToString Number_toString v = Ok text ->
  interpolate Number_toString (v :: vs) = interpolate Number_toString vs.
Proof. intros H. cbn [interpolate]. by rewrite H. Qed.

Lemma interpolate_tt vs u : interpolate Number_toString vs = Ok u -> u = tt.
Proof. by destruct u. Qed.

Lemma interpolate_cases vs :
  interpolate Number_toString vs = Ok tt \/
  exists e, interpolate Number_toString vs = Throw e.
Proof. destruct (interpolate Number_toString vs) as [[]|e]; eauto. Qed.

(** A number converts to itself, and its page size is its minimum with
    100. *)
Lemma page_size_of_number n :
  page_size_of (JNum n) = Ok (JNum (Math_min n (num_of_Z 100))).
Proof. done. Qed.

Lemma or_else_all query text :
  ToString Number_toString query = Ok text ->
  exists t, ToString Number_toString (or_else query (JStr "all")) = Ok t.
Proof. intros H. unfold or_else. destruct (truthy query); eauto. Qed.

(** Where the log line can be printed and the limit made a number, the
    handler goes on with its request. *)
Lemma guarded_sends {A} vs limit size req (k : JSValue -> M A) (h : Exn -> A) hist :
  interpolate Number_toString vs = Ok tt -> page_size_of limit = Ok size ->
  catch (guarded vs limit req k) h hist = catch (await (req size) ≫= k) h hist.
Proof.
  intros Hv Hs. unfold Server.guarded, console_error.
  rewrite (catch_lift_Ok _ tt) by done. by rewrite (catch_lift_Ok _ size).
Qed.

(** Where not, it ends there, with its fallback and without a request. *)
Lemma guarded_stops {A} vs limit req (k : JSValue -> M A) (h : Exn -> A) hist :
  (exists e, interpolate Number_toString vs = Throw e) \/
  (exists e, page_size_of limit = Throw e) ->
  exists e, catch (guarded vs limit req k) h hist = (Ok (h e), hist).
Proof.
  intros H. unfold Server.guarded, console_error.
  destruct (interpolate_cases vs) as [Hv | [e Hv]].
  - rewrite (catch_lift_Ok _ tt) by done.
    destruct H as [[e H] | [e H]]; [congruence|].
    exists e. by rewrite (catch_lift_Throw _ e).
  - exists e. by rewrite (catch_lift_Throw _ e).
Qed.

Lemma guarded_run {A} vs limit req (k : JSValue -> M A) (h : Exn -> A) hist :
  catch (guarded vs limit req k) h hist =
  match interpolate Number_toString vs with
  | Ok _ =>
      match page_size_of limit with
      | Ok size => catch (await (req size) ≫= k) h hist
      | Throw e => (Ok (h e), hist)
      end
  | Throw e => (Ok (h e), hist)
  end.
Proof.
  unfold Server.guarded, console_error.
  destruct (interpolate Number_toString vs) as [[]|e] eqn:Hv.
  - rewrite (catch_lift_Ok _ tt) by done.
    destruct (page_size_of limit) as [size|e] eqn:Hs.
    + by rewrite (catch_lift_Ok _ size).
    + by rewrite (catch_lift_Throw _ e).
  - by rewrite (catch_lift_Throw _ e).
Qed.

(** A request the provider rejects: the fallback, after that one request
    or, where the handler stopped before, after none. *)
Lemma guarded_fails {A} vs limit req (k : JSValue -> M A) (a : A) hist e :
  (forall size, page_size_of limit = Ok size -> provider hist (req size) = Throw e) ->
  catch (guarded vs limit req k) (fun _ => a) hist =
  (Ok a, match interpolate Number_toString vs, page_size_of limit with
         | Ok _, Ok size => (hist ++ [req size])%list
         | _, _ => hist
         end).
Proof.
  intros H. destruct (interpolate Number_toString vs) as [[]|e1] eqn:Hv.
  - destruct (page_size_of limit) as [size|e2] eqn:Hs.
    + rewrite (guarded_sends vs limit size) by done.
      by rewrite (failed_request _ _ _ _ e) by auto.
    + destruct (guarded_stops vs limit req k (fun _ => a) hist) as [e' ->]; eauto.
  - destruct (guarded_stops vs limit req k (fun _ => a) hist) as [e' ->]; eauto.
Qed.

(** ** The first request of each handler *)

Lemma searchNotion_guarded query limit :
  searchNotion query limit =
  catch (guarded [query; limit] limit (search_request query)
           (fun response =>
              results ← lift (Get response "results");
              found ← lift (Get results "length");
              _ ← console_error Number_toString [found];
              items ← lift (iterate results);
              search_loop Number_toString provider items []))
        (fun _ => []).
Proof. done. Qed.

Lemma listRecentPages_guarded limit sortBy :
  listRecentPages limit sortBy =
  catch (guarded [limit; sortBy] limit recent_request
           (fun response =>
              results ← lift (Get response "results");
              items ← lift (iterate results);
              pages ← lift (pages_loop items []);
              if is_str sortBy "created_time" then lift (sort_by_created_time pages)
              else mret pages))
        (fun _ => []).
Proof. done. Qed.

Lemma getPageTitlesOnly_guarded query limit :
  limit <> JUndefined ->
  getPageTitlesOnly query limit =
  catch (guarded [or_else query (JStr "all"); limit] limit (titles_request query)
           (fun response =>
              results ← lift (Get response "results");
              match results with
              | JArr items =>
                  kept ← lift (titles_filter items);
                  lift (titles_map kept)
              | _ => lift (Throw (JSError "response.results.filter is not a function"))
              end))
        (fun _ => []).
Proof. intros H. unfold Server.getPageTitlesOnly. by destruct limit. Qed.

Lemma listAllPages_guarded limit :
  listAllPages limit =
  catch (guarded [limit] limit all_request
           (fun response =>
              results ← lift (Get response "results");
              items ← lift (iterate results);
              lift (pages_loop items [])))
        (fun _ => []).
Proof. done. Qed.

Lemma searchNotion_first query limit tq tl size hist :
  ToString Number_toString query = Ok tq ->
  ToString Number_toString limit = Ok tl ->
  page_size_of limit = Ok size ->
  exists rest, snd (searchNotion query limit hist) =
    (hist ++ search_request query size :: rest)%list.
Proof.
  intros Hq Hl Hs. rewrite searchNotion_guarded.
  rewrite (guarded_sends _ _ size); [|by rewrite (interpolate_cons _ tq), (interpolate_cons _ tl) | done].
  apply first_request. intros response.
  apply appends_bind; [apply appends_lift|]. intros results.
  apply appends_bind; [apply appends_lift|]. intros found.
  apply appends_bind; [apply appends_lift|]. intros _.
  apply appends_bind; [apply appends_lift|]. intros items.
  apply appends_search_loop.
Qed.

Lemma listRecentPages_first limit sortBy tl ts size hist :
  ToString Number_toString limit = Ok tl ->
  ToString Number_toString sortBy = Ok ts ->
  page_size_of limit = Ok size ->
  exists rest, snd (listRecentPages limit sortBy hist) =
    (hist ++ recent_request size :: rest)%list.
Proof.
  intros Hl Hb Hs. rewrite listRecentPages_guarded.
  rewrite (guarded_sends _ _ size); [|by rewrite (interpolate_cons _ tl), (interpolate_cons _ ts) | done].
  apply first_request. intros response.
  apply appends_bind; [apply appends_lift|]. intros results.
  apply appends_bind; [apply appends_lift|]. intros items.
  apply appends_bind; [apply appends_lift|]. intros pages.
  destruct (is_str sortBy "created_time"); [apply appends_lift | apply appends_ret].
Qed.

Lemma getPageTitlesOnly_first query limit tq tl size hist :
  limit <> JUndefined ->
  ToString Number_toString query = Ok tq ->
  ToString Number_toString limit = Ok tl ->
  page_size_of limit = Ok size ->
  exists rest, snd (getPageTitlesOnly query limit hist) =
    (hist ++ titles_request query size :: rest)%list.
Proof.
  intros Hd Hq Hl Hs. rewrite getPageTitlesOnly_guarded by done.
  destruct (or_else_all query tq Hq) as [ta Ha].
  rewrite (guarded_sends _ _ size); [|by rewrite (interpolate_cons _ ta), (interpolate_cons _ tl) | done].
  apply first_request. intros response.
  apply appends_bind; [apply appends_lift|]. intros results.
  destruct results; try apply appends_lift.
  apply appends_bind; [apply appends_lift|]. intros kept. apply appends_lift.
Qed.

Lemma listAllPages_first limit tl size hist :
  ToString Number_toString limit = Ok tl ->
  page_size_of limit = Ok size ->
  exists rest, snd (listAllPages limit hist) =
    (hist ++ all_request size :: rest)%list.
Proof.
  intros Hl Hs. rewrite listAllPages_guarded.
  rewrite (guarded_sends _ _ size); [|by rewrite (interpolate_cons _ tl) | done].
  apply first_request. intros response.
  apply appends_bind; [apply appends_lift|]. intros results.
  apply appends_bind; [apply appends_lift|]. intros items. apply appends_lift.
Qed.

Lemma titles_page_size query size :
  page_size (titles_request query size) = Ok size.
Proof. simpl. by destruct (truthy query). Qed.

(** The page size each tool asks for, given the limit its handler gets. *)
Lemma CallTool_page_sizes args q l s d tq ts td size hist :
  Get args "query" = Ok q -> Get args "limit" = Ok l -> Get args "sort" = Ok s ->
  or_else l ten = d -> d <> JUndefined ->
  ToString Number_toString d = Ok td -> page_size_of d = Ok size ->
  (ToString Number_toString q = Ok tq ->
   exists c rest, snd (CallTool "search_notion" args hist) = (hist ++ c :: rest)%list /\
                  page_size c = Ok size) /\
  (ToString Number_toString (or_else s (JStr "last_edited_time")) = Ok ts ->
   exists c rest, snd (CallTool "list_recent_pages" args hist) = (hist ++ c :: rest)%list /\
                  page_size c = Ok size) /\
  (ToString Number_toString q = Ok tq ->
   exists c rest, snd (CallTool "get_page_titles_only" args hist) = (hist ++ c :: rest)%list /\
                  page_size c = Ok size).
Proof.
  intros Hq Hl Hs Hd Hdef Htd Hsize.
  split_and!.
  - intros Htq. rewrite (CallTool_search_notion _ q l) by done. rewrite snd_match, Hd.
    destruct (searchNotion_first q d tq td size hist) as [rest E]; [done..|].
    by eexists _, rest.
  - intros Hts. rewrite (CallTool_list_recent_pages _ l s) by done. rewrite snd_match, Hd.
    destruct (listRecentPages_first d (or_else s (JStr "last_edited_time"))
                td ts size hist) as [rest E]; [done..|]. by eexists _, rest.
  - intros Htq. rewrite (CallTool_get_page_titles_only _ q l) by done.
    rewrite snd_match, Hd.
    destruct (getPageTitlesOnly_first q d tq td size hist) as [rest E]; [done..|].
    eexists _, rest. split; [exact E | apply titles_page_size].
Qed.

Lemma CallTool_all_page_size args l d td size hist :
  Get args "limit" = Ok l ->
  or_else l twenty = d ->
  ToString Number_toString d = Ok td -> page_size_of d = Ok size ->
  exists c rest, snd (CallTool "list_all_pages" args hist) = (hist ++ c :: rest)%list /\
                 page_size c = Ok size.
Proof.
  intros Hl Hd Htd Hsize.
  rewrite (CallTool_list_all_pages _ l) by done. rewrite snd_match, Hd.
  destruct (listAllPages_first d td size hist) as [rest E]; [done..|].
  by eexists _, rest.
Qed.

(** C6, as the code has it. Each list-style handler whose log line can be
    printed asks the provider for [Math.min(limit, 100)] results: the first
    request that [searchNotion], [listRecentPages], [getPageTitlesOnly] and
    [listAllPages] send carries that page size, which for a limit other
    than NaN is the smaller of the limit and 100.  A [tools/call] passes a
    numeric limit other than 0 and NaN on to its handler unchanged, so that
    the same holds there, and with limit 500 the request asks for exactly
    100; a limit of 0 or NaN is replaced by the default of the tool before
    it is clamped, so that the request asks for 10 results, or 20, and not
    for the minimum of the limit and 100. *)
Theorem page_size_is_min_of_limit_and_100
    (query sortBy : JSValue) (tq ts : string) (n : JSNumber)
    (hist : list ProviderCall) :
  ToString Number_toString query = Ok tq ->
  ToString Number_toString sortBy = Ok ts ->
  let size := JNum (Math_min n (num_of_Z 100)) in
  (exists c rest, snd (searchNotion query (JNum n) hist) = (hist ++ c :: rest)%list /\
                  page_size c = Ok size) /\
  (exists c rest, snd (listRecentPages (JNum n) sortBy hist) = (hist ++ c :: rest)%list /\
                  page_size c = Ok size) /\
  (exists c rest, snd (getPageTitlesOnly query (JNum n) hist) = (hist ++ c :: rest)%list /\
                  page_size c = Ok size) /\
  (exists c rest, snd (listAllPages (JNum n) hist) = (hist ++ c :: rest)%list /\
                  page_size c = Ok size) /\
  (n <> NaN ->
     num_le (Math_min n (num_of_Z 100)) n = true /\
     num_le (Math_min n (num_of_Z 100)) (num_of_Z 100) = true /\
     (Math_min n (num_of_Z 100) = n \/ Math_min n (num_of_Z 100) = num_of_Z 100)) /\
  (forall args sort name,
     Get args "limit" = Ok (JNum n) -> Get args "query" = Ok query ->
     Get args "sort" = Ok sort -> or_else sort (JStr "last_edited_time") = sortBy ->
     In name tool_names -> name <> "get_page_content" ->
     exists c rest, snd (CallTool name args hist) = (hist ++ c :: rest)%list /\
                    page_size c =
                    Ok (if truthy (JNum n) then size
                        else if String.eqb name "list_all_pages" then twenty
                             else ten)) /\
  (exists c rest,
     snd (CallTool "search_notion"
            (JObj [("query", query); ("limit", JNum (num_of_Z 500))]) hist)
       = (hist ++ c :: rest)%list /\
     page_size c = Ok (JNum (num_of_Z 100))).
Proof.
  intros Hq Hb size. split_and!.
  - destruct (searchNotion_first query (JNum n) tq (Number_toString n) size hist
                Hq eq_refl eq_refl) as [rest E]. by eexists _, rest.
  - destruct (listRecentPages_first (JNum n) sortBy (Number_toString n) ts size hist
                eq_refl Hb eq_refl) as [rest E]. by eexists _, rest.
  - destruct (getPageTitlesOnly_first query (JNum n) tq (Number_toString n) size hist)
      as [rest E]; [done..|].
    eexists _, rest. split; [exact E | apply titles_page_size].
  - destruct (listAllPages_first (JNum n) (Number_toString n) size hist
                eq_refl eq_refl) as [rest E].
    by eexists _, rest.
  - intros Hn. by apply Math_min_is_min.
  - intros args sort name Hl Hquery Hsort Hby Hin Hne. subst sortBy.
    destruct (truthy (JNum n)) eqn:Ht.
    + destruct (CallTool_page_sizes args query (JNum n) sort (JNum n) tq ts
                  (Number_toString n) size hist)
        as (H1 & H2 & H3); [done | done | done | by apply or_else_truthy | done..|].
      pose proof (CallTool_all_page_size args (JNum n) (JNum n) (Number_toString n)
                    size hist Hl (or_else_truthy _ _ Ht) eq_refl eq_refl) as H4.
      unfold tool_names in Hin. simpl in Hin.
      destruct Hin as [<- | [<- | [<- | [<- | [<- | []]]]]]; auto; done.
    + destruct (CallTool_page_sizes args query (JNum n) sort ten tq ts
                  (Number_toString (num_of_Z 10)) ten hist)
        as (H1 & H2 & H3); [done | done | done | by apply or_else_falsy | done..|].
      pose proof (CallTool_all_page_size args (JNum n) twenty
                    (Number_toString (num_of_Z 20)) twenty hist Hl
                    (or_else_falsy _ _ Ht) eq_refl eq_refl) as H4.
      unfold tool_names in Hin. simpl in Hin.
      destruct Hin as [<- | [<- | [<- | [<- | [<- | []]]]]]; auto; done.
  - destruct (CallTool_page_sizes
                (JObj [("query", query); ("limit", JNum (num_of_Z 500))])
                query (JNum (num_of_Z 500)) JUndefined (JNum (num_of_Z 500)) tq ""
                (Number_toString (num_of_Z 500)) (JNum (num_of_Z 100)) hist)
      as (H1 & _); try done. by apply H1.
Qed.

(** C10. A falsy [limit] (0, NaN, [null], [false], the empty string, or
    none at all) is replaced by the default of the tool: the request to the
    provider asks for 10 results, 20 for [list_all_pages], and the whole
    call behaves exactly as one whose [limit] is any other falsy value, an
    absent one included.  The request is sent once the log line of the
    handler has been printed, which takes a [query] or [sort] that can be
    made a string. *)
Theorem falsy_limit_is_replaced_by_default
    (args l q s : JSValue) (tq ts : string) (hist : list ProviderCall) :
  Get args "limit" = Ok l ->
  truthy l = false ->
  Get args "query" = Ok q ->
  Get args "sort" = Ok s ->
  (ToString Number_toString q = Ok tq ->
   exists c rest, snd (CallTool "search_notion" args hist) = (hist ++ c :: rest)%list /\
                  page_size c = Ok ten) /\
  (ToString Number_toString (or_else s (JStr "last_edited_time")) = Ok ts ->
   exists c rest, snd (CallTool "list_recent_pages" args hist) = (hist ++ c :: rest)%list /\
                  page_size c = Ok ten) /\
  (ToString Number_toString q = Ok tq ->
   exists c rest, snd (CallTool "get_page_titles_only" args hist) = (hist ++ c :: rest)%list /\
                  page_size c = Ok ten) /\
  (exists c rest, snd (CallTool "list_all_pages" args hist) = (hist ++ c :: rest)%list /\
                  page_size c = Ok twenty) /\
  (forall name args' l',
     In name ["search_notion"; "list_recent_pages"; "get_page_titles_only";
              "list_all_pages"] ->
     Get args' "limit" = Ok l' -> truthy l' = false ->
     (forall k, k <> "limit" -> Get args' k = Get args k) ->
     CallTool name args' hist = CallTool name args hist).
Proof.
  intros Hl Hf Hq Hs.
  destruct (CallTool_page_sizes args q l s ten tq ts
              (Number_toString (num_of_Z 10)) ten hist)
    as (H1 & H2 & H3); [done | done | done | by apply or_else_falsy | done..|].
  split_and!; [exact H1 | exact H2 | exact H3 | |].
  - apply (CallTool_all_page_size args l twenty (Number_toString (num_of_Z 20)));
      [done | by apply or_else_falsy | done | done].
  - intros name args' l' Hin Hl' Hf' Hsame.
    assert (Hq' : Get args' "query" = Ok q) by (rewrite Hsame; done).
    assert (Hs' : Get args' "sort" = Ok s) by (rewrite Hsame; done).
    simpl in Hin. destruct Hin as [<- | [<- | [<- | [<- | []]]]].
    + rewrite (CallTool_search_notion args' q l'), (CallTool_search_notion args q l) by done.
      by rewrite !or_else_falsy.
    + rewrite (CallTool_list_recent_pages args' l' s),
        (CallTool_list_recent_pages args l s) by done.
      by rewrite !(or_else_falsy _ ten).
    + rewrite (CallTool_get_page_titles_only args' q l'),
        (CallTool_get_page_titles_only args q l) by done.
      by rewrite !or_else_falsy.
    + rewrite (CallTool_list_all_pages args' l'), (CallTool_list_all_pages args l) by done.
      by rewrite !or_else_falsy.
Qed.

Lemma eqb_false_of_not_in name : 
  ~ In name tool_names ->
  String.eqb name "search_notion" = false /\
  String.eqb name "list_recent_pages" = false /\
  String.eqb name "get_page_titles_only" = false /\
  String.eqb name "list_all_pages" = false /\
  String.eqb name "get_page_content" = false.
Proof.
  intros H. unfold tool_names in H. simpl in H.
  split_and!; apply String.eqb_neq; intros ->; apply H; auto 10.
Qed.

(** C7. A [tools/call] naming none of the five tools ends normally, with
    a result whose [isError] is true and whose text is the JSON object
    holding the message [Unknown tool: <name>]; and whatever the name and
    the arguments, the handler ends with a result, never with an
    exception. *)
Theorem unknown_tool_is_an_error_result
    (name : string) (args : JSValue) (hist : list ProviderCall) :
  ~ In name tool_names ->
  CallTool name args hist =
    (Ok {| content :=
             [ {| type_ := "text";
                  text := JStr ("{" +:+ quote "error" +:+ ":" +:+
                                quote ("Unknown tool: " +:+ name) +:+ "}") |} ];
           isError := true |}, hist) /\
  (forall name' args' hist', exists result hist'',
     CallTool name' args' hist' = (Ok result, hist'')).
Proof.
  intros Hn. destruct (eqb_false_of_not_in name Hn) as (E1 & E2 & E3 & E4 & E5).
  split.
  - unfold Server.CallTool, dispatch, catch. by rewrite E1, E2, E3, E4, E5.
  - intros name' args' hist'. apply catch_total.
Qed.

Lemma getPageContent_unlogged pageId hist e :
  ToString Number_toString pageId = Throw e ->
  getPageContent pageId hist = (Ok "Error retrieving content", hist).
Proof.
  intros H. unfold Server.getPageContent, console_error.
  rewrite (catch_lift_Throw _ e); [done|]. cbn [interpolate]. by rewrite H.
Qed.

Lemma getPageContent_logged pageId text hist :
  ToString Number_toString pageId = Ok text ->
  getPageContent pageId hist =
  catch (blocks ← await (content_request pageId);
         results ← lift (Get blocks "results");
         items ← lift (iterate results);
         mret (str_or (trim (content_loop Number_toString items ""))
                 "No content found"))
        (fun _ => "Error retrieving content") hist.
Proof.
  intros H. unfold Server.getPageContent, console_error.
  rewrite (catch_lift_Ok _ tt); [done|]. cbn [interpolate]. by rewrite H.
Qed.


(** ** Text extraction *)

Lemma title_loop_untitled values :
  existsb well_formed_title values = false ->
  title_loop values = Ok (JStr "Untitled") \/ exists e, title_loop values = Throw e.
Proof.
  induction values as [|value rest IH]; intros H; [by left|].
  simpl in H. apply orb_false_iff in H as [Hv Hr]. specialize (IH Hr).
  assert (Hskip : typeof_object value = false ->
            title_loop (value :: rest) = title_loop rest).
  { intros Ht. cbn [title_loop]. by rewrite Ht, andb_false_r. }
  destruct value as [| |b|n|s|elems|props|name];
    try (rewrite Hskip by done; exact IH).
  - exact IH.
  - (* an array has no [type] property *)
    exact IH.
  - cbn [title_loop truthy typeof_object andb has_property].
    unfold well_formed_title in Hv.
    destruct (own props "type") as [ty|] eqn:Ety; [|exact IH].
    rewrite bind_Ok. cbn [Get]. rewrite Ety, bind_Ok.
    destruct (is_str ty "title") eqn:Hty; [|exact IH].
    destruct (own props "title") as [title|] eqn:Et; [|exact IH].
    rewrite bind_Ok.
    destruct title as [| | | | |[|first more]| |]; try exact IH.
    simpl in Hv. destruct (Get first "plain_text") as [pt|e']; [|right; eauto].
    left. rewrite bind_Ok. unfold or_else. by rewrite Hv.
Qed.

(** C9. [extractTitle] answers [Untitled] whenever the page holds no
    well-formed title property, and [extractBlockText] answers the empty
    string when the block, its type, the data under its type or the
    rich-text arrays are missing. Both are functions of any value at all:
    where the body of the [try] block raises, the [catch] returns the same
    sentinel. *)
Theorem text_extraction_is_total :
  (forall page, has_title page = false -> extractTitle page = JStr "Untitled") /\
  (forall page e, extractTitle_try page = Throw e ->
                  extractTitle page = JStr "Untitled") /\
  (forall block, truthy block = false ->
                 extractBlockText Number_toString block = "") /\
  (forall block ty, Get block "type" = Ok ty -> truthy ty = false ->
                    extractBlockText Number_toString block = "") /\
  (forall block ty e,
     Get block "type" = Ok ty ->
     ToString Number_toString ty = Throw e ->
     extractBlockText Number_toString block = "") /\
  (forall block ty key data,
     Get block "type" = Ok ty ->
     ToString Number_toString ty = Ok key ->
     Get block key = Ok data ->
     truthy data = false ->
     extractBlockText Number_toString block = "") /\
  (forall block ty key data rich_text text,
     Get block "type" = Ok ty ->
     ToString Number_toString ty = Ok key ->
     Get block key = Ok data ->
     Get data "rich_text" = Ok rich_text -> Array_isArray rich_text = false ->
     Get data "text" = Ok text -> Array_isArray text = false ->
     extractBlockText Number_toString block = "") /\
  (forall block e, extractBlockText_try Number_toString block = Throw e ->
                   extractBlockText Number_toString block = "").
Proof.
  split_and!.
  - intros page H. unfold extractTitle, extractTitle_try. unfold has_title in H.
    destruct (Get page "properties") as [properties|e]; [|done].
    rewrite ?bind_Ok, ?bind_Throw.
    destruct (truthy properties); [|done]. cbn [negb].
    destruct (Object_values properties) as [values|e]; [|done].
    rewrite ?bind_Ok, ?bind_Throw. by destruct (title_loop_untitled values H) as [-> | [e ->]].
  - intros page e H. unfold extractTitle. by rewrite H.
  - intros block H. unfold extractBlockText, extractBlockText_try. by rewrite H.
  - intros block ty Hty H. unfold extractBlockText, extractBlockText_try.
    destruct (truthy block); [|done]. cbn [negb]. rewrite Hty.
    rewrite ?bind_Ok, ?bind_Throw. by rewrite H.
  - intros block ty e Hty Hk. unfold extractBlockText, extractBlockText_try.
    destruct (truthy block); [|done]. cbn [negb]. rewrite Hty.
    rewrite ?bind_Ok, ?bind_Throw. destruct (truthy ty); [|done]. cbn [negb].
    by rewrite Hk.
  - intros block ty key data Hty Hk Hd H. unfold extractBlockText, extractBlockText_try.
    destruct (truthy block); [|done]. cbn [negb]. rewrite Hty.
    rewrite ?bind_Ok, ?bind_Throw. destruct (truthy ty); [|done]. cbn [negb].
    rewrite Hk, bind_Ok, Hd. rewrite ?bind_Ok, ?bind_Throw. by rewrite H.
  - intros block ty key data r t Hty Hk Hd Hr Har Ht Hat.
    unfold extractBlockText, extractBlockText_try.
    destruct (truthy block); [|done]. cbn [negb]. rewrite Hty.
    rewrite ?bind_Ok, ?bind_Throw. destruct (truthy ty); [|done]. cbn [negb].
    rewrite Hk, bind_Ok, Hd.
    rewrite ?bind_Ok, ?bind_Throw. destruct (truthy data); [|done]. cbn [negb].
    rewrite Hr. rewrite ?bind_Ok, ?bind_Throw. destruct r; try done; rewrite Ht; rewrite ?bind_Ok, ?bind_Throw;
      by destruct t.
  - intros block e H. unfold extractBlockText. by rewrite H.
Qed.

End Handlers.

End ServerSpec.

(* ===================================================================== *)
(** * The properties at concrete inputs                                   *)
(* ===================================================================== *)
Module Checks.
Import JS JSON Client Server Scenario ClientSpec ServerSpec.

(** The cut record: neither half parses, so nothing is fulfilled, though
    the same bytes in one chunk resolve promise 0. *)
Lemma split_record_is_dropped :
  head_1 +:+ tail_1 = record_1 /\
  (let st := run JSON.parse Number_toString_int [Data head_1; Data (tail_1 +:+ nl)] one_pending in
   pendingRequests st !! 1%Z = Some {| p_timeout := 0; p_promise := 0 |} /\
   settled st !! 0 = None /\
   log st = log one_pending) /\
  settled (run JSON.parse Number_toString_int [Data (record_1 +:+ nl)] one_pending) !! 0
    = Some (Resolved (JObj [("ok", JBool true)])).
Proof. vm_compute. done. Qed.

(** Wherever the record is cut, request 1 is still waiting after both
    pieces have arrived. *)
Lemma every_cut_is_dropped :
  forallb
    (fun k =>
       let (a, b) := cut k record_1 in
       String.eqb (a +:+ b) record_1 &&
       still_waiting (run JSON.parse Number_toString_int [Data a; Data (b +:+ nl)] one_pending))
    (seq 1 (String.length record_1 - 1)) = true.
Proof. vm_compute. reflexivity. Qed.

Lemma chunks_parsed_independently_witness :
  handleMCPResponse JSON.parse Number_toString_int (record_1 +:+ nl) one_pending
    = fulfil 1 {| p_timeout := 0; p_promise := 0 |}
        (Resolved (JObj [("ok", JBool true)])) one_pending /\
  handleMCPResponse JSON.parse Number_toString_int (tail_1 +:+ nl)
    (handleMCPResponse JSON.parse Number_toString_int head_1 one_pending) = one_pending.
Proof.
  destruct (chunks_parsed_independently JSON.parse Number_toString_int one_pending)
    as [Hwhole Hcut].
  split.
  - assert (Ht : trim record_1 <> "") by (intros H; vm_compute in H; discriminate).
    destruct (Hwhole record_1 response_1 (JNum (Fin 1)) 1%Z
                {| p_timeout := 0; p_promise := 0 |}
                eq_refl Ht eq_refl eq_refl eq_refl eq_refl) as [Hsome _].
    apply (Hsome (Resolved (JObj [("ok", JBool true)]))). reflexivity.
  - apply Hcut; reflexivity.
Defined.

(** The server exits with code 0 while request 1 is pending: nothing is
    rejected and the client keeps running, the caller still waiting.  What
    releases it is what would have without the exit: its own timer, 20
    seconds after the request, or a response that still arrives.  With
    exit code 1 the client exits, the entry still unsettled. *)
Lemma exit_leaves_callers_waiting :
  (let st := step JSON.parse Number_toString_int (Exit (Some 0%Z)) one_pending in
   pendingRequests st !! 1%Z = Some {| p_timeout := 0; p_promise := 0 |} /\
   settled st !! 0 = None /\ exited st = None) /\
  settled (run JSON.parse Number_toString_int
             [Exit (Some 0%Z); Elapse 20000; Timeout 0] one_pending) !! 0
    = Some (Rejected (JStr timeout_message)) /\
  settled (run JSON.parse Number_toString_int
             [Exit (Some 0%Z); Data (record_1 +:+ nl)] one_pending) !! 0
    = Some (Resolved (JObj [("ok", JBool true)])) /\
  (let st := step JSON.parse Number_toString_int (Exit (Some 1%Z)) one_pending in
   pendingRequests st !! 1%Z = Some {| p_timeout := 0; p_promise := 0 |} /\
   settled st !! 0 = None /\ exited st = Some 1%Z).
Proof. vm_compute. done. Qed.

Lemma exit_rejects_no_entry_witness :
  pendingRequests (step JSON.parse Number_toString_int (Exit (Some 0%Z)) one_pending)
    = pendingRequests one_pending /\
  exited (step JSON.parse Number_toString_int (Exit None) one_pending) = Some 1%Z.
Proof.
  split.
  - apply (exit_rejects_no_entry JSON.parse Number_toString_int (Some 0%Z) one_pending).
    reflexivity.
  - apply (exit_rejects_no_entry JSON.parse Number_toString_int None one_pending);
      [reflexivity | discriminate].
Defined.

Lemma ids_distinct_increasing_witness :
  issued JSON.parse Number_toString_int session init = [1; 2; 3]%Z /\
  NoDup (issued JSON.parse Number_toString_int session init) /\
  StronglySorted Z.lt (issued JSON.parse Number_toString_int session init).
Proof.
  split; [reflexivity|].
  assert (H0 : (0 <= requestId init)%Z) by (simpl; lia).
  assert (Hb : (requestId init + Z.of_nat (calls session) <= 2 ^ 53)%Z)
    by (simpl; lia).
  destruct (ids_distinct_increasing JSON.parse Number_toString_int session init H0 Hb)
    as (Hd & Hs & _).
  split; assumption.
Defined.

Lemma fulfilled_once_then_discarded_witness :
  exists st',
    try_line JSON.parse Number_toString_int one_pending record_1 = (st', None) /\
    pendingRequests st' !! 1%Z = None /\
    try_line JSON.parse Number_toString_int st' record_1 = (st', None).
Proof.
  destruct (fulfilled_once_then_discarded JSON.parse Number_toString_int one_pending
              record_1 response_1 (JNum (Fin 1)) 1%Z
              {| p_timeout := 0; p_promise := 0 |})
    as (st' & thrown & Hrun & Hmap & Hout & Hdup & _); try reflexivity.
  change (outcome_of Number_toString_int response_1)
    with (Some (Resolved (JObj [("ok", JBool true)]))) in Hout.
  destruct Hout as [-> _].
  exists st'. split; [exact Hrun|]. split.
  - rewrite Hmap. apply lookup_delete_eq.
  - apply (Hdup record_1 response_1 (JNum (Fin 1))); reflexivity.
Defined.

(** The error message of a response cannot be made a string: the entry
    leaves the map and nothing else happens, the timer stays armed and
    releases the caller when it is due. *)
Example unprintable_message_only_discards :
  ToString Number_toString_int unprintable = Throw TypeError_primitive /\
  (let st := run JSON.parse Number_toString_int
               [Data (record_unprintable +:+ nl)] one_pending in
   pendingRequests st !! 1%Z = None /\
   timers st !! 0 = Some {| t_due := 20000; t_request := 1; t_promise := 0 |} /\
   settled st !! 0 = None /\
   log st = (log one_pending ++ [MapDelete 1])%list) /\
  settled (run JSON.parse Number_toString_int
             [Data (record_unprintable +:+ nl); Elapse 20000; Timeout 0]
             one_pending) !! 0
    = Some (Rejected (JStr timeout_message)).
Proof. vm_compute. done. Qed.

Lemma timeout_rejects_caller_witness :
  timers one_pending !! 0
    = Some {| t_due := 20000; t_request := 1; t_promise := 0 |} /\
  settled (step JSON.parse Number_toString_int (Timeout 0)
             (run JSON.parse Number_toString_int [Elapse 20000] one_pending)) !! 0
    = Some (Rejected (JStr timeout_message)).
Proof.
  pose proof (timeout_rejects_caller JSON.parse Number_toString_int [Spawn]
                "tools/call" (JObj []) 1%Z 0 one_pending eq_refl eq_refl eq_refl)
    as (Harm & _ & _ & Hlater).
  split; [exact Harm|].
  pose proof (Hlater [Elapse 20000] eq_refl eq_refl) as (_ & _ & Hdue).
  apply Hdue. vm_compute. discriminate.
Defined.

Local Abbreviation CallTool_failing :=
  (CallTool Number_toString_int String_toNumber_none failing_provider keep_order).

(** A [search_notion] call with limit 0: the one request asks for 10
    results, where the minimum of the limit and 100 is 0. *)
Lemma limit_zero_asks_for_ten :
  Math_min (num_of_Z 0) (num_of_Z 100) = num_of_Z 0 /\
  snd (CallTool_failing "search_notion" zero_limit_args [])
    = [search_request (JStr "notes") (JNum (num_of_Z 10))] /\
  page_size (search_request (JStr "notes") (JNum (num_of_Z 10)))
    = Ok (JNum (num_of_Z 10)) /\
  JNum (num_of_Z 10) <> JNum (num_of_Z 0).
Proof. split_and!; [reflexivity | reflexivity | reflexivity | discriminate]. Qed.

Lemma page_size_is_min_of_limit_and_100_witness :
  num_le (Math_min (num_of_Z 500) (num_of_Z 100)) (num_of_Z 500) = true /\
  (exists c rest,
     snd (CallTool_failing "list_all_pages"
            (JObj [("query", JStr "notes"); ("limit", JNum (num_of_Z 500))]) [])
       = c :: rest /\
     page_size c = Ok (JNum (num_of_Z 100))) /\
  (exists c rest,
     snd (CallTool_failing "search_notion"
            (JObj [("query", JStr "notes"); ("limit", JNum (num_of_Z 500))]) [])
       = c :: rest /\
     page_size c = Ok (JNum (num_of_Z 100))).
Proof.
  pose proof (page_size_is_min_of_limit_and_100 Number_toString_int
                String_toNumber_none failing_provider keep_order
                (JStr "notes") (JStr "last_edited_time") "notes" "last_edited_time"
                (num_of_Z 500) [] eq_refl eq_refl)
    as (_ & _ & _ & _ & Hmin & Hany & Hcall).
  split_and!.
  - apply Hmin. discriminate.
  - apply (Hany (JObj [("query", JStr "notes"); ("limit", JNum (num_of_Z 500))])
             JUndefined "list_all_pages");
      [reflexivity | reflexivity | reflexivity | reflexivity | simpl; auto | discriminate].
  - exact Hcall.
Defined.

Lemma falsy_limit_is_replaced_by_default_witness :
  (exists c rest, snd (CallTool_failing "search_notion" zero_limit_args []) = c :: rest /\
                  page_size c = Ok ten) /\
  CallTool_failing "search_notion" no_limit_args []
    = CallTool_failing "search_notion" zero_limit_args [].
Proof.
  pose proof (falsy_limit_is_replaced_by_default Number_toString_int
                String_toNumber_none failing_provider keep_order
                zero_limit_args (JNum (num_of_Z 0)) (JStr "notes") JUndefined
                "notes" "last_edited_time" [] eq_refl eq_refl eq_refl eq_refl)
    as (Hten & _ & _ & _ & Hsame).
  split; [exact (Hten eq_refl)|].
  apply (Hsame "search_notion" no_limit_args JUndefined);
    [simpl; auto | reflexivity | reflexivity |].
  intros k Hk. unfold no_limit_args, zero_limit_args. cbn [Get own].
  destruct (String.eqb "query" k); [reflexivity|].
  destruct (String.eqb_spec "limit" k) as [E|E]; [congruence | reflexivity].
Defined.

Lemma not_a_tool_is_not_registered : ~ In "not_a_tool" tool_names.
Proof. simpl. intros H. repeat destruct H as [H|H]; try discriminate H. exact H. Qed.

Lemma unknown_tool_is_an_error_result_witness :
  CallTool_failing "not_a_tool" JUndefined []
    = (Ok {| content :=
               [ {| type_ := "text";
                    text := JStr (json "{'error':'Unknown tool: not_a_tool'}") |} ];
             isError := true |}, []).
Proof.
  exact (proj1 (unknown_tool_is_an_error_result Number_toString_int
                  String_toNumber_none failing_provider keep_order
                  "not_a_tool" JUndefined [] not_a_tool_is_not_registered)).
Defined.


(** An argument that cannot be made a string stops a handler at its log
    line, before any request; as the type of a block it makes the block
    read as empty. *)
Example unprintable_argument_sends_nothing :
  searchNotion Number_toString_int String_toNumber_none titles_provider
    unprintable ten [] = (Ok [], []) /\
  listRecentPages Number_toString_int String_toNumber_none titles_provider
    keep_order ten unprintable [] = (Ok [], []) /\
  getPageTitlesOnly Number_toString_int String_toNumber_none titles_provider
    unprintable ten [] = (Ok [], []) /\
  listAllPages Number_toString_int String_toNumber_none titles_provider
    unprintable [] = (Ok [], []) /\
  getPageContent Number_toString_int titles_provider unprintable []
    = (Ok "Error retrieving content", []) /\
  extractBlockText Number_toString_int
    (JObj [("type", unprintable);
           ("[object Object]",
            JObj [("rich_text", JArr [JObj [("plain_text", JStr "x")]])])])
    = "".
Proof. vm_compute. done. Qed.

(** A [get_page_titles_only] call with limit 3, end to end on the server:
    one request of page size 3, and the titles as one JSON text. *)
Example titles_only_scenario :
  CallTool Number_toString_int String_toNumber_none titles_provider keep_order
    "get_page_titles_only" (JObj [("limit", JNum (num_of_Z 3))]) []
  = (Ok (text_result
           (JStr (json "[{'id':'p1','title':'Doc A','url':'https://n/p1'},{'title':'Untitled','url':''}]"))),
     [Search (JObj [("filter", page_filter);
                    ("page_size", JNum (num_of_Z 3))])]).
Proof. vm_compute. reflexivity. Qed.

Lemma text_extraction_is_total_witness :
  extractTitle untitled_page = JStr "Untitled" /\
  extractBlockText Number_toString_int JNull = "" /\
  extractBlockText Number_toString_int broken_block = "".
Proof.
  pose proof (text_extraction_is_total Number_toString_int)
    as (Htitle & _ & Hblock & _ & _ & _ & _ & Hraise).
  split_and!.
  - apply Htitle. reflexivity.
  - apply Hblock. reflexivity.
  - apply (Hraise broken_block (TypeError_read "null" "plain_text")). reflexivity.
Defined.

End Checks.

(* ===================================================================== *)
(** * Laws of the request life cycle                                      *)
(* ===================================================================== *)
Module ClientLaws.
Import JS JSFacts Client Lifecycle ClientSpec.

(** ** Pending entries and their timers *)

Lemma healthy_init : healthy init.
Proof.
  split_and!; [apply wf_init | |]; intros ? ? H; simpl in H; simplify_map_eq.
Qed.

Lemma fulfil_healthy i pd s st :
  pendingRequests st !! i = Some pd -> healthy st -> healthy (fulfil i pd s st).
Proof.
  intros Hl (Hw & Ha & Hd). split_and!; [by apply fulfil_wf | |].
  - intros j pd' Hj. rewrite fulfil_pending in Hj.
    apply lookup_delete_Some in Hj as [Hne Hj].
    destruct (Ha j pd' Hj) as (t' & Ht' & Hr' & Hp' & Hs').
    destruct (Ha i pd Hl) as (t & Ht & Hr & Hp & Hs).
    destruct Hw as (Hwp & _ & _).
    destruct (Hwp i pd Hl) as [Ei _]. destruct (Hwp j pd' Hj) as [Ej _].
    assert (Hh : p_timeout pd <> p_timeout pd').
    { intros E. rewrite E in Ht. congruence. }
    exists t'. rewrite fulfil_timers, fulfil_settled_cases.
    split_and!; [by rewrite lookup_delete_ne | done | done |].
    case_match; [done|]. rewrite lookup_insert_ne; [done|congruence].
  - intros h t Ht. rewrite fulfil_timers in Ht.
    apply lookup_delete_Some in Ht as [_ Ht].
    rewrite (proj1 (proj2 (proj2 (proj2 (fulfil_frame i pd s st))))). eauto.
Qed.

Lemma discard_healthy i st : healthy st -> healthy (discard i st).
Proof.
  intros (Hw & Ha & Hd). split_and!; [by apply discard_wf | | done].
  intros j pd' Hj. simpl in Hj. apply lookup_delete_Some in Hj as [_ Hj].
  destruct (Ha j pd' Hj) as (t' & ? & ? & ? & ?). by exists t'.
Qed.

Lemma fire_timeout_healthy h st : healthy st -> healthy (fire_timeout h st).
Proof.
  intros (Hw & Ha & Hd). split; [by apply fire_timeout_wf|].
  unfold fire_timeout.
  destruct (timers st !! h) as [t|] eqn:Hh; [|done].
  destruct (t_due t <=? now st)%Z; [|done].
  destruct Hw as (Hwp & Hwt & _). destruct (Hwt h t Hh) as (Et & Hnone & _).
  unfold settle. simpl. rewrite Et, Hnone. split.
  - intros j pd' Hj. simpl in Hj.
    apply lookup_delete_Some in Hj as [Hne Hj].
    destruct (Ha j pd' Hj) as (t' & Ht' & Hr' & Hp' & Hs').
    destruct (Hwp j pd' Hj) as [Ej _].
    assert (Hh' : h <> p_timeout pd').
    { intros E. rewrite <- E in Ht'. congruence. }
    exists t'. simpl. split_and!; [by rewrite lookup_delete_ne | done | done |].
    rewrite lookup_insert_ne; [done|congruence].
  - intros h' t' Ht'. simpl in Ht'. apply lookup_delete_Some in Ht' as [_ Ht'].
    simpl. eauto.
Qed.

Lemma sendMCPRequest_healthy r st :
  healthy st -> healthy (snd (sendMCPRequest r st)).
Proof.
  intros (Hw & Ha & Hd). split; [by apply sendMCPRequest_wf|].
  destruct (fresh_unused st Hw) as [Hfresh Htfresh].
  destruct Hw as (Hwp & Hwt & _).
  unfold sendMCPRequest. destruct (mcpProcess st); simpl.
  - split.
    + intros j pd' Hj. simpl in Hj.
      apply lookup_insert_Some in Hj as [[<- <-] | [Hne Hj]]; simpl.
      * eexists. rewrite lookup_insert_eq. done.
      * destruct (Ha j pd' Hj) as (t' & Ht' & Hr' & Hp' & Hs').
        destruct (Hwp j pd' Hj) as [_ Hlt].
        exists t'. split_and!; [|done..]. rewrite lookup_insert_ne by lia. done.
    + intros h t Ht. simpl in Ht.
      apply lookup_insert_Some in Ht as [[<- <-] | [_ Ht]]; simpl; [lia|eauto].
  - unfold settle. simpl. rewrite Hfresh. split.
    + intros j pd' Hj. simpl in Hj.
      destruct (Ha j pd' Hj) as (t' & Ht' & Hr' & Hp' & Hs').
      destruct (Hwp j pd' Hj) as [Ej Hlt].
      exists t'. simpl. split_and!; [done..|].
      rewrite lookup_insert_ne by lia. done.
    + intros h t Ht. simpl in Ht. simpl. eauto.
Qed.

Lemma step_healthy JSON_parse Number_toString ev st : healthy st -> healthy (step JSON_parse Number_toString ev st).
Proof.
  intros H. unfold step. destruct (exited st); [done|].
  destruct ev; try done.
  - rewrite call_snd. by apply sendMCPRequest_healthy.
  - apply (handleMCPResponse_ind JSON_parse Number_toString healthy); [| |done].
    + intros x i pd Hx Hl. by apply discard_healthy.
    + intros x i pd s Hx Hl. by apply fulfil_healthy.
  - by apply fire_timeout_healthy.
  - unfold on_exit. by repeat case_match.
  - destruct H as (Hw & Ha & Hd). split_and!; [done | done |].
    intros h t Ht. simpl in *. specialize (Hd h t Ht). lia.
Qed.

Lemma run_healthy JSON_parse Number_toString evs : forall st,
  healthy st -> healthy (run JSON_parse Number_toString evs st).
Proof.
  induction evs as [|ev rest IH]; intros st H; [done|].
  rewrite run_cons. apply IH. by apply step_healthy.
Qed.

(** X2. In every state the client can reach, each entry of the pending
    map has its own armed timer, due at most 20 seconds from now, and an
    unsettled promise. No caller is left without a way out: once that
    time has passed, the timer's callback removes the entry and rejects the
    caller with the timeout message. *)
Theorem pending_entry_is_released
    (JSON_parse : string -> option JSValue)
    (Number_toString : JSNumber -> string) (evs : list Event)
    (i : Z) (pd : Pending) :
  let st := run JSON_parse Number_toString evs init in
  pendingRequests st !! i = Some pd ->
  exists t,
    timers st !! p_timeout pd = Some t /\
    t_request t = i /\
    settled st !! p_promise pd = None /\
    (t_due t <= now st + 20000)%Z /\
    (exited st = None ->
     let st' := run JSON_parse Number_toString [Elapse 20000; Timeout (p_timeout pd)] st in
     pendingRequests st' !! i = None /\
     timers st' !! p_timeout pd = None /\
     settled st' !! p_promise pd = Some (Rejected (JStr timeout_message))).
Proof.
  intros st Hl.
  destruct (run_healthy JSON_parse Number_toString evs init healthy_init) as (Hw & Ha & Hd).
  fold st in Hw, Ha, Hd.
  destruct (Ha i pd Hl) as (t & Ht & Hr & Hp & Hs).
  exists t. split_and!; [done | done | done | exact (Hd _ _ Ht) |].
  intros Halive st'.
  assert (E1 : step JSON_parse Number_toString (Elapse 20000) st = set_now (now st + 20000)%Z st).
  { unfold step. by rewrite Halive. }
  assert (E : st' = fire_timeout (p_timeout pd) (set_now (now st + 20000)%Z st)).
  { unfold st', run. simpl. rewrite E1. unfold step. simpl. by rewrite Halive. }
  rewrite E. clear E E1 st'. unfold fire_timeout. simpl. rewrite Ht.
  pose proof (Hd _ _ Ht) as Hdue. unfold timeout_ms in Hdue.
  destruct (Z.leb_spec (t_due t) (now st + 20000)); [|lia].
  unfold settle. simpl. rewrite Hp, Hs, Hr. simpl.
  by rewrite !lookup_delete_eq, lookup_insert_eq.
Qed.

(** ** Timers and their entries *)

(** ** One settlement for each promise *)

Lemma settlements_app p l1 l2 :
  settlements p (l1 ++ l2)%list = settlements p l1 + settlements p l2.
Proof. induction l1 as [|[] l1 IH]; simpl; rewrite ?IH; lia. Qed.

Lemma settle_once p s st :
  settled st !! p = None -> settled_once st -> settled_once (settle p s st).
Proof.
  intros Hn H q. unfold settle. rewrite Hn. simpl. rewrite settlements_app, H. simpl.
  destruct (Nat.eqb_spec p q) as [<-|Hne].
  - by rewrite lookup_insert_eq, Hn.
  - rewrite lookup_insert_ne by done. lia.
Qed.

Lemma discard_once i st : settled_once st -> settled_once (discard i st).
Proof. intros H p. simpl. rewrite settlements_app, H. simpl. lia. Qed.

Lemma fulfil_once i pd s st :
  settled st !! p_promise pd = None -> settled_once st ->
  settled_once (fulfil i pd s st).
Proof.
  intros Hn H q. rewrite fulfil_log, fulfil_settled by done.
  rewrite settlements_app, H. simpl.
  destruct (Nat.eqb_spec (p_promise pd) q) as [<-|Hne].
  - by rewrite lookup_insert_eq, Hn.
  - rewrite lookup_insert_ne by done. lia.
Qed.

Lemma fire_timeout_once h st :
  wf st -> settled_once st -> settled_once (fire_timeout h st).
Proof.
  intros (_ & Hwt & _) H. unfold fire_timeout.
  destruct (timers st !! h) as [t|] eqn:Hh; [|done].
  destruct (t_due t <=? now st)%Z; [|done].
  destruct (Hwt h t Hh) as (Et & Hnone & _).
  apply settle_once; [simpl; by rewrite Et|].
  intros p. simpl. rewrite !settlements_app, H. simpl. lia.
Qed.

Lemma sendMCPRequest_once r st :
  wf st -> settled_once st -> settled_once (snd (sendMCPRequest r st)).
Proof.
  intros Hw H. destruct (fresh_unused st Hw) as [Hfresh _].
  unfold sendMCPRequest. destruct (mcpProcess st); simpl.
  - intros p. simpl. rewrite !settlements_app, H. simpl. lia.
  - apply settle_once; [done|]. intros p. apply H.
Qed.

Lemma step_once JSON_parse Number_toString ev st :
  healthy st -> settled_once st ->
  settled_once (step JSON_parse Number_toString ev st).
Proof.
  intros Hh H. unfold step. destruct (exited st); [done|].
  destruct ev; try done.
  - rewrite call_snd. apply sendMCPRequest_once; [apply Hh | done].
  - refine (proj2 (handleMCPResponse_ind JSON_parse Number_toString
                     (fun x => healthy x /\ settled_once x) _ _ _ _ _));
      [| | done].
    + intros x i pd [Hx Hs] Hl.
      split; [by apply discard_healthy | by apply discard_once].
    + intros x i pd s [Hx Hs] Hl. split; [by apply fulfil_healthy|].
      apply fulfil_once; [|done]. destruct Hx as (_ & Ha & _).
      by destruct (Ha i pd Hl) as (t & _ & _ & _ & Hn).
  - apply fire_timeout_once; [apply Hh | done].
  - unfold on_exit. repeat case_match; try done;
      intros q; simpl; rewrite settlements_app, H; simpl; lia.
Qed.

Lemma run_once JSON_parse Number_toString evs : forall st,
  healthy st -> settled_once st ->
  settled_once (run JSON_parse Number_toString evs st).
Proof.
  induction evs as [|ev rest IH]; intros st Hh H; [done|].
  rewrite run_cons. apply IH; [by apply step_healthy | by apply step_once].
Qed.

(** X1. The client settles each promise at most once.  In every state it
    can reach, the log holds at most one call of [resolve] or [reject] for
    a promise, and holds one exactly when the promise is settled; by then
    no armed timer and no entry of the pending map is left that could
    settle it again, so that neither a late or duplicate response nor the
    timeout calls its [resolve] or [reject] a second time. *)
Theorem each_promise_settled_once
    (JSON_parse : string -> option JSValue)
    (Number_toString : JSNumber -> string) (evs : list Event) (p : nat) :
  let st := run JSON_parse Number_toString evs init in
  settlements p (log st) <= 1 /\
  (settlements p (log st) = 1 <-> is_Some (settled st !! p)) /\
  (is_Some (settled st !! p) ->
     (forall h t, timers st !! h = Some t -> t_promise t <> p) /\
     (forall i pd, pendingRequests st !! i = Some pd -> p_promise pd <> p)).
Proof.
  intros st.
  assert (Hh : healthy st) by apply run_healthy, healthy_init.
  assert (Ho : settled_once st).
  { apply run_once; [apply healthy_init|]. intros q. reflexivity. }
  specialize (Ho p). destruct Hh as ((_ & Hwt & _) & Ha & _).
  split_and!.
  - rewrite Ho. case_match; lia.
  - rewrite Ho. destruct (settled st !! p); split; intros H; try done.
  - intros [s Hs]. split.
    + intros h t Ht E. destruct (Hwt h t Ht) as (Et & Hn & _). congruence.
    + intros i pd Hl E. destruct (Ha i pd Hl) as (t & _ & _ & _ & Hn). congruence.
Qed.

Lemma timers_owned_init : timers_owned init.
Proof.
  split_and!; [| | |done]; intros; simpl in *; simplify_map_eq.
Qed.

Lemma discard_owned i st : timers_owned st -> timers_owned (discard i st).
Proof.
  intros (Ho & Hb & Hk & H0). unfold timers_owned, discard. simpl.
  split_and!; [| done | | done].
  - intros h t pd Ht Hl. apply lookup_delete_Some in Hl as [_ Hl]. eauto.
  - intros j pd' Hj. apply lookup_delete_Some in Hj as [_ Hj]. eauto.
Qed.

Lemma fulfil_owned i pd s st :
  timers_owned st -> timers_owned (fulfil i pd s st).
Proof.
  intros (Ho & Hb & Hk & H0). unfold timers_owned.
  rewrite fulfil_pending, fulfil_timers, (proj1 (fulfil_frame i pd s st)).
  split_and!; [| | |done].
  - intros h t pd' Ht Hl. apply lookup_delete_Some in Ht as [_ Ht].
    apply lookup_delete_Some in Hl as [_ Hl]. eauto.
  - intros h t Ht. apply lookup_delete_Some in Ht as [_ Ht]. eauto.
  - intros j pd' Hj. apply lookup_delete_Some in Hj as [_ Hj]. eauto.
Qed.

Lemma fire_timeout_owned h st :
  wf st -> timers_owned st -> timers_owned (fire_timeout h st).
Proof.
  intros (_ & Hwt & _) (Ho & Hb & Hk & H0). unfold fire_timeout.
  destruct (timers st !! h) as [t|] eqn:Hh; [|done].
  destruct (t_due t <=? now st)%Z; [|done].
  destruct (Hwt h t Hh) as (Et & Hnone & _).
  unfold settle. simpl. rewrite Et, Hnone. unfold timers_owned. simpl.
  split_and!; [| | |done].
  - intros h' t' pd' Ht' Hl. apply lookup_delete_Some in Ht' as [_ Ht'].
    apply lookup_delete_Some in Hl as [_ Hl]. eauto.
  - intros h' t' Ht'. apply lookup_delete_Some in Ht' as [_ Ht']. eauto.
  - intros j pd' Hj. apply lookup_delete_Some in Hj as [_ Hj]. eauto.
Qed.

Lemma increment_ge n : (n <= increment n)%Z.
Proof. unfold increment. case_match; lia. Qed.

Lemma call_owned method params st :
  wf st -> (requestId st < 2 ^ 53)%Z ->
  timers_owned st -> timers_owned (snd (call method params st)).
Proof.
  intros Hw Hlt (Ho & Hb & Hk & H0). rewrite call_snd.
  destruct (fresh_unused st Hw) as [Hfresh Htfresh].
  rewrite increment_exact by done.
  unfold sendMCPRequest. simpl. destruct (mcpProcess st); simpl.
  - unfold timers_owned. simpl. split_and!; [| | |lia].
    + intros h t pd Ht Hl.
      apply lookup_insert_Some in Ht as [[<- <-] | [Hne Ht]]; simpl in *.
      * rewrite lookup_insert_eq in Hl. by injection Hl as <-.
      * pose proof (Hb h t Ht).
        rewrite lookup_insert_ne in Hl by lia. eauto.
    + intros h t Ht. apply lookup_insert_Some in Ht as [[<- <-] | [_ Ht]]; simpl; [lia|].
      apply Hb in Ht. lia.
    + intros j pd' Hj. apply lookup_insert_Some in Hj as [[<- _] | [_ Hj]]; [lia|].
      apply Hk in Hj. lia.
  - unfold settle. simpl. rewrite Hfresh. unfold timers_owned. simpl.
    split_and!; [done | | | lia].
    + intros h t Ht. apply Hb in Ht. lia.
    + intros j pd' Hj. apply Hk in Hj. lia.
Qed.

Lemma step_owned JSON_parse Number_toString ev st :
  wf st -> (requestId st + (if is_call ev then 1 else 0) <= 2 ^ 53)%Z ->
  timers_owned st -> timers_owned (step JSON_parse Number_toString ev st).
Proof.
  intros Hw Hb H. unfold step. destruct (exited st); [done|].
  destruct ev; try done.
  - apply call_owned; [done | simpl in Hb; lia | done].
  - apply (handleMCPResponse_ind JSON_parse Number_toString timers_owned); [| |done].
    + intros x i pd Hx Hl. by apply discard_owned.
    + intros x i pd s Hx Hl. by apply fulfil_owned.
  - by apply fire_timeout_owned.
  - unfold on_exit. by repeat case_match.
Qed.

Lemma run_owned JSON_parse Number_toString evs : forall st,
  wf st -> (requestId st + Z.of_nat (calls evs) <= 2 ^ 53)%Z ->
  timers_owned st -> timers_owned (run JSON_parse Number_toString evs st).
Proof.
  induction evs as [|ev rest IH]; intros st Hw Hb H; [done|].
  rewrite run_cons. simpl in Hb. apply IH.
  - by apply step_wf.
  - rewrite step_requestId.
    destruct (is_call ev); simpl in *; [|lia].
    destruct (bool_decide (exited st = None)); [|lia].
    destruct H as (_ & _ & _ & H0). rewrite increment_exact by lia. lia.
  - apply step_owned; [done | destruct (is_call ev); lia | done].
Qed.

(** X3. While the counter is in its exact range, an armed timer stands
    for no request but its own: the entry under the id it was set for, if
    it is still in the map, is the entry that holds this timer, and no
    entry under another id holds it.  So a timeout that fires removes at
    most the entry of its own request, and every other pending entry
    stays.  (The entry may be gone while the timer is armed: a response
    whose error message cannot be made a string removes it and stops
    there.) *)
Theorem timer_belongs_to_its_request
    (JSON_parse : string -> option JSValue)
    (Number_toString : JSNumber -> string) (evs : list Event)
    (h : nat) (t : Timer) :
  let st := run JSON_parse Number_toString evs init in
  (Z.of_nat (calls evs) <= 2 ^ 53)%Z ->
  timers st !! h = Some t ->
  t_promise t = h /\
  (forall pd, pendingRequests st !! t_request t = Some pd ->
              pd = {| p_timeout := h; p_promise := h |}) /\
  (forall j pd, pendingRequests st !! j = Some pd -> p_timeout pd = h ->
                j = t_request t) /\
  (forall j pd, pendingRequests st !! j = Some pd -> p_timeout pd <> h ->
                pendingRequests (fire_timeout h st) !! j = Some pd).
Proof.
  intros st Hb Ht.
  assert (Hw : wf st) by apply run_wf, wf_init.
  destruct (run_owned JSON_parse Number_toString evs init wf_init) as (Ho & _ & _);
    [simpl; lia | apply timers_owned_init |].
  destruct (run_healthy JSON_parse Number_toString evs init healthy_init) as (_ & Ha & _).
  fold st in Ho, Ha.
  destruct Hw as (_ & Hwt & _). destruct (Hwt h t Ht) as (Ep & Hnone & _).
  assert (Hown : forall pd, pendingRequests st !! t_request t = Some pd ->
                            pd = {| p_timeout := h; p_promise := h |}).
  { intros pd Hl. rewrite <- Ep at 2. eauto. }
  split_and!; [done | done | |].
  - intros j pd Hj Eh. destruct (Ha j pd Hj) as (t' & Ht' & Hr' & _).
    rewrite Eh, Ht in Ht'. by injection Ht' as <-.
  - intros j pd Hj Hne. unfold fire_timeout. rewrite Ht.
    destruct (t_due t <=? now st)%Z; [|done].
    unfold settle. simpl. rewrite Ep, Hnone. simpl.
    rewrite lookup_delete_ne; [done|]. intros E. subst j.
    apply Hown in Hj. subst pd. done.
Qed.

(** ** Responses in any order *)

Lemma handle_line_handled JSON_parse Number_toString st line response id i pd :
  JSON_parse line = Some response -> Get response "id" = Ok id ->
  key_of id = Some i -> pendingRequests st !! i = Some pd ->
  handle_line JSON_parse Number_toString st line
  = handled i pd (outcome_of Number_toString response) st.
Proof.
  intros Hp Hid Hk Hl. unfold handle_line, handled.
  destruct (outcome_of Number_toString response) as [s|] eqn:Ho.
  - by erewrite handle_line_fulfils.
  - destruct (handle_line_throws JSON_parse Number_toString st line
                _ _ _ _ Hp Hid Hk Hl Ho) as [e ->]. done.
Qed.

Lemma handled_pending i pd o st :
  pendingRequests (handled i pd o st) = delete i (pendingRequests st).
Proof. destruct o; [apply fulfil_pending | done]. Qed.

Lemma handled_timers i pd o st :
  timers (handled i pd o st) =
  match o with Some _ => delete (p_timeout pd) (timers st) | None => timers st end.
Proof. destruct o; [apply fulfil_timers | done]. Qed.

Lemma handled_settled i pd o st :
  settled st !! p_promise pd = None ->
  settled (handled i pd o st) =
  match o with Some s => <[p_promise pd := s]> (settled st) | None => settled st end.
Proof. intros H. destruct o; [by apply fulfil_settled | done]. Qed.

(** X4. Responses to two different pending requests can arrive in either
    order: whichever comes first, both entries leave the map and each
    caller gets the outcome its own response carries, with its timer
    cleared; a response whose error message cannot be made a string
    leaves its caller waiting and the timer armed, in either order.
    Correlation is by id alone. *)
Theorem responses_in_either_order
    (JSON_parse : string -> option JSValue)
    (Number_toString : JSNumber -> string) (evs : list Event)
    (line1 line2 : string) (r1 r2 id1 id2 : JSValue) (i j : Z)
    (pd1 pd2 : Pending) :
  let st := run JSON_parse Number_toString evs init in
  JSON_parse line1 = Some r1 -> Get r1 "id" = Ok id1 -> key_of id1 = Some i ->
  JSON_parse line2 = Some r2 -> Get r2 "id" = Ok id2 -> key_of id2 = Some j ->
  pendingRequests st !! i = Some pd1 ->
  pendingRequests st !! j = Some pd2 ->
  i <> j ->
  let a := handle_line JSON_parse Number_toString
             (handle_line JSON_parse Number_toString st line1) line2 in
  let b := handle_line JSON_parse Number_toString
             (handle_line JSON_parse Number_toString st line2) line1 in
  pendingRequests a = pendingRequests b /\
  timers a = timers b /\
  settled a = settled b /\
  pendingRequests a = delete j (delete i (pendingRequests st)) /\
  settled a !! p_promise pd1 = outcome_of Number_toString r1 /\
  settled a !! p_promise pd2 = outcome_of Number_toString r2 /\
  (timers a !! p_timeout pd1 = None <-> is_Some (outcome_of Number_toString r1)) /\
  (timers a !! p_timeout pd2 = None <-> is_Some (outcome_of Number_toString r2)).
Proof.
  intros st Hp1 Hid1 Hk1 Hp2 Hid2 Hk2 Hl1 Hl2 Hne a b.
  destruct (run_healthy JSON_parse Number_toString evs init healthy_init) as (Hw & Ha & _).
  fold st in Hw, Ha.
  destruct (Ha i pd1 Hl1) as (t1 & Ht1 & Hr1 & Hq1 & Hs1).
  destruct (Ha j pd2 Hl2) as (t2 & Ht2 & Hr2 & Hq2 & Hs2).
  destruct Hw as (Hwp & _ & _).
  destruct (Hwp i pd1 Hl1) as [E1 _]. destruct (Hwp j pd2 Hl2) as [E2 _].
  assert (Hh : p_timeout pd1 <> p_timeout pd2).
  { intros E. rewrite E in Ht1. congruence. }
  assert (Hpp : p_promise pd1 <> p_promise pd2) by congruence.
  set (o1 := outcome_of Number_toString r1). set (o2 := outcome_of Number_toString r2).
  assert (Ea : a = handled j pd2 o2 (handled i pd1 o1 st)).
  { unfold a.
    rewrite (handle_line_handled JSON_parse Number_toString st line1 r1 id1 i pd1)
      by done.
    apply (handle_line_handled _ _ _ line2 r2 id2 j pd2); [done..|].
    rewrite handled_pending, lookup_delete_ne; done. }
  assert (Eb : b = handled i pd1 o1 (handled j pd2 o2 st)).
  { unfold b.
    rewrite (handle_line_handled JSON_parse Number_toString st line2 r2 id2 j pd2)
      by done.
    apply (handle_line_handled _ _ _ line1 r1 id1 i pd1); [done..|].
    rewrite handled_pending, lookup_delete_ne; done. }
  assert (Sa : settled a =
    match o2 with
    | Some s2 => <[p_promise pd2 := s2]>
    | None => fun m => m
    end (match o1 with
         | Some s1 => <[p_promise pd1 := s1]> (settled st)
         | None => settled st
         end)).
  { rewrite Ea, handled_settled.
    - rewrite handled_settled by done. by destruct o2.
    - rewrite handled_settled by done. destruct o1; [|done].
      by rewrite lookup_insert_ne. }
  assert (Sb : settled b =
    match o1 with
    | Some s1 => <[p_promise pd1 := s1]>
    | None => fun m => m
    end (match o2 with
         | Some s2 => <[p_promise pd2 := s2]> (settled st)
         | None => settled st
         end)).
  { rewrite Eb, handled_settled.
    - rewrite handled_settled by done. by destruct o1.
    - rewrite handled_settled by done. destruct o2; [|done].
      by rewrite lookup_insert_ne. }
  assert (Ta : timers a =
    match o2 with
    | Some _ => delete (p_timeout pd2)
    | None => fun m => m
    end (match o1 with
         | Some _ => delete (p_timeout pd1) (timers st)
         | None => timers st
         end)).
  { rewrite Ea, !handled_timers. by destruct o2. }
  split_and!.
  - rewrite Ea, Eb, !handled_pending. apply delete_delete.
  - rewrite Ta, Eb, !handled_timers.
    destruct o1, o2; try done. apply delete_delete.
  - rewrite Sa, Sb. destruct o1, o2; try done. by apply insert_insert_ne.
  - by rewrite Ea, !handled_pending.
  - rewrite Sa. destruct o1, o2; simpl; by simplify_map_eq.
  - rewrite Sa. destruct o1, o2; simpl; by simplify_map_eq.
  - rewrite Ta. destruct o1, o2; simpl; split; intros H; simplify_map_eq;
      try done; try (by eexists); by destruct H.
  - rewrite Ta. destruct o1, o2; simpl; split; intros H; simplify_map_eq;
      try done; try (by eexists); by destruct H.
Qed.

(** ** Chunks cut at a line break *)

Lemma split_not_nil sep s : split sep s <> [].
Proof. destruct s as [|c s]; simpl; [done|]. repeat case_match; done. Qed.

Lemma split_app_sep sep x y :
  split sep (x +:+ String sep y) = (split sep x ++ split sep y)%list.
Proof.
  induction x as [|c x IH].
  - simpl. by rewrite Ascii.eqb_refl.
  - change (String c x +:+ String sep y) with (String c (x +:+ String sep y)).
    cbn [split]. rewrite IH. destruct (Ascii.eqb c sep); [done|].
    pose proof (split_not_nil sep x). by destruct (split sep x).
Qed.

Lemma lines_of_app x y :
  lines_of (x +:+ nl +:+ y) = (lines_of x ++ lines_of y)%list.
Proof.
  unfold lines_of. change (nl +:+ y) with (String newline y).
  by rewrite split_app_sep, filter_app.
Qed.

Lemma lines_of_nl x : lines_of (x +:+ nl) = lines_of x.
Proof.
  unfold lines_of, nl. rewrite split_app_sep, filter_app. simpl split.
  rewrite filter_cons_False by done. by rewrite filter_nil, app_nil_r.
Qed.

(** X5. Where the stream is cut at a line break, chunking does not
    matter: a chunk that holds complete lines followed by more text has the
    effect of the complete lines delivered first and the rest delivered in
    a chunk of its own, and the line break may travel with either part. *)
Theorem chunks_cut_at_line_breaks
    (JSON_parse : string -> option JSValue)
    (Number_toString : JSNumber -> string) (x y : string) (st : State) :
  handleMCPResponse JSON_parse Number_toString (x +:+ nl +:+ y) st
    = handleMCPResponse JSON_parse Number_toString y (handleMCPResponse JSON_parse Number_toString (x +:+ nl) st) /\
  handleMCPResponse JSON_parse Number_toString (x +:+ nl +:+ y) st
    = handleMCPResponse JSON_parse Number_toString (nl +:+ y) (handleMCPResponse JSON_parse Number_toString x st) /\
  handleMCPResponse JSON_parse Number_toString (x +:+ nl) st = handleMCPResponse JSON_parse Number_toString x st.
Proof.
  unfold handleMCPResponse. split_and!.
  - by rewrite lines_of_app, lines_of_nl, foldl_app.
  - rewrite lines_of_app, foldl_app.
    change (nl +:+ y) with ("" +:+ nl +:+ y). by rewrite (lines_of_app "" y).
  - by rewrite lines_of_nl.
Qed.

End ClientLaws.

(* ===================================================================== *)
(** * Laws of the tool handlers                                           *)
(* ===================================================================== *)
Module ServerLaws.
Import JS JSFacts JSON Server Listing ServerSpec.

(** ** Text extraction *)

Lemma title_loop_first values :
  title_loop values =
  match first_candidate values with
  | Some v =>
      match Get v "title" with
      | Ok (JArr (first :: _)) =>
          plain_text ← Get first "plain_text";
          Ok (or_else plain_text (JStr "Untitled"))
      | _ => Ok (JStr "Untitled")
      end
  | None => Ok (JStr "Untitled")
  end.
Proof.
  induction values as [|value rest IH]; [done|].
  assert (Hskip : typeof_object value = false ->
            title_loop (value :: rest) = title_loop rest).
  { intros Ht. cbn [title_loop]. by rewrite Ht, andb_false_r. }
  cbn [first_candidate].
  destruct value as [| |b|n|s|elems|props|name];
    try (rewrite Hskip by done; exact IH); try exact IH.
  cbn [title_loop truthy typeof_object andb has_property title_candidate].
  destruct (own props "type") as [ty|] eqn:Ety; [|exact IH].
  rewrite bind_Ok. cbn [Get]. rewrite Ety, bind_Ok.
  destruct (own props "title") as [title|] eqn:Et.
  - destruct (is_str ty "title") eqn:Hty.
    + rewrite bind_Ok.
      destruct title as [| | | | |[|first more]| |]; try exact IH.
      cbn [Get]. by rewrite Et.
    + destruct title as [| | | | |[|first more]| |]; exact IH.
  - destruct (is_str ty "title"); exact IH.
Qed.

(** X6. [extractTitle] takes the title from the first property, in the
    order of the property bag, that has type ['title'] and a non-empty
    [title] array: the [plain_text] of the first element of that array if
    it is truthy, ['Untitled'] if not. Later title properties are never
    looked at, even when the first one yields no text. *)
Theorem title_comes_from_first_title_property
    (page properties : JSValue) (values : list JSValue) :
  Get page "properties" = Ok properties ->
  truthy properties = true ->
  Object_values properties = Ok values ->
  extractTitle page =
    match first_candidate values with
    | Some v => candidate_title v
    | None => JStr "Untitled"
    end.
Proof.
  intros Hp Ht Hv. unfold extractTitle, extractTitle_try.
  rewrite Hp, bind_Ok, Ht. cbn [negb]. rewrite Hv, bind_Ok, title_loop_first.
  destruct (first_candidate values) as [v|]; [|done].
  unfold candidate_title. destruct (Get v "title") as [title|]; [|done].
  destruct title as [| | | | |[|first more]| |]; try done.
  by destruct (Get first "plain_text").
Qed.

Section Texts.
Variable Number_toString : JSNumber -> string.

Lemma plain_texts_strings parts ss :
  Forall2 (fun part s => Get part "plain_text" = Ok (JStr s)) parts ss ->
  plain_texts parts = Ok (map JStr ss).
Proof.
  induction 1 as [|part s parts ss Hp _ IH]; [done|].
  cbn [plain_texts]. rewrite Hp, bind_Ok, IH, bind_Ok. cbn [map].
  unfold or_else. simpl. by destruct (String.eqb s "") eqn:E;
    [apply String.eqb_eq in E as ->|].
Qed.

Lemma element_strings_strings ss :
  element_strings Number_toString (map JStr ss) = Ok ss.
Proof.
  induction ss as [|s ss IH]; [done|].
  cbn [map element_strings ToString primitive_ToString]. by rewrite bind_Ok, IH.
Qed.

Lemma Array_join_strings ss :
  Array_join Number_toString (map JStr ss) = Ok (join "" ss).
Proof. unfold Array_join. by rewrite element_strings_strings. Qed.

(** X7. For a block whose [type] can be made a property key and that
    carries data under that key, [extractBlockText] is the concatenation,
    in order and with nothing in between, of the [plain_text] strings of
    its [rich_text] array; the [text] array is read only when [rich_text]
    is not an array. *)
Theorem block_text_is_the_rich_text
    (block ty data : JSValue) (key : string) (parts : list JSValue)
    (ss : list string) :
  truthy block = true ->
  Get block "type" = Ok ty -> truthy ty = true ->
  ToString Number_toString ty = Ok key ->
  Get block key = Ok data -> truthy data = true ->
  Forall2 (fun part s => Get part "plain_text" = Ok (JStr s)) parts ss ->
  (Get data "rich_text" = Ok (JArr parts) ->
     extractBlockText Number_toString block = join "" ss) /\
  (forall other, Get data "rich_text" = Ok other -> Array_isArray other = false ->
     Get data "text" = Ok (JArr parts) ->
     extractBlockText Number_toString block = join "" ss).
Proof.
  intros Hb Hty Htt Hk Hd Hdt Hparts.
  pose proof (plain_texts_strings parts ss Hparts) as Hpt.
  unfold extractBlockText, extractBlockText_try.
  rewrite Hb. cbn [negb]. rewrite Hty, bind_Ok, Htt. cbn [negb].
  rewrite Hk, bind_Ok, Hd, bind_Ok, Hdt. cbn [negb]. split.
  - intros Hr. by rewrite Hr, bind_Ok, Hpt, bind_Ok, Array_join_strings.
  - intros other Hr Hna Ht. rewrite Hr, bind_Ok.
    destruct other; try done;
      by rewrite Ht, bind_Ok, Hpt, bind_Ok, Array_join_strings.
Qed.

(** ** Content and preview *)

Lemma append_cons (x : ascii) (a b : string) :
  String x a +:+ b = String x (a +:+ b).
Proof. done. Qed.

Lemma append_assoc (a b c : string) : (a +:+ b) +:+ c = a +:+ (b +:+ c).
Proof. induction a as [|x a IH]; [done|]. by rewrite !append_cons, IH. Qed.

Lemma append_nil_r (a : string) : a +:+ "" = a.
Proof. induction a as [|x a IH]; [done|]. by rewrite append_cons, IH. Qed.

Lemma content_loop_joined blocks : forall content,
  content_loop Number_toString blocks content =
  content +:+ joined_texts Client.nl (map (extractBlockText Number_toString) blocks).
Proof.
  induction blocks as [|block rest IH]; intros content;
    cbn [content_loop map joined_texts].
  - by rewrite append_nil_r.
  - destruct (nonblank (extractBlockText Number_toString block)).
    + rewrite IH. by rewrite !append_assoc.
    + apply IH.
Qed.

Lemma joined_all_blank sep texts :
  forallb (fun t => negb (nonblank t)) texts = true -> joined_texts sep texts = "".
Proof.
  induction texts as [|t rest IH]; simpl; [done|]. intros H.
  apply andb_true_iff in H as [Ht Hr]. apply negb_true_iff in Ht.
  rewrite Ht. by apply IH.
Qed.

Lemma forallb_over_map {A B} (f : B -> bool) (g : A -> B) (l : list A) :
  forallb f (map g l) = forallb (fun x => f (g x)) l.
Proof. induction l as [|x l IH]; simpl; [done|]. by rewrite IH. Qed.

Lemma str_or_nonempty s fallback : fallback <> "" -> str_or s fallback <> "".
Proof.
  intros Hf. unfold str_or. destruct (String.eqb_spec s ""); done.
Qed.

Lemma preview_loop_stops blocks more : forall preview,
  utf16_length preview <= 200 ->
  200 < utf16_length (preview_loop Number_toString blocks preview) ->
  preview_loop Number_toString (blocks ++ more) preview
  = preview_loop Number_toString blocks preview.
Proof.
  induction blocks as [|block rest IH]; intros preview Hle Hgt.
  - simpl in Hgt. lia.
  - cbn [preview_loop app] in *.
    destruct (nonblank (extractBlockText Number_toString block)); [|by apply IH].
    destruct (Nat.ltb_spec 200
                (utf16_length (preview +:+ extractBlockText Number_toString block +:+ " ")));
      [done|]. by apply IH.
Qed.

End Texts.

Section Handlers.
Variable Number_toString : JSNumber -> string.
Variable String_toNumber : string -> JSNumber.
Variable provider : list ProviderCall -> ProviderCall -> outcome JSValue.
Variable sort_by_created_time : list JSValue -> outcome (list JSValue).

Local Abbreviation getPagePreview := (getPagePreview Number_toString provider).
Local Abbreviation getPageContent := (getPageContent Number_toString provider).
Local Abbreviation searchNotion := (searchNotion Number_toString String_toNumber provider).
Local Abbreviation listRecentPages :=
  (listRecentPages Number_toString String_toNumber provider sort_by_created_time).
Local Abbreviation getPageTitlesOnly :=
  (getPageTitlesOnly Number_toString String_toNumber provider).
Local Abbreviation listAllPages := (listAllPages Number_toString String_toNumber provider).
Local Abbreviation CallTool :=
  (CallTool Number_toString String_toNumber provider sort_by_created_time).
Local Abbreviation extractBlockText := (extractBlockText Number_toString).

(** What a handler that sends the one request [c] returns. *)
Lemma one_request {A} c (k : JSValue -> outcome A) (h : Exn -> A) hist :
  catch (await provider c ≫= fun r => lift (k r)) h hist =
  (Ok (match provider hist c with
       | Ok r => match k r with Ok a => a | Throw e => h e end
       | Throw e => h e
       end), (hist ++ [c])%list).
Proof.
  unfold catch. rewrite bind_run. unfold await, lift.
  destruct (provider hist c) as [r|e]; [|done]. by destruct (k r).
Qed.

Lemma getPageContent_run pageId hist :
  getPageContent pageId hist =
  match ToString Number_toString pageId with
  | Ok _ =>
      (Ok (match provider hist (content_request pageId) with
           | Ok blocks =>
               match Get blocks "results" ≫= iterate with
               | Ok items =>
                   str_or (trim (content_loop Number_toString items ""))
                          "No content found"
               | Throw _ => "Error retrieving content"
               end
           | Throw _ => "Error retrieving content"
           end), (hist ++ [content_request pageId])%list)
  | Throw _ => (Ok "Error retrieving content", hist)
  end.
Proof.
  destruct (ToString Number_toString pageId) as [text|e] eqn:Hp.
  - rewrite (getPageContent_logged _ _ pageId text) by done.
    unfold catch. rewrite bind_run. unfold await.
    destruct (provider hist (content_request pageId)) as [blocks|e]; [|done].
    rewrite bind_run. unfold lift.
    destruct (Get blocks "results") as [results|e]; [|done].
    rewrite bind_Ok, bind_run. by destruct (iterate results).
  - by rewrite (getPageContent_unlogged _ _ pageId hist e).
Qed.

Lemma getPagePreview_run pageId hist :
  getPagePreview pageId hist =
  (Ok (match provider hist (preview_request pageId) with
       | Ok blocks =>
           match Get blocks "results" ≫= iterate with
           | Ok items =>
               str_or (trim (preview_loop Number_toString items "")) "No preview available"
           | Throw _ => "Preview unavailable"
           end
       | Throw _ => "Preview unavailable"
       end), (hist ++ [preview_request pageId])%list).
Proof.
  unfold Server.getPagePreview, catch. rewrite bind_run. unfold await.
  destruct (provider hist (preview_request pageId)) as [blocks|e]; [|done].
  rewrite bind_run. unfold lift.
  destruct (Get blocks "results") as [results|e]; [|done].
  rewrite bind_Ok, bind_run. by destruct (iterate results).
Qed.

(** X8. [getPageContent] never returns the empty string and sends at
    most one request, for up to 100 blocks: exactly one where the page id
    can be printed in the log line, none where it cannot, and then the
    answer is [Error retrieving content]. When the provider answers with
    an array of blocks, the content is the texts of the non-blank blocks,
    in order, one per line, trimmed; if every block is blank it is the
    text [No content found]. *)
Theorem page_content_is_the_block_texts
    (pageId : JSValue) (hist : list ProviderCall) :
  (exists t h, getPageContent pageId hist = (Ok t, h) /\ t <> "" /\
               (h = hist \/ h = (hist ++ [content_request pageId])%list)) /\
  page_size (content_request pageId) = Ok hundred /\
  (forall e, ToString Number_toString pageId = Throw e ->
     getPageContent pageId hist = (Ok "Error retrieving content", hist)) /\
  (forall text,
     ToString Number_toString pageId = Ok text ->
     snd (getPageContent pageId hist) = (hist ++ [content_request pageId])%list /\
     forall response blocks,
       provider hist (content_request pageId) = Ok response ->
       Get response "results" = Ok (JArr blocks) ->
       fst (getPageContent pageId hist)
         = Ok (str_or (trim (joined_texts Client.nl (map extractBlockText blocks)))
                      "No content found") /\
       (forallb (fun b => negb (nonblank (extractBlockText b))) blocks = true ->
        fst (getPageContent pageId hist) = Ok "No content found")).
Proof.
  split_and!.
  - rewrite getPageContent_run.
    destruct (ToString Number_toString pageId); eexists _, _;
      (split; [reflexivity|]); (split; [|auto]); [|done].
    repeat case_match; try done; by apply str_or_nonempty.
  - done.
  - intros e He. rewrite getPageContent_run. by rewrite He.
  - intros text Hp. rewrite getPageContent_run, Hp. split; [done|].
    intros response blocks Hv Hr. simpl.
    rewrite Hv, Hr, bind_Ok. cbn [iterate].
    rewrite content_loop_joined. cbn [String.append]. split; [done|].
    intros Hb. rewrite joined_all_blank; [done|].
    by rewrite forallb_over_map.
Qed.

(** X9. [getPagePreview] sends exactly one request, for 3 blocks, and
    never returns the empty string. Its loop stops at the first block
    that takes the preview beyond 200 code units: whatever blocks follow,
    the preview is the same. *)
Theorem preview_stops_after_200
    (pageId : JSValue) (hist : list ProviderCall) :
  (exists t, getPagePreview pageId hist
               = (Ok t, (hist ++ [preview_request pageId])%list) /\ t <> "") /\
  page_size (preview_request pageId) = Ok (JNum (num_of_Z 3)) /\
  (forall blocks more,
     200 < utf16_length (preview_loop Number_toString blocks "") ->
     preview_loop Number_toString (blocks ++ more) ""
     = preview_loop Number_toString blocks "").
Proof.
  split_and!.
  - rewrite getPagePreview_run. eexists. split; [done|].
    repeat case_match; try done; by apply str_or_nonempty.
  - done.
  - intros blocks more H. apply preview_loop_stops; [simpl; lia | done].
Qed.

(** ** The list-style handlers, item by item *)

Lemma is_page_readable item :
  readable item = true -> is_page item = Ok (page_item item).
Proof.
  intros H. unfold page_item.
  destruct item as [| |b|n|s|elems|props|name]; try done.
  unfold is_page. cbn [Get]. destruct (own props "object") as [o|]; rewrite bind_Ok.
  - by destruct (is_str o "page").
  - by destruct (is_str (inherited "object") "page").
Qed.

Lemma is_page_unreadable item :
  readable item = false -> exists e, is_page item = Throw e.
Proof. destruct item; try done; intros _; unfold is_page; simpl; eauto. Qed.

Lemma page_item_object item :
  page_item item = true -> exists props, item = JObj props.
Proof.
  unfold page_item. destruct item as [| |b|n|s|elems|props|name]; try done; eauto.
Qed.

Lemma Get_object props k : exists v, Get (JObj props) k = Ok v.
Proof. simpl. destruct (own props k); eauto. Qed.

Lemma page_entry_object props : exists entry, page_entry (JObj props) = Ok entry.
Proof.
  unfold page_entry.
  destruct (Get_object props "id") as [? ->]. rewrite bind_Ok.
  destruct (Get_object props "created_time") as [? ->]. rewrite bind_Ok.
  destruct (Get_object props "last_edited_time") as [? ->]. rewrite bind_Ok.
  destruct (Get_object props "url") as [? ->]. rewrite bind_Ok. eauto.
Qed.

Lemma pages_loop_readable items : forall results,
  forallb readable items = true ->
  pages_loop items results = Ok (results ++ page_entries items)%list.
Proof.
  induction items as [|item rest IH]; intros results H.
  - simpl. by rewrite app_nil_r.
  - simpl in H. apply andb_true_iff in H as [Hi Hr].
    cbn [pages_loop page_entries flat_map]. rewrite is_page_readable, bind_Ok by done.
    destruct (page_item item) eqn:Hp.
    + destruct (page_item_object item Hp) as [props ->].
      destruct (page_entry_object props) as [entry He]. rewrite He, bind_Ok.
      rewrite IH by done. by rewrite <- app_assoc.
    + by apply IH.
Qed.

Lemma pages_loop_unreadable items : forall results,
  forallb readable items = false ->
  exists e, pages_loop items results = Throw e.
Proof.
  induction items as [|item rest IH]; intros results H; [done|].
  simpl in H. cbn [pages_loop]. destruct (readable item) eqn:Hi.
  - rewrite is_page_readable, bind_Ok by done. simpl in H.
    destruct (page_item item) eqn:Hp; [|by apply IH].
    destruct (page_item_object item Hp) as [props ->].
    destruct (page_entry_object props) as [entry He]. rewrite He, bind_Ok.
    by apply IH.
  - destruct (is_page_unreadable item Hi) as [e ->]. rewrite bind_Throw. eauto.
Qed.

Lemma titles_filter_readable items :
  forallb readable items = true ->
  titles_filter items = Ok (List.filter page_item items).
Proof.
  induction items as [|item rest IH]; intros H; [done|].
  simpl in H. apply andb_true_iff in H as [Hi Hr].
  cbn [titles_filter List.filter]. rewrite is_page_readable, bind_Ok by done.
  rewrite IH, bind_Ok by done. done.
Qed.

Lemma titles_filter_unreadable items :
  forallb readable items = false -> exists e, titles_filter items = Throw e.
Proof.
  induction items as [|item rest IH]; intros H; [done|].
  simpl in H. cbn [titles_filter]. destruct (readable item) eqn:Hi.
  - rewrite is_page_readable, bind_Ok by done. simpl in H.
    destruct (IH H) as [e ->]. rewrite bind_Throw. eauto.
  - destruct (is_page_unreadable item Hi) as [e ->]. rewrite bind_Throw. eauto.
Qed.

Lemma titles_map_pages items :
  forallb page_item items = true ->
  titles_map items = Ok (map title_record items).
Proof.
  induction items as [|item rest IH]; intros H; [done|].
  simpl in H. apply andb_true_iff in H as [Hi Hr].
  destruct (page_item_object item Hi) as [props ->].
  cbn [titles_map map]. unfold title_record at 1.
  destruct (Get_object props "id") as [id ->]. rewrite bind_Ok.
  destruct (Get_object props "url") as [url ->]. rewrite bind_Ok.
  by rewrite IH, bind_Ok.
Qed.

Lemma forallb_filter {A} (f : A -> bool) l : forallb f (List.filter f l) = true.
Proof.
  induction l as [|x l IH]; simpl; [done|].
  destruct (f x) eqn:E; simpl; [by rewrite E|done].
Qed.

(** X10. When the provider answers [listAllPages], [listRecentPages] or
    [getPageTitlesOnly] with an array of results, the handler, its log
    line printed and its limit made a page size, has sent that one request
    and returns one record for each page among the results, in the
    provider's order (re-sorted only for [created_time], and empty if that
    sort throws); results that are not pages are skipped. A single [null]
    or [undefined] among the results makes the handler return the empty
    list instead. *)
Theorem list_handlers_return_the_pages
    (query limit sortBy size response : JSValue) (tq tl ts : string)
    (items : list JSValue) (hist : list ProviderCall) :
  Get response "results" = Ok (JArr items) ->
  ToString Number_toString limit = Ok tl ->
  page_size_of Number_toString String_toNumber limit = Ok size ->
  (provider hist (all_request size) = Ok response ->
     listAllPages limit hist =
       (Ok (if forallb readable items then page_entries items else []),
        (hist ++ [all_request size])%list)) /\
  (ToString Number_toString sortBy = Ok ts ->
   provider hist (recent_request size) = Ok response ->
     listRecentPages limit sortBy hist =
       (Ok (if forallb readable items then
              if is_str sortBy "created_time"
              then match sort_by_created_time (page_entries items) with
                   | Ok sorted => sorted
                   | Throw _ => []
                   end
              else page_entries items
            else []),
        (hist ++ [recent_request size])%list)) /\
  (limit <> JUndefined ->
   ToString Number_toString query = Ok tq ->
   provider hist (titles_request query size) = Ok response ->
     getPageTitlesOnly query limit hist =
       (Ok (if forallb readable items
            then map title_record (List.filter page_item items) else []),
        (hist ++ [titles_request query size])%list)).
Proof.
  intros Hr Hl Hsize. split_and!.
  - intros Hp. rewrite listAllPages_guarded.
    rewrite (guarded_sends _ _ _ _ limit size);
      [|by rewrite (interpolate_cons _ _ tl) | done].
    unfold catch. rewrite bind_run.
    unfold await. rewrite Hp, bind_run. unfold lift. rewrite Hr, bind_run.
    cbn [iterate]. destruct (forallb readable items) eqn:Ha.
    + by rewrite pages_loop_readable.
    + by destruct (pages_loop_unreadable items [] Ha) as [e ->].
  - intros Hs Hp. rewrite listRecentPages_guarded.
    rewrite (guarded_sends _ _ _ _ limit size);
      [|by rewrite (interpolate_cons _ _ tl), (interpolate_cons _ _ ts) | done].
    unfold catch. rewrite bind_run.
    unfold await. rewrite Hp, bind_run. unfold lift. rewrite Hr, bind_run.
    cbn [iterate]. rewrite bind_run. destruct (forallb readable items) eqn:Ha.
    + rewrite pages_loop_readable by done. simpl.
      destruct (is_str sortBy "created_time"); [|done].
      by destruct (sort_by_created_time (page_entries items)).
    + by destruct (pages_loop_unreadable items [] Ha) as [e ->].
  - intros Hd Hq Hp. rewrite getPageTitlesOnly_guarded by done.
    destruct (or_else_all Number_toString query tq Hq) as [ta Hta].
    rewrite (guarded_sends _ _ _ _ limit size);
      [|by rewrite (interpolate_cons _ _ ta), (interpolate_cons _ _ tl) | done].
    unfold catch. rewrite bind_run.
    unfold await. rewrite Hp, bind_run. unfold lift. rewrite Hr, bind_run.
    destruct (forallb readable items) eqn:Ha.
    + rewrite titles_filter_readable by done.
      by rewrite titles_map_pages by apply forallb_filter.
    + by destruct (titles_filter_unreadable items Ha) as [e ->].
Qed.

Lemma search_loop_readable items : forall results hist,
  forallb readable items = true ->
  exists new,
    search_loop Number_toString provider items results hist
      = (Ok (results ++ new)%list, (hist ++ preview_requests items)%list) /\
    length new = length (preview_requests items) /\
    Forall (fun r => Get r "type" = Ok (JStr "page")) new.
Proof.
  induction items as [|item rest IH]; intros results hist H.
  - exists []. simpl. by rewrite !app_nil_r.
  - simpl in H. apply andb_true_iff in H as [Hi Hr].
    cbn [search_loop preview_requests flat_map]. rewrite bind_run. unfold lift.
    rewrite is_page_readable by done.
    destruct (page_item item) eqn:Hp.
    + destruct (page_item_object item Hp) as [props ->].
      destruct (Get_object props "id") as [id Hid].
      destruct (Get_object props "url") as [url Hurl].
      rewrite bind_run, Hid, bind_run, getPagePreview_run, bind_run, Hurl.
      match goal with
      | |- context [search_loop _ _ rest ?r ?h] =>
          destruct (IH r h Hr) as (new & E & Hlen & Hall); rewrite E
      end.
      eexists (_ :: new). rewrite <- !app_assoc. split_and!; [done | |].
      * simpl. by rewrite Hlen.
      * constructor; [done|exact Hall].
    + destruct (IH results hist Hr) as (new & -> & Hlen & Hall). by exists new.
Qed.

Lemma search_loop_unreadable items : forall results hist,
  forallb readable items = false ->
  exists e h, search_loop Number_toString provider items results hist = (Throw e, h).
Proof.
  induction items as [|item rest IH]; intros results hist H; [done|].
  simpl in H. cbn [search_loop]. rewrite bind_run. unfold lift.
  destruct (readable item) eqn:Hi.
  - rewrite is_page_readable by done. simpl in H.
    destruct (page_item item) eqn:Hp; [|by apply IH].
    destruct (page_item_object item Hp) as [props ->].
    destruct (Get_object props "id") as [id Hid].
    destruct (Get_object props "url") as [url Hurl].
    rewrite bind_run, Hid, bind_run, getPagePreview_run, bind_run, Hurl.
    by apply IH.
  - destruct (is_page_unreadable item Hi) as [e ->]. eauto.
Qed.

(** X11. When the provider answers [searchNotion] with an array of
    results, the handler, its log line printed and its limit made a page
    size, sends one further request for each page among them, a preview
    of 3 blocks asked by the page's id, in order, and returns one record of
    type ['page'] for each. A single [null] or [undefined] among the
    results makes it return the empty list, whatever pages came before. *)
Theorem search_asks_one_preview_per_page
    (query limit size response : JSValue) (tq tl : string)
    (items : list JSValue) (hist : list ProviderCall) :
  let search := search_request query size in
  ToString Number_toString query = Ok tq ->
  ToString Number_toString limit = Ok tl ->
  page_size_of Number_toString String_toNumber limit = Ok size ->
  provider hist search = Ok response ->
  Get response "results" = Ok (JArr items) ->
  (forallb readable items = true ->
     exists results,
       searchNotion query limit hist
         = (Ok results, (hist ++ search :: preview_requests items)%list) /\
       length results = length (preview_requests items) /\
       length results = length (List.filter page_item items) /\
       Forall (fun r => Get r "type" = Ok (JStr "page")) results) /\
  (forallb readable items = false ->
     fst (searchNotion query limit hist) = Ok []).
Proof.
  intros search Hq Hl Hsize Hp Hr.
  assert (E : searchNotion query limit hist =
              catch (items ← lift (iterate (JArr items));
                     search_loop Number_toString provider items [])
                    (fun _ => []) (hist ++ [search])%list).
  { rewrite searchNotion_guarded.
    rewrite (guarded_sends _ _ _ _ limit size);
      [|by rewrite (interpolate_cons _ _ tq), (interpolate_cons _ _ tl) | done].
    unfold catch. rewrite bind_run.
    unfold await. fold search. rewrite Hp, bind_run. unfold lift.
    rewrite Hr, bind_run. cbn [Get]. simpl (String.eqb _ _). cbv iota.
    rewrite bind_run. unfold console_error, lift. cbn [interpolate ToString].
    by rewrite bind_run. }
  rewrite E. unfold catch. rewrite bind_run. unfold lift. cbn [iterate]. split.
  - intros Ha.
    destruct (search_loop_readable items [] (hist ++ [search])%list Ha)
      as (new & -> & Hlen & Hall).
    exists new. rewrite <- app_assoc. split_and!; [done | done | | done].
    rewrite Hlen. clear. induction items as [|item rest IH]; [done|].
    cbn [preview_requests flat_map List.filter]. rewrite length_app.
    destruct (page_item item) eqn:Hp; [|done].
    destruct (page_item_object item Hp) as [props ->].
    destruct (Get_object props "id") as [id ->]. simpl. by rewrite <- IH.
  - intros Ha.
    by destruct (search_loop_unreadable items [] (hist ++ [search])%list Ha)
      as (e & h & ->).
Qed.

(** ** The result of a [tools/call] *)

Lemma Get_readable v k : readable v = true -> exists x, Get v k = Ok x.
Proof.
  destruct v as [| |b|n|s|elems|props|name]; try done; intros _; simpl; eauto.
  - destruct (String.eqb k "length"); eauto.
  - destruct (String.eqb k "length"); eauto. destruct (index_of_key k); eauto.
  - destruct (own props k); eauto.
Qed.

Lemma Get_unreadable v k : readable v = false -> exists e, Get v k = Throw e.
Proof. destruct v; try done; intros _; simpl; eauto. Qed.

Lemma cons_text_nonempty (c : ascii) (a b : string) : String c a +:+ b <> "".
Proof. by rewrite append_cons. Qed.

Lemma array_text l :
  exists t, JSON_stringify Number_toString (JArr l) = JStr t /\ t <> "".
Proof.
  unfold JSON_stringify. cbn [stringify]. eexists. split; [done|].
  apply cons_text_nonempty.
Qed.

Lemma error_text e :
  exists t, error_result Number_toString e =
              {| content := [ {| type_ := "text"; text := JStr t |} ];
                 isError := true |} /\ t <> "".
Proof.
  unfold error_result, JSON_stringify. cbn [stringify]. eexists.
  split; [done|]. apply cons_text_nonempty.
Qed.

Lemma getPageContent_text pageId hist :
  exists t h, getPageContent pageId hist = (Ok t, h) /\ t <> "".
Proof.
  rewrite getPageContent_run.
  destruct (ToString Number_toString pageId); eexists _, _;
    (split; [reflexivity|]); [|done].
  repeat case_match; try done; by apply str_or_nonempty.
Qed.

Lemma CallTool_get_page_content args pageId hist :
  Get args "pageId" = Ok pageId ->
  CallTool "get_page_content" args hist =
  match getPageContent pageId hist with
  | (Ok t, h) => (Ok (text_result (JStr t)), h)
  | (Throw e, h) => (Ok (error_result Number_toString e), h)
  end.
Proof.
  intros Hp. unfold Server.CallTool, dispatch, catch.
  simpl (String.eqb _ _). cbv iota. unfold lift.
  repeat (rewrite bind_run; rewrite ?Hp).
  by destruct (getPageContent _ _) as [[?|?] ?].
Qed.

Lemma CallTool_unknown name args hist :
  ~ In name tool_names ->
  CallTool name args hist =
  (Ok (error_result Number_toString (JSError ("Unknown tool: " +:+ name))), hist).
Proof.
  intros Hn. destruct (eqb_false_of_not_in name Hn) as (E1 & E2 & E3 & E4 & E5).
  unfold Server.CallTool, dispatch, catch. by rewrite E1, E2, E3, E4, E5.
Qed.

Lemma CallTool_no_arguments name args hist :
  In name tool_names -> readable args = false ->
  exists e, CallTool name args hist = (Ok (error_result Number_toString e), hist).
Proof.
  intros Hin Hr. unfold tool_names in Hin. simpl in Hin.
  destruct (Get_unreadable args "query" Hr) as [e1 H1].
  destruct (Get_unreadable args "limit" Hr) as [e2 H2].
  destruct (Get_unreadable args "pageId" Hr) as [e3 H3].
  destruct Hin as [<- | [<- | [<- | [<- | [<- | []]]]]];
    unfold Server.CallTool, dispatch, catch; simpl (String.eqb _ _); cbv iota;
    unfold lift; rewrite bind_run, ?H1, ?H2, ?H3; eauto.
Qed.

Lemma CallTool_with_arguments name args hist :
  In name tool_names -> readable args = true ->
  exists t h, CallTool name args hist = (Ok (text_result (JStr t)), h) /\ t <> "".
Proof.
  intros Hin Hr. unfold tool_names in Hin. simpl in Hin.
  destruct (Get_readable args "query" Hr) as [q Hq].
  destruct (Get_readable args "limit" Hr) as [l Hl].
  destruct (Get_readable args "sort" Hr) as [s Hs].
  destruct (Get_readable args "pageId" Hr) as [p Hp].
  destruct Hin as [<- | [<- | [<- | [<- | [<- | []]]]]].
  - rewrite (CallTool_search_notion _ _ _ _ args q l) by done.
    destruct (searchNotion q (or_else l ten) hist) as [[a|e] h] eqn:E.
    + destruct (array_text a) as (t & -> & Ht). eauto.
    + exfalso. unfold Server.searchNotion in E.
      match type of E with catch ?m ?f ?x = _ =>
        destruct (catch_total m f x) as (? & ? & E') end. congruence.
  - rewrite (CallTool_list_recent_pages _ _ _ _ args l s) by done.
    destruct (listRecentPages (or_else l ten) (or_else s (JStr "last_edited_time")) hist)
      as [[a|e] h] eqn:E.
    + destruct (array_text a) as (t & -> & Ht). eauto.
    + exfalso. unfold Server.listRecentPages in E.
      match type of E with catch ?m ?f ?x = _ =>
        destruct (catch_total m f x) as (? & ? & E') end. congruence.
  - rewrite (CallTool_get_page_titles_only _ _ _ _ args q l) by done.
    destruct (getPageTitlesOnly q (or_else l ten) hist) as [[a|e] h] eqn:E.
    + destruct (array_text a) as (t & -> & Ht). eauto.
    + exfalso. unfold Server.getPageTitlesOnly in E.
      match type of E with catch ?m ?f ?x = _ =>
        destruct (catch_total m f x) as (? & ? & E') end. congruence.
  - rewrite (CallTool_list_all_pages _ _ _ _ args l) by done.
    destruct (listAllPages (or_else l twenty) hist) as [[a|e] h] eqn:E.
    + destruct (array_text a) as (t & -> & Ht). eauto.
    + exfalso. unfold Server.listAllPages in E.
      match type of E with catch ?m ?f ?x = _ =>
        destruct (catch_total m f x) as (? & ? & E') end. congruence.
  - rewrite (CallTool_get_page_content args p) by done.
    destruct (getPageContent_text p hist) as (t & h & -> & Ht). eauto.
Qed.

Lemma in_tool_names_dec name : In name tool_names \/ ~ In name tool_names.
Proof. destruct (in_dec string_dec name tool_names); auto. Qed.

(** X12. Every [tools/call] ends with a result that holds exactly one
    text item, a non-empty string. The result is flagged [isError] exactly
    when the tool name is not registered or the call carries no arguments
    object; then no request has gone to the provider. A failure of the
    provider never sets the flag. *)
Theorem call_result_is_one_text
    (name : string) (args : JSValue) (hist : list ProviderCall) :
  exists r h t,
    CallTool name args hist = (Ok r, h) /\
    content r = [ {| type_ := "text"; text := JStr t |} ] /\
    t <> "" /\
    (isError r = true <-> (~ In name tool_names \/ readable args = false)) /\
    (isError r = true -> h = hist).
Proof.
  destruct (in_tool_names_dec name) as [Hin | Hn].
  - destruct (readable args) eqn:Hr.
    + destruct (CallTool_with_arguments name args hist Hin Hr) as (t & h & E & Ht).
      exists (text_result (JStr t)), h, t. rewrite E.
      split_and!; [done | done | done | | done].
      simpl. split; [done|]. intros [H | H]; done.
    + destruct (CallTool_no_arguments name args hist Hin Hr) as (e & E).
      destruct (error_text e) as (t & Et & Ht).
      exists (error_result Number_toString e), hist, t. rewrite E, Et.
      split_and!; [done | done | done | | done]. simpl. split; auto.
  - destruct (error_text (JSError ("Unknown tool: " +:+ name))) as (t & Et & Ht).
    eexists _, hist, t. rewrite CallTool_unknown by done. rewrite Et.
    split_and!; [done | done | done | | done]. simpl. split; auto.
Qed.

Lemma or_else_defined l d : d <> JUndefined -> or_else l d <> JUndefined.
Proof. intros Hd. unfold or_else. destruct (truthy l) eqn:E; [|done]. by destruct l. Qed.

Lemma titles_limit limit :
  limit <> JUndefined ->
  match limit with JUndefined => JNum (num_of_Z 10) | _ => limit end = limit.
Proof. by destruct limit. Qed.

(** The result of each tool when its request to the provider is
    rejected. *)
Lemma CallTool_provider_failure (args q l s pageId : JSValue) hist e :
  Get args "query" = Ok q -> Get args "limit" = Ok l ->
  Get args "sort" = Ok s -> Get args "pageId" = Ok pageId ->
  let none := Ok (text_result (JStr "[]")) in
  let rejected limit (req : JSValue -> ProviderCall) :=
    forall size, page_size_of Number_toString String_toNumber limit = Ok size ->
                 provider hist (req size) = Throw e in
  (rejected (or_else l ten) (search_request q) ->
   fst (CallTool "search_notion" args hist) = none) /\
  (rejected (or_else l ten) recent_request ->
   fst (CallTool "list_recent_pages" args hist) = none) /\
  (rejected (or_else l ten) (titles_request q) ->
   fst (CallTool "get_page_titles_only" args hist) = none) /\
  (rejected (or_else l twenty) all_request ->
   fst (CallTool "list_all_pages" args hist) = none) /\
  (provider hist (content_request pageId) = Throw e ->
   fst (CallTool "get_page_content" args hist)
     = Ok (text_result (JStr "Error retrieving content"))).
Proof.
  intros Hq Hl Hs Hp none rejected. split_and!.
  - intros H. rewrite (CallTool_search_notion _ _ _ _ args q l) by done.
    rewrite searchNotion_guarded.
    by rewrite (guarded_fails _ _ _ _ _ _ _ _ _ e H).
  - intros H. rewrite (CallTool_list_recent_pages _ _ _ _ args l s) by done.
    rewrite listRecentPages_guarded.
    by rewrite (guarded_fails _ _ _ _ _ _ _ _ _ e H).
  - intros H. rewrite (CallTool_get_page_titles_only _ _ _ _ args q l) by done.
    rewrite getPageTitlesOnly_guarded by by apply or_else_defined.
    by rewrite (guarded_fails _ _ _ _ _ _ _ _ _ e H).
  - intros H. rewrite (CallTool_list_all_pages _ _ _ _ args l) by done.
    rewrite listAllPages_guarded.
    by rewrite (guarded_fails _ _ _ _ _ _ _ _ _ e H).
  - intros H. rewrite (CallTool_get_page_content args pageId) by done.
    rewrite getPageContent_run. rewrite H. by destruct (ToString Number_toString pageId).
Qed.

(** A call without an arguments object fails on the first read of an
    argument, with the message of that TypeError. *)
Lemma Get_unreadable_message v k :
  readable v = false -> exists m, Get v k = Throw (JSError m) /\ m <> "".
Proof.
  destruct v; try done; intros _; simpl; unfold TypeError_read;
    (eexists; split; [reflexivity | apply cons_text_nonempty]).
Qed.

Lemma CallTool_no_arguments_message name args hist :
  In name tool_names -> readable args = false ->
  exists m, CallTool name args hist = (Ok (error_result Number_toString (JSError m)), hist)
            /\ m <> "".
Proof.
  intros Hin Hr. unfold tool_names in Hin. simpl in Hin.
  destruct (Get_unreadable_message args "query" Hr) as (m1 & H1 & N1).
  destruct (Get_unreadable_message args "limit" Hr) as (m2 & H2 & N2).
  destruct (Get_unreadable_message args "pageId" Hr) as (m3 & H3 & N3).
  destruct Hin as [<- | [<- | [<- | [<- | [<- | []]]]]];
    unfold Server.CallTool, dispatch, catch; simpl (String.eqb _ _); cbv iota;
    unfold lift; rewrite bind_run, ?H1, ?H2, ?H3; eauto.
Qed.

(** X13. At the protocol level a provider failure cannot be told from an
    empty answer: when the request of a list-style tool is rejected, the
    [tools/call] result is the text [[]] with no error flag, the same
    result as for a provider that found nothing; for [get_page_content] it
    is the text [Error retrieving content], again with no error flag.
    (The request of a list-style tool is the one that carries the page size
    made of its limit.) *)
Theorem provider_failure_reads_as_no_result
    (args q l s pageId : JSValue) (hist : list ProviderCall) (e : Exn) :
  Get args "query" = Ok q -> Get args "limit" = Ok l ->
  Get args "sort" = Ok s -> Get args "pageId" = Ok pageId ->
  let none := Ok (text_result (JStr "[]")) in
  let rejected limit (req : JSValue -> ProviderCall) :=
    forall size, page_size_of Number_toString String_toNumber limit = Ok size ->
                 provider hist (req size) = Throw e in
  (rejected (or_else l ten) (search_request q) ->
   fst (CallTool "search_notion" args hist) = none) /\
  (rejected (or_else l ten) recent_request ->
   fst (CallTool "list_recent_pages" args hist) = none) /\
  (rejected (or_else l ten) (titles_request q) ->
   fst (CallTool "get_page_titles_only" args hist) = none) /\
  (rejected (or_else l twenty) all_request ->
   fst (CallTool "list_all_pages" args hist) = none) /\
  (provider hist (content_request pageId) = Throw e ->
   fst (CallTool "get_page_content" args hist)
     = Ok (text_result (JStr "Error retrieving content"))) /\
  (forall response,
     Get response "results" = Ok (JArr []) ->
     (forall size,
        page_size_of Number_toString String_toNumber (or_else l twenty) = Ok size ->
        provider hist (all_request size) = Ok response) ->
     fst (CallTool "list_all_pages" args hist) = none).
Proof.
  intros Hq Hl Hs Hp none rejected.
  destruct (CallTool_provider_failure args q l s pageId hist e Hq Hl Hs Hp)
    as (H1 & H2 & H3 & H4 & H5).
  split_and!; [exact H1 | exact H2 | exact H3 | exact H4 | exact H5 |].
  intros response Hr H. rewrite (CallTool_list_all_pages _ _ _ _ args l) by done.
  rewrite listAllPages_guarded, guarded_run.
  destruct (interpolate Number_toString [or_else l twenty]); [|done].
  destruct (page_size_of Number_toString String_toNumber (or_else l twenty))
    as [size|e2] eqn:Hsize; [|done].
  unfold catch. rewrite bind_run. unfold await.
  rewrite (H size eq_refl), bind_run. unfold lift. by rewrite Hr, bind_run.
Qed.

End Handlers.

End ServerLaws.

(* ===================================================================== *)
(** * Strings through [JSON.stringify] and [JSON.parse]                   *)
(* ===================================================================== *)
Module JSONLaws.
Import JS JSON.

Lemma parse_chars_escape_char (c : ascii) (r : string) :
  parse_chars (escape_char c +:+ r) =
  match parse_chars r with
  | Some (t, rest) => Some (String c t, rest)
  | None => None
  end.
Proof. destruct c as [[] [] [] [] [] [] [] []]; reflexivity. Qed.

Lemma hex_digit_hex_char (k : N) : (k < 16)%N -> hex_digit (hex_char k) = Some k.
Proof.
  intros H.
  assert (E : (k = 0 \/ k = 1 \/ k = 2 \/ k = 3 \/ k = 4 \/ k = 5 \/ k = 6 \/ k = 7 \/
               k = 8 \/ k = 9 \/ k = 10 \/ k = 11 \/ k = 12 \/ k = 13 \/ k = 14 \/
               k = 15)%N) by lia.
  repeat destruct E as [->|E]; try subst k; reflexivity.
Qed.

Lemma parse_chars_unit (a b c d : ascii) (r : string) :
  parse_chars (String (chN 92) (String "u"%char
                 (String a (String b (String c (String d r)))))) =
  match hex_digit a, hex_digit b, hex_digit c, hex_digit d with
  | Some x, Some y, Some z, Some w =>
      match parse_chars r with
      | Some (t, rest) => Some (cons_unit (4096 * x + 256 * y + 16 * z + w)%N t, rest)
      | None => None
      end
  | _, _, _, _ => None
  end.
Proof. reflexivity. Qed.

Lemma lone_surrogate_bound (a b c : ascii) (n : N) :
  lone_surrogate a b c = Some n -> (n < 65536)%N.
Proof.
  unfold lone_surrogate. case_match eqn:E; [|done]. intros [= <-].
  apply andb_prop in E as [E Hc]. apply andb_prop in E as [E Hc'].
  apply andb_prop in E as [E Hb]. apply andb_prop in E as [_ Hb'].
  apply N.ltb_lt in Hb, Hc. apply N.leb_le in Hb', Hc'. lia.
Qed.

Lemma cons_unit_nonempty (n : N) (t : string) : cons_unit n t <> "".
Proof.
  unfold cons_unit, utf8_of_unit, utf8_of_astral.
  repeat case_match; apply ServerLaws.cons_text_nonempty.
Qed.

Lemma escape_one (a : ascii) : escape (String a "") = escape_char a +:+ "".
Proof. reflexivity. Qed.

Lemma escape_two (a b : ascii) :
  escape (String a (String b "")) = escape_char a +:+ escape (String b "").
Proof. reflexivity. Qed.

Lemma escape_three (a b c : ascii) (r : string) :
  escape (String a (String b (String c r))) =
  match lone_surrogate a b c with
  | Some n => escape_unit n +:+ escape r
  | None => escape_char a +:+ escape (String b (String c r))
  end.
Proof. reflexivity. Qed.

Lemma escape_cases (a : ascii) (r : string) :
  escape (String a r) = escape_char a +:+ escape r \/
  exists b c r' n, r = String b (String c r') /\ lone_surrogate a b c = Some n /\
                   escape (String a r) = escape_unit n +:+ escape r'.
Proof.
  destruct r as [|b [|c r']]; [left; reflexivity | left; reflexivity |].
  rewrite escape_three. destruct (lone_surrogate a b c) as [n|] eqn:E.
  - right. by exists b, c, r', n.
  - by left.
Qed.

Lemma parse_chars_escape_unit (n : N) (r : string) :
  (n < 65536)%N ->
  parse_chars (escape_unit n +:+ r) =
  match parse_chars r with
  | Some (t, rest) =>
      Some (cons_unit (4096 * (n / 4096) + 256 * ((n / 256) mod 16)
                       + 16 * ((n / 16) mod 16) + n mod 16)%N t, rest)
  | None => None
  end.
Proof.
  intros H. unfold escape_unit, hex4. rewrite !ServerLaws.append_cons.
  change ("" +:+ r) with r. rewrite parse_chars_unit.
  assert (H1 : (n / 4096 < 16)%N) by (apply N.Div0.div_lt_upper_bound; lia).
  assert (Hm : forall x, (x mod 16 < 16)%N) by (intros x; apply N.mod_lt; lia).
  by rewrite (hex_digit_hex_char _ H1), !(hex_digit_hex_char _ (Hm _)).
Qed.

(** A quoted string reads back as a string, empty only if it was. *)
Lemma parse_chars_escape_below (k : nat) : forall s rest,
  String.length s <= k ->
  exists t, parse_chars (escape s +:+ dquote +:+ rest) = Some (t, rest) /\
            (s <> "" -> t <> "").
Proof.
  induction k as [|k IH]; intros s rest Hk.
  - destruct s; [|simpl in Hk; lia]. by exists "".
  - destruct s as [|a r]; [by exists ""|]. simpl in Hk.
    destruct (escape_cases a r) as [-> | (b & c & r' & n & -> & Hn & ->)].
    + destruct (IH r rest) as (t & Ht & _); [lia|].
      exists (String a t). rewrite ServerLaws.append_assoc, parse_chars_escape_char.
      by rewrite Ht.
    + destruct (IH r' rest) as (t & Ht & _); [simpl in Hk; lia|].
      eexists. rewrite ServerLaws.append_assoc.
      rewrite parse_chars_escape_unit by by eapply lone_surrogate_bound.
      rewrite Ht. split; [reflexivity|]. intros _. apply cons_unit_nonempty.
Qed.

Lemma parse_chars_escape (s rest : string) :
  exists t, parse_chars (escape s +:+ dquote +:+ rest) = Some (t, rest) /\
            (s <> "" -> t <> "").
Proof. by apply (parse_chars_escape_below (String.length s)). Qed.

Lemma error_object_text (Number_toString : JSNumber -> string) (m : string) :
  stringify Number_toString (JObj [("error", JStr m)]) =
  Some ("{" +:+ dquote +:+ "error" +:+ dquote +:+ ":" +:+ dquote +:+
        (escape m +:+ dquote +:+ "}")).
Proof.
  cbn [stringify join]. unfold quote. f_equal.
  change (escape "error") with "error".
  rewrite !ServerLaws.append_assoc. reflexivity.
Qed.

Lemma parse_value_string (fuel : nat) (r : string) :
  parse_value (S fuel) (dquote +:+ r) =
  match parse_chars r with
  | Some (t, rest) => Some (JStr t, rest)
  | None => None
  end.
Proof. reflexivity. Qed.

Lemma parse_members_error (fuel : nat) (r : string) :
  parse_members (S fuel) [] (dquote +:+ "error" +:+ dquote +:+ ":" +:+ r) =
  match parse_value fuel r with
  | Some (v, r3) =>
      match skip_ws r3 with
      | String d r4 =>
          if (byte d =? 44)%N then parse_members fuel (define [] "error" v) r4
          else if (byte d =? 125)%N then Some (JObj (define [] "error" v), r4)
          else None
      | EmptyString => None
      end
  | None => None
  end.
Proof. reflexivity. Qed.

Lemma parse_value_object (fuel : nat) (r : string) :
  parse_value (S fuel) ("{" +:+ dquote +:+ r) = parse_members fuel [] (dquote +:+ r).
Proof. reflexivity. Qed.

Lemma parse_value_error_object (fuel : nat) (m : string) :
  exists m',
    parse_value (S (S (S fuel)))
      ("{" +:+ dquote +:+ "error" +:+ dquote +:+ ":" +:+ dquote +:+
       (escape m +:+ dquote +:+ "}")) =
    Some (JObj [("error", JStr m')], "") /\
    (m <> "" -> m' <> "").
Proof.
  destruct (parse_chars_escape m "}") as (m' & Hm & Hne). exists m'.
  split; [|done].
  rewrite parse_value_object, parse_members_error, parse_value_string.
  rewrite Hm. reflexivity.
Qed.

(** [JSON.parse(JSON.stringify({ error: m }))] is an object with the one
    member [error], a string that is empty only if [m] is. *)
Lemma parse_error_object (Number_toString : JSNumber -> string) (m : string) :
  exists t m',
    stringify Number_toString (JObj [("error", JStr m)]) = Some t /\
    t <> "" /\
    parse t = Some (JObj [("error", JStr m')]) /\
    (m <> "" -> m' <> "").
Proof.
  rewrite error_object_text.
  exists ("{" +:+ dquote +:+ "error" +:+ dquote +:+ ":" +:+ dquote +:+
          (escape m +:+ dquote +:+ "}")).
  unfold parse.
  match goal with |- context [String.length ?t] =>
    assert (E : exists k, 2 * String.length t + 2 = S (S (S k)))
  end.
  { rewrite ServerLaws.append_cons. cbn [String.length]. eexists.
    rewrite Nat.mul_succ_r, Nat.add_comm. cbn [Nat.add]. reflexivity. }
  destruct E as [k ->].
  destruct (parse_value_error_object k m) as (m' & -> & Hne). exists m'.
  split; [reflexivity|]. split; [apply ServerLaws.cons_text_nonempty | done].
Qed.

End JSONLaws.

(* ===================================================================== *)
(** * The catalogue against the dispatcher                                *)
(* ===================================================================== *)
Module RegistryLaws.
Import JS JSFacts JSON Server Listing Registry ServerSpec.

Lemma listed_names : map name_of (tools_of listTools) =
  [ "search_notion"; "list_recent_pages"; "get_page_titles_only";
    "get_page_content"; "list_all_pages" ].
Proof. reflexivity. Qed.

Lemma listed_iff_dispatched name :
  In name (map name_of (tools_of listTools)) <-> In name tool_names.
Proof. rewrite listed_names. unfold tool_names. simpl. tauto. Qed.

Section Handlers.
Variable Number_toString : JSNumber -> string.
Variable String_toNumber : string -> JSNumber.
Variable provider : list ProviderCall -> ProviderCall -> outcome JSValue.
Variable sort_by_created_time : list JSValue -> outcome (list JSValue).

Local Abbreviation CallTool :=
  (CallTool Number_toString String_toNumber provider sort_by_created_time).

(** X14. The names the server lists are exactly the names its dispatcher
    serves: a listed tool called with an arguments object never ends in
    an error result, a name that is not listed always ends in the
    [Unknown tool] error without a request to the provider. The client
    advertises the same five tools to the language model, each with the
    name, description and schema the server lists. *)
Theorem catalogue_names_the_served_tools
    (name : string) (args : JSValue) (hist : list ProviderCall) :
  let names := map name_of (tools_of listTools) in
  (In name names -> readable args = true ->
   exists r h, CallTool name args hist = (Ok r, h) /\ isError r = false) /\
  (~ In name names ->
   CallTool name args hist =
   (Ok (error_result Number_toString (JSError ("Unknown tool: " +:+ name))), hist)) /\
  map advertised client_tools ≡ₚ map listed (tools_of listTools).
Proof.
  intros names. split_and!.
  - intros Hin Hr. apply listed_iff_dispatched in Hin.
    destruct (ServerLaws.CallTool_with_arguments Number_toString String_toNumber
                provider sort_by_created_time name args hist Hin Hr) as (t & h & E & _).
    by exists (text_result (JStr t)), h.
  - intros Hn. apply ServerLaws.CallTool_unknown.
    intros Hin. by apply Hn, listed_iff_dispatched.
  - change (map advertised client_tools) with
      (match map listed (tools_of listTools) with
       | [a; b; c; d; e] => [a; b; c; e; d]
       | l => l
       end).
    change (map listed (tools_of listTools)) with
      [listed (nth 0 (tools_of listTools) JNull); listed (nth 1 (tools_of listTools) JNull);
       listed (nth 2 (tools_of listTools) JNull); listed (nth 3 (tools_of listTools) JNull);
       listed (nth 4 (tools_of listTools) JNull)].
    cbv iota. do 3 apply Permutation_skip. apply Permutation_swap.
Qed.

Lemma or_else_ten_ten : or_else ten ten = ten.
Proof. reflexivity. Qed.

Lemma or_else_twenty_twenty : or_else twenty twenty = twenty.
Proof. reflexivity. Qed.

(** X15. Leaving an argument out means what the catalogue declares as
    its default: for every listed tool that declares a default for
    [limit], and for the [sort] of [list_recent_pages], a call whose
    argument is absent or otherwise falsy behaves exactly as the call
    that passes the declared default. *)
Theorem omitted_argument_means_declared_default
    (tool d args args' v : JSValue) (property : string) (hist : list ProviderCall) :
  In tool (tools_of listTools) ->
  property = "limit" \/ property = "sort" ->
  declared_default property tool = d -> d <> JUndefined ->
  Get args property = Ok v -> truthy v = false ->
  Get args' property = Ok d ->
  (forall k, k <> property -> Get args' k = Get args k) ->
  CallTool (name_of tool) args' hist = CallTool (name_of tool) args hist.
Proof.
  intros Hin Hp Hd Hdef Hv Hf Hd' Hsame.
  destruct (Get_again args property v "query" Hv) as [q Hq].
  destruct (Get_again args property v "limit" Hv) as [l Hl].
  destruct (Get_again args property v "sort" Hv) as [s Hs].
  change (tools_of listTools) with
    [nth 0 (tools_of listTools) JNull; nth 1 (tools_of listTools) JNull;
     nth 2 (tools_of listTools) JNull; nth 3 (tools_of listTools) JNull;
     nth 4 (tools_of listTools) JNull] in Hin.
  destruct Hp as [-> | ->].
  - assert (Hq' : Get args' "query" = Ok q) by (rewrite Hsame; done).
    assert (Hs' : Get args' "sort" = Ok s) by (rewrite Hsame; done).
    assert (l = v) by congruence. subst l.
    destruct Hin as [<- | [<- | [<- | [<- | [<- | []]]]]];
      vm_compute in Hd; subst d; try done.
    + change (name_of _) with "search_notion".
      rewrite (CallTool_search_notion _ _ _ _ args' q ten),
        (CallTool_search_notion _ _ _ _ args q v) by done.
      by rewrite (or_else_falsy v), or_else_ten_ten.
    + change (name_of _) with "list_recent_pages".
      rewrite (CallTool_list_recent_pages _ _ _ _ args' ten s),
        (CallTool_list_recent_pages _ _ _ _ args v s) by done.
      by rewrite (or_else_falsy v ten), or_else_ten_ten.
    + change (name_of _) with "get_page_titles_only".
      rewrite (CallTool_get_page_titles_only _ _ _ _ args' q ten),
        (CallTool_get_page_titles_only _ _ _ _ args q v) by done.
      by rewrite (or_else_falsy v), or_else_ten_ten.
    + change (name_of _) with "list_all_pages".
      rewrite (CallTool_list_all_pages _ _ _ _ args' twenty),
        (CallTool_list_all_pages _ _ _ _ args v) by done.
      by rewrite (or_else_falsy v), or_else_twenty_twenty.
  - assert (Hl' : Get args' "limit" = Ok l) by (rewrite Hsame; done).
    assert (s = v) by congruence. subst s.
    destruct Hin as [<- | [<- | [<- | [<- | [<- | []]]]]];
      vm_compute in Hd; subst d; try done.
    change (name_of _) with "list_recent_pages".
    rewrite (CallTool_list_recent_pages _ _ _ _ args' l (JStr "last_edited_time")),
      (CallTool_list_recent_pages _ _ _ _ args l v) by done.
    by rewrite (or_else_falsy v).
Qed.

End Handlers.

End RegistryLaws.

(* ===================================================================== *)
(** * Failures, as they reach the client                                  *)
(* ===================================================================== *)
Module EndToEndLaws.
Import JS JSFacts JSON Server Listing ToolCall EndToEnd ServerSpec.

(** [callMCPTool] returns the text of the first content item, parsed
    where it parses, and never looks at [isError]. *)
Lemma decode_text JSON_parse Number_toString r c rest t :
  content r = c :: rest -> text c = JStr t -> t <> "" ->
  decode JSON_parse Number_toString (to_value r) =
  Ok (match JSON_parse t with Some v => v | None => JStr t end).
Proof.
  destruct r as [cs e], c as [ty tx]. simpl. intros -> -> Ht.
  destruct t as [|a t]; [done|]. unfold decode, to_value. simpl.
  by destruct (JSON_parse (String a t)).
Qed.

Lemma decode_error_result Number_toString e :
  exists m,
    decode JSON.parse Number_toString (to_value (error_result Number_toString e)) =
    Ok (JObj [("error", JStr m)]) /\
    (errorMessage e <> "" -> m <> "").
Proof.
  destruct (JSONLaws.parse_error_object Number_toString (errorMessage e))
    as (t & m & Hs & Ht & Hp & Hm).
  exists m. split; [|done].
  erewrite decode_text; [by rewrite Hp | | | exact Ht].
  - unfold error_result. simpl. reflexivity.
  - simpl. unfold JSON_stringify. by rewrite Hs.
Qed.

Lemma collect_error_object acc m :
  m <> "" -> collect acc (Ok (JObj [("error", JStr m)])) = acc.
Proof. intros Hm. destruct m; [done|]. reflexivity. Qed.

Section Call.
Variable Number_toString : JSNumber -> string.
Variable String_toNumber : string -> JSNumber.
Variable provider : list ProviderCall -> ProviderCall -> outcome JSValue.
Variable sort_by_created_time : list JSValue -> outcome (list JSValue).

Local Abbreviation gathered :=
  (gathered Number_toString String_toNumber provider sort_by_created_time).
Local Abbreviation CallTool :=
  (CallTool Number_toString String_toNumber provider sort_by_created_time).

Lemma gathered_of_result acc name args hist r :
  fst (CallTool name args hist) = Ok r ->
  gathered acc name args hist =
  collect acc (decode JSON.parse Number_toString (to_value r)).
Proof.
  intros H. unfold EndToEnd.gathered, gathered_with, answered_with. by rewrite H.
Qed.

(** X16. How the failures of a tool call reach the result list of
    [processUserMessage]. A call for a tool that is not registered, or
    with no arguments object, adds nothing: its error result is decoded to
    an object with an [error] member and skipped. A list-style tool whose
    request the provider rejects adds nothing either. [get_page_content]
    whose request the provider rejects adds the text
    [Error retrieving content] as if it were the content of the page. *)
Theorem failures_as_the_client_collects_them
    (acc : list JSValue) (name : string) (args : JSValue) (hist : list ProviderCall) :
  (~ In name tool_names -> gathered acc name args hist = acc) /\
  (In name tool_names -> readable args = false ->
   gathered acc name args hist = acc) /\
  (forall q l s pageId e,
     Get args "query" = Ok q -> Get args "limit" = Ok l ->
     Get args "sort" = Ok s -> Get args "pageId" = Ok pageId ->
     let rejected limit (req : JSValue -> ProviderCall) :=
       forall size, page_size_of Number_toString String_toNumber limit = Ok size ->
                    provider hist (req size) = Throw e in
     (rejected (or_else l ten) (search_request q) ->
      gathered acc "search_notion" args hist = acc) /\
     (rejected (or_else l ten) recent_request ->
      gathered acc "list_recent_pages" args hist = acc) /\
     (rejected (or_else l ten) (titles_request q) ->
      gathered acc "get_page_titles_only" args hist = acc) /\
     (rejected (or_else l twenty) all_request ->
      gathered acc "list_all_pages" args hist = acc) /\
     (provider hist (content_request pageId) = Throw e ->
      gathered acc "get_page_content" args hist =
      (acc ++ [JStr "Error retrieving content"])%list)).
Proof.
  split_and!.
  - intros Hn. erewrite gathered_of_result
      by (rewrite ServerLaws.CallTool_unknown by done; reflexivity).
    destruct (decode_error_result Number_toString
                (JSError ("Unknown tool: " +:+ name))) as (m & -> & Hm).
    apply collect_error_object, Hm, ServerLaws.cons_text_nonempty.
  - intros Hin Hr.
    destruct (ServerLaws.CallTool_no_arguments_message Number_toString String_toNumber
                provider sort_by_created_time name args hist Hin Hr) as (m & E & Hm).
    erewrite gathered_of_result by (rewrite E; reflexivity).
    destruct (decode_error_result Number_toString (JSError m)) as (m' & -> & Hm').
    by apply collect_error_object, Hm'.
  - intros q l s pageId e Hq Hl Hs Hp rejected.
    pose proof (ServerLaws.CallTool_provider_failure Number_toString String_toNumber
                  provider sort_by_created_time args q l s pageId hist e Hq Hl Hs Hp)
      as (H1 & H2 & H3 & H4 & H5).
    assert (Hnone : collect acc (decode JSON.parse Number_toString
                                   (to_value (text_result (JStr "[]")))) = acc).
    { erewrite decode_text by (try reflexivity; done).
      change (JSON.parse "[]") with (Some (JArr [])). simpl. apply app_nil_r. }
    split_and!; intros H.
    + by erewrite gathered_of_result by (apply H1; exact H).
    + by erewrite gathered_of_result by (apply H2; exact H).
    + by erewrite gathered_of_result by (apply H3; exact H).
    + by erewrite gathered_of_result by (apply H4; exact H).
    + erewrite gathered_of_result by (apply H5; exact H).
      erewrite decode_text by (try reflexivity; done).
      change (JSON.parse "Error retrieving content") with (@None JSValue).
      reflexivity.
Qed.

Lemma collect_falsy acc v : truthy v = false -> collect acc (Ok v) = acc.
Proof. destruct v as [| |b|n|s|l|ps|f]; try done; simpl; by intros ->. Qed.

Lemma collect_text acc t : t <> "" -> collect acc (Ok (JStr t)) = (acc ++ [JStr t])%list.
Proof. intros Ht. by destruct t. Qed.

(** X17. The text of a page does not always reach the result list as
    text: [callMCPTool] hands on what the client's [JSON.parse] makes of
    it, whatever that function is, and the text itself only when the
    parse throws. A page whose whole content parses to a falsy value adds
    nothing to the results. *)
Theorem page_text_is_parsed_again
    (JSON_parse : string -> option JSValue)
    (acc : list JSValue) (args pageId : JSValue) (hist : list ProviderCall) :
  Get args "pageId" = Ok pageId ->
  exists t,
    fst (getPageContent Number_toString provider pageId hist) = Ok t /\
    answered_with JSON_parse Number_toString String_toNumber provider
      sort_by_created_time "get_page_content" args hist
      = Ok (match JSON_parse t with Some v => v | None => JStr t end) /\
    (JSON_parse t = None ->
     gathered_with JSON_parse Number_toString String_toNumber provider
       sort_by_created_time acc "get_page_content" args hist
     = (acc ++ [JStr t])%list) /\
    (forall v, JSON_parse t = Some v -> truthy v = false ->
     gathered_with JSON_parse Number_toString String_toNumber provider
       sort_by_created_time acc "get_page_content" args hist = acc).
Proof.
  intros Hp.
  destruct (ServerLaws.getPageContent_text Number_toString provider pageId hist)
    as (t & h & E & Ht).
  assert (Hr : fst (CallTool "get_page_content" args hist) = Ok (text_result (JStr t))).
  { rewrite (ServerLaws.CallTool_get_page_content _ _ _ _ args pageId) by done.
    by rewrite E. }
  assert (Ha : answered_with JSON_parse Number_toString String_toNumber provider
                 sort_by_created_time "get_page_content" args hist
               = Ok (match JSON_parse t with Some v => v | None => JStr t end)).
  { unfold answered_with. rewrite Hr.
    by erewrite decode_text by (try reflexivity; done). }
  exists t. rewrite E. split_and!; [done | exact Ha | |].
  - intros Hn. unfold gathered_with. rewrite Ha, Hn. by apply collect_text.
  - intros v Hv Hf. unfold gathered_with. rewrite Ha, Hv. by apply collect_falsy.
Qed.

End Call.

End EndToEndLaws.

(* ===================================================================== *)
(** * The laws on the sample sessions                                     *)
(* ===================================================================== *)
Module Instances.
Import JS JSON Client Server Listing Registry ToolCall EndToEnd Scenario Samples.
Import ClientLaws ServerLaws RegistryLaws EndToEndLaws.

Lemma pending_entry_is_released_witness :
  exists t,
    timers one_pending !! 0 = Some t /\
    t_request t = 1%Z /\
    settled (run JSON.parse Number_toString_int [Elapse 20000; Timeout 0] one_pending) !! 0
      = Some (Rejected (JStr timeout_message)).
Proof.
  pose proof (pending_entry_is_released JSON.parse Number_toString_int
                [Spawn; Call "tools/call" (JObj [])] 1%Z
                {| p_timeout := 0; p_promise := 0 |} eq_refl)
    as (t & Ht & Hr & _ & _ & Hlater).
  exists t. split; [exact Ht|]. split; [exact Hr|].
  pose proof (Hlater eq_refl) as (_ & _ & Hrej). exact Hrej.
Defined.

Lemma timer_belongs_to_its_request_witness :
  pendingRequests (fire_timeout 1 two_pending) !! 1%Z
    = Some {| p_timeout := 0; p_promise := 0 |}.
Proof.
  assert (Hc : (Z.of_nat (calls two_calls) <= 2 ^ 53)%Z) by (vm_compute; discriminate).
  pose proof (timer_belongs_to_its_request JSON.parse Number_toString_int two_calls 1
                {| t_due := 20000; t_request := 2; t_promise := 1 |} Hc eq_refl)
    as (_ & _ & _ & H).
  apply H; [reflexivity | discriminate].
Defined.

Lemma responses_in_either_order_witness :
  let a := handle_line JSON.parse Number_toString_int
             (handle_line JSON.parse Number_toString_int two_pending record_1)
             record_2 in
  let b := handle_line JSON.parse Number_toString_int
             (handle_line JSON.parse Number_toString_int two_pending record_2)
             record_1 in
  settled a = settled b /\
  settled a !! 0 = Some (Resolved (JObj [("ok", JBool true)])) /\
  settled a !! 1 = Some (Rejected (JStr "boom")).
Proof.
  assert (Hne : 1%Z <> 2%Z) by discriminate.
  pose proof (responses_in_either_order JSON.parse Number_toString_int two_calls
                record_1 record_2
                response_1 response_2 (JNum (Fin 1)) (JNum (Fin 2)) 1%Z 2%Z
                {| p_timeout := 0; p_promise := 0 |}
                {| p_timeout := 1; p_promise := 1 |}
                eq_refl eq_refl eq_refl eq_refl eq_refl eq_refl eq_refl eq_refl Hne)
    as (_ & _ & Hs & _ & H1 & H2 & _ & _).
  split; [exact Hs|]. split; [exact H1 | exact H2].
Defined.

Lemma title_comes_from_first_title_property_witness :
  extractTitle two_titles_page = JStr "Untitled".
Proof.
  rewrite (title_comes_from_first_title_property two_titles_page
             (JObj [("A", JObj [("type", JStr "title");
                                ("title", JArr [JObj [("plain_text", JStr "")]])]);
                    ("B", JObj [("type", JStr "title");
                                ("title", JArr [JObj [("plain_text", JStr "Real")]])])])
             [JObj [("type", JStr "title");
                    ("title", JArr [JObj [("plain_text", JStr "")]])];
              JObj [("type", JStr "title");
                    ("title", JArr [JObj [("plain_text", JStr "Real")]])]]
             eq_refl eq_refl eq_refl).
  reflexivity.
Defined.

Lemma block_text_is_the_rich_text_witness :
  extractBlockText Number_toString_int hello_block = "Hello, world".
Proof.
  pose proof (block_text_is_the_rich_text Number_toString_int hello_block
                (JStr "paragraph")
                (JObj [("rich_text", JArr [JObj [("plain_text", JStr "Hello, ")];
                                           JObj [("plain_text", JStr "world")]])])
                "paragraph"
                [JObj [("plain_text", JStr "Hello, ")];
                 JObj [("plain_text", JStr "world")]]
                ["Hello, "; "world"]
                eq_refl eq_refl eq_refl eq_refl eq_refl eq_refl) as H.
  apply H; [|reflexivity].
  constructor; [reflexivity|]. constructor; [reflexivity|]. constructor.
Defined.

Lemma page_content_is_the_block_texts_witness :
  fst (getPageContent Number_toString_int blocks_provider (JStr "p1") [])
    = Ok ("Hello, world" +:+ nl +:+ "Second").
Proof.
  pose proof (page_content_is_the_block_texts Number_toString_int blocks_provider
                (JStr "p1") []) as (_ & _ & _ & H).
  destruct (H "p1" eq_refl) as [_ H2].
  destruct (H2 (JObj [("results", JArr [hello_block; blank_block; second_block])])
               [hello_block; blank_block; second_block] eq_refl eq_refl) as [E _].
  rewrite E. vm_compute. reflexivity.
Defined.

Lemma preview_stops_after_200_witness :
  preview_loop Number_toString_int ([long_block] ++ [hello_block]) ""
    = preview_loop Number_toString_int [long_block] "".
Proof.
  pose proof (preview_stops_after_200 Number_toString_int blocks_provider
                (JStr "p1") []) as (_ & _ & H).
  apply H. apply Nat.ltb_lt. vm_compute. reflexivity.
Defined.

Lemma list_handlers_return_the_pages_witness :
  fst (listAllPages Number_toString_int String_toNumber_none titles_provider ten [])
    = Ok (page_entries [page_1; untitled_page]) /\
  fst (listAllPages Number_toString_int String_toNumber_none holed_provider ten [])
    = Ok [].
Proof.
  split.
  - pose proof (list_handlers_return_the_pages Number_toString_int
                  String_toNumber_none titles_provider keep_order
                  JUndefined ten JUndefined ten
                  (JObj [("results", JArr [page_1; untitled_page])])
                  "undefined" "10" "undefined"
                  [page_1; untitled_page] [] eq_refl eq_refl eq_refl) as (H & _ & _).
    rewrite (H eq_refl). reflexivity.
  - pose proof (list_handlers_return_the_pages Number_toString_int
                  String_toNumber_none holed_provider keep_order
                  JUndefined ten JUndefined ten
                  (JObj [("results", JArr [page_1; JNull])])
                  "undefined" "10" "undefined"
                  [page_1; JNull] [] eq_refl eq_refl eq_refl) as (H & _ & _).
    rewrite (H eq_refl). reflexivity.
Defined.

Lemma search_asks_one_preview_per_page_witness :
  exists results,
    searchNotion Number_toString_int String_toNumber_none titles_provider
        (JStr "notes") ten []
      = (Ok results,
         [search_request (JStr "notes") ten;
          preview_request (JStr "p1"); preview_request JUndefined]) /\
    length results = 2.
Proof.
  pose proof (search_asks_one_preview_per_page Number_toString_int
                String_toNumber_none titles_provider (JStr "notes") ten ten
                (JObj [("results", JArr [page_1; untitled_page])])
                "notes" "10"
                [page_1; untitled_page] [] eq_refl eq_refl eq_refl eq_refl eq_refl)
    as (H & _).
  destruct (H eq_refl) as (results & E & Hlen & _).
  exists results. split; [exact E | exact Hlen].
Defined.

Local Abbreviation CallTool_failing :=
  (CallTool Number_toString_int String_toNumber_none failing_provider keep_order).

Lemma no_such_tool : ~ In "no_such_tool" tool_names.
Proof. simpl. intros H. repeat destruct H as [H|H]; try discriminate H. exact H. Qed.

Lemma call_result_is_one_text_witness :
  exists r h, CallTool_failing "no_such_tool" (JObj []) [] = (Ok r, h) /\
              isError r = true /\ h = [].
Proof.
  destruct (call_result_is_one_text Number_toString_int String_toNumber_none
              failing_provider keep_order "no_such_tool" (JObj []) [])
    as (r & h & t & E & _ & _ & Hflag & Hhist).
  assert (Hr : isError r = true) by (apply Hflag; left; exact no_such_tool).
  exists r, h. split; [exact E|]. split; [exact Hr | exact (Hhist Hr)].
Defined.

Lemma provider_failure_reads_as_no_result_witness :
  fst (CallTool_failing "list_all_pages" (JObj []) []) = Ok (text_result (JStr "[]")) /\
  fst (CallTool_failing "get_page_content" (JObj []) [])
    = Ok (text_result (JStr "Error retrieving content")).
Proof.
  pose proof (provider_failure_reads_as_no_result Number_toString_int
                String_toNumber_none failing_provider keep_order
                (JObj []) JUndefined JUndefined JUndefined JUndefined []
                (JSError "fetch failed") eq_refl eq_refl eq_refl eq_refl)
    as (_ & _ & _ & Hall & Hcontent & _).
  split; [apply Hall; intros size _ | apply Hcontent]; reflexivity.
Defined.

Lemma catalogue_names_the_served_tools_witness :
  exists r h, CallTool_failing "list_all_pages" (JObj []) [] = (Ok r, h) /\
              isError r = false.
Proof.
  pose proof (catalogue_names_the_served_tools Number_toString_int
                String_toNumber_none failing_provider keep_order
                "list_all_pages" (JObj []) []) as (H & _ & _).
  apply H; [simpl; auto 10 | reflexivity].
Defined.

Lemma omitted_argument_means_declared_default_witness :
  CallTool_failing "list_all_pages" (JObj [("limit", twenty)]) []
    = CallTool_failing "list_all_pages" (JObj []) [].
Proof.
  apply (omitted_argument_means_declared_default Number_toString_int
           String_toNumber_none failing_provider keep_order
           (nth 4 (tools_of listTools) JNull) twenty (JObj [])
           (JObj [("limit", twenty)]) JUndefined "limit" []);
    try reflexivity.
  - simpl. auto 10.
  - left. reflexivity.
  - discriminate.
  - intros k Hk. cbn [Get own].
    destruct (String.eqb_spec "limit" k) as [E|E]; [congruence | reflexivity].
Defined.

Lemma failures_as_the_client_collects_them_witness :
  gathered Number_toString_int String_toNumber_none failing_provider keep_order
    [] "no_such_tool" page_args [] = [] /\
  gathered Number_toString_int String_toNumber_none failing_provider keep_order
    [] "get_page_content" page_args [] = [JStr "Error retrieving content"].
Proof.
  split.
  - pose proof (failures_as_the_client_collects_them Number_toString_int
                  String_toNumber_none failing_provider keep_order
                  [] "no_such_tool" page_args []) as (H & _ & _).
    exact (H no_such_tool).
  - pose proof (failures_as_the_client_collects_them Number_toString_int
                  String_toNumber_none failing_provider keep_order
                  [] "get_page_content" page_args []) as (_ & _ & H).
    destruct (H JUndefined JUndefined JUndefined (JStr "p1") (JSError "fetch failed")
                eq_refl eq_refl eq_refl eq_refl) as (_ & _ & _ & _ & Hc).
    apply Hc. reflexivity.
Defined.

Lemma page_text_is_parsed_again_witness :
  fst (getPageContent Number_toString_int null_text_provider (JStr "p1") []) = Ok "null" /\
  gathered Number_toString_int String_toNumber_none null_text_provider keep_order
    [] "get_page_content" page_args [] = [].
Proof.
  destruct (page_text_is_parsed_again Number_toString_int String_toNumber_none
              null_text_provider keep_order JSON.parse [] page_args (JStr "p1") []
              eq_refl)
    as (t & Ht & _ & _ & Hdrop).
  assert (E : t = "null").
  { assert (H : fst (getPageContent Number_toString_int null_text_provider (JStr "p1") [])
                = Ok "null") by (vm_compute; reflexivity).
    congruence. }
  subst t. split; [exact Ht|].
  apply (Hdrop JNull); reflexivity.
Defined.

End Instances.
